(** * ChatBot services: session manager, response resolver, offline generator

    A shallow embedding of the TypeScript services of the chatbot client
    ([ChatBotService], [DatabaseService], [ApiService]) and the properties
    of the message/session lifecycle and of the response-resolution
    pipeline that are checked against the code.

    Conventions of the embedding.
    - A JavaScript string is a [string] (a sequence of 8-bit code units,
      the characters U+0000 to U+00FF); [toLowerCase] maps the capital
      letters among them, A-Z and the Latin-1 capitals U+00C0 to U+00DE
      without the multiplication sign, and leaves every other code unit
      unchanged.
    - A [Date] is its number of milliseconds since the epoch, a [Z].
    - A JavaScript number that is only ever a decimal literal of the code
      (the confidence of a reply) is the rational it denotes, a [Q].
    - A thrown value is an [Error], with the fields of an [AxiosError]
      that [handleApiError] reads.
    - An [async] method is a program tree [Prog]: it runs synchronously
      up to an [await], where it is suspended; the event loop resumes it
      later, possibly after other tasks have run.  [run] executes one
      program with nothing in between; [step] is the loop with every
      interleaving.
    - A task that is suspended may find the world changed when it is
      resumed; [wp] and [turnwise] state what a program does turn by
      turn, whatever happens in between.
    - The state of the chat screen holds references: an object of the
      component's own, or the active session of the service, whose
      changes are seen through the state.
    - Everything outside the three services (the SQLite engine, NetInfo,
      axios, the clock, [Math.random], [JSON.parse]) is the host: it
      answers the events of a program, and the theorems quantify over
      every host.
    - Logging ([console.log], [console.error]) is left out.  The methods
      [initialize], [loadSampleData], [exportChatHistory],
      [syncWithServer], [cleanup] and the voice methods of
      [ChatBotService] are not part of the model; no component of the
      repository calls [cleanup].

    The file has two parts: the definitions, then the properties. *)

From Stdlib Require Import String Ascii List ZArith QArith Bool Lia Arith.
From Stdlib Require Import DecimalString.
Import ListNotations.
Local Open Scope string_scope.
Local Open Scope Z_scope.

(* ===================================================================== *)
(** ** Data model ([src/types/index.ts]) *)
(* ===================================================================== *)

Module Message.
Record t : Type := mk {
  id : string;
  text : string;
  isUser : bool;
  timestamp : Z;
  audioPath : option string
}.
End Message.

Module ChatSession.
Record t : Type := mk {
  id : string;
  title : string;
  messages : list Message.t;
  createdAt : Z;
  updatedAt : Z
}.
End ChatSession.

Module DatabaseRecord.
Record t : Type := mk {
  id : Z;
  title : string;
  content : string;
  category : string;
  keywords : list string;
  createdAt : string;
  updatedAt : string
}.
End DatabaseRecord.

(** [source: 'database' | 'api' | 'default']: the provenance of a reply,
    from the local store, the remote service or the offline generator. *)
Inductive Source : Type := database_src | api_src | default_src.

Module ChatBotResponse.
Record t : Type := mk {
  text : string;
  confidence : Q;
  source : Source;
  relatedTopics : option (list string)
}.
End ChatBotResponse.

(** [ApiResponse]; [data] is the payload of the end point, [None] when it
    is absent or falsy. *)
Module ApiResponse.
Record t (D : Type) : Type := mk {
  success : bool;
  data : option D;
  message : option string;
  error : option string
}.
Arguments mk {D}.
Arguments success {D}.
Arguments data {D}.
Arguments message {D}.
Arguments error {D}.
End ApiResponse.

(** A thrown JavaScript value, seen as the code sees it: an [Error] with
    its [message], and for an [AxiosError] the optional [response] (status
    and [response.data?.message]) and whether [request] is set. *)
Module JsError.
Record response_t : Type := mk_response {
  status : Z;
  data_message : option string
}.
Record t : Type := mk {
  message : string;
  response : option response_t;
  request : bool
}.
(** [new Error(msg)] *)
Definition Error (msg : string) : t := mk msg None false.
End JsError.

(** The outcome of an awaited promise or of a call that may throw. *)
Inductive Res (A : Type) : Type :=
| Ok (a : A)
| Err (e : JsError.t).
Arguments Ok {A}.
Arguments Err {A}.

(* ===================================================================== *)
(** ** Strings *)
(* ===================================================================== *)

(** [c.toLowerCase()] on one code unit: the capitals A-Z (65-90),
    and the Latin-1 capitals 192-214 and 216-222, are 32 below their
    small letters. *)
Definition lower_ascii (c : ascii) : ascii :=
  let n := nat_of_ascii c in
  if orb (andb (Nat.leb 65 n) (Nat.leb n 90))
       (orb (andb (Nat.leb 192 n) (Nat.leb n 214))
          (andb (Nat.leb 216 n) (Nat.leb n 222)))
  then ascii_of_nat (n + 32) else c.

(** [s.toLowerCase()] *)
Fixpoint toLowerCase (s : string) : string :=
  match s with
  | EmptyString => EmptyString
  | String c s' => String (lower_ascii c) (toLowerCase s')
  end.

(** [s.includes(sub)] *)
Fixpoint includes (s sub : string) : bool :=
  if String.prefix sub s then true
  else match s with
       | EmptyString => false
       | String _ s' => includes s' sub
       end.

(** [`${n}`] for an integer [n]. *)
Definition string_of_Z (n : Z) : string :=
  NilZero.string_of_int (Z.to_int n).

(** [a || b] on an optional string: [undefined], [null] and [''] are falsy. *)
Definition or_default (a : option string) (b : string) : string :=
  match a with
  | Some EmptyString | None => b
  | Some s => s
  end.

(* ===================================================================== *)
(** ** Service state and host events *)
(* ===================================================================== *)

(** The handle [SQLite.openDatabase] returns. *)
Inductive SQLiteDatabase : Type := ChatBotDB.

(** The mutable fields of the three singleton services and the pending
    timers of the JavaScript runtime.  Every timer of the services is
    [setTimeout(() => this.generateResponse(text), 500)], so a timer is
    its [text]. *)
Record World : Type := mkWorld {
  currentSession : option ChatSession.t;   (* ChatBotService.currentSession *)
  isProcessing : bool;                     (* ChatBotService.isProcessing *)
  database : option SQLiteDatabase;        (* DatabaseService.database *)
  baseURL : string;                        (* ApiService.baseURL *)
  timeout : Z;                             (* ApiService.timeout *)
  timers : list string
}.

(** Rows of the three tables, as [results.rows.item(i)] gives them. *)
Module CompanyRow.
Record t : Type := mk {
  id : Z;
  title : string;
  content : string;
  category : string;
  keywords : option string;
  created_at : string;
  updated_at : string
}.
End CompanyRow.

Module SessionRow.
Record t : Type := mk {
  id : string;
  title : string;
  created_at : Z;
  updated_at : Z
}.
End SessionRow.

Module MessageRow.
Record t : Type := mk {
  id : string;
  text : string;
  is_user : Z;
  audio_path : option string;
  timestamp : Z
}.
End MessageRow.

(** Synchronous effects: reads and writes of the service fields, and the
    built-ins the host answers at once. *)
Inductive Sync : Type -> Type :=
| ReadCurrentSession : Sync (option ChatSession.t)
| WriteCurrentSession (s : option ChatSession.t) : Sync unit
| ReadIsProcessing : Sync bool
| WriteIsProcessing (b : bool) : Sync unit
| ReadDatabase : Sync (option SQLiteDatabase)
| ReadBaseURL : Sync string
| ReadTimeout : Sync Z
| SetTimeout (userMessage : string) : Sync unit
| NewDate : Sync Z                              (* new Date(), Date.now() *)
| MathRandom : Sync string                      (* Math.random().toString(36) *)
| ToLocaleDateString (now : Z) : Sync string
| JsonParse (s : string) : Sync (Res (list string)).

(** Promises of the host, on which a program is suspended: one SQL
    statement, the connectivity probe, one HTTP request. *)
Inductive Async : Type -> Type :=
| SqlInsertSession (id title : string) (created_at updated_at : Z) : Async unit
| SqlInsertMessage (id session_id text : string) (is_user : Z)
    (audio_path : option string) (timestamp : Z) : Async unit
| SqlSearchCompanyData (searchTerm : string) : Async (list CompanyRow.t)
| SqlSelectSessions : Async (list SessionRow.t)
| SqlSelectMessages (session_id : string) : Async (list MessageRow.t)
| NetInfoFetch : Async (option bool)            (* netInfo.isConnected *)
| AxiosGetSearch (url q : string) (limit tmo : Z) : Async (option string)
| AxiosPostChatbot (url message : string) (context : list string)
    (timestamp tmo : Z) : Async (option ChatBotResponse.t)
| AxiosPostAudio (url uri : string) (tmo : Z) : Async (option string)
| AxiosGetCategories (url : string) (tmo : Z) : Async (option string)
| AxiosGetSync (url : string) (since : option string) (tmo : Z)
  : Async (option (list DatabaseRecord.t)).

(** Is the event a statement sent to the SQLite engine? *)
Definition is_sql {R : Type} (e : Async R) : bool :=
  match e with
  | SqlInsertSession _ _ _ _ | SqlInsertMessage _ _ _ _ _ _
  | SqlSearchCompanyData _ | SqlSelectSessions | SqlSelectMessages _ => true
  | _ => false
  end.

(* ===================================================================== *)
(** ** Programs *)
(* ===================================================================== *)

(** The body of an (async) method: it returns, throws, performs a
    synchronous effect, waits for a promise of the host ([Await]), or is
    suspended for one turn of the micro-task queue because it awaits the
    promise of another method of the services ([Yield]). *)
Inductive Prog (A : Type) : Type :=
| Ret (a : A)
| Throw (e : JsError.t)
| Do {R : Type} (e : Sync R) (k : R -> Prog A)
| Await {R : Type} (e : Async R) (k : Res R -> Prog A)
| Yield (k : Prog A).
Arguments Ret {A}.
Arguments Throw {A}.
Arguments Do {A R}.
Arguments Await {A R}.
Arguments Yield {A}.

Fixpoint bind {A B : Type} (p : Prog A) (f : A -> Prog B) : Prog B :=
  match p with
  | Ret a => f a
  | Throw e => Throw e
  | Do e k => Do e (fun r => bind (k r) f)
  | Await e k => Await e (fun r => bind (k r) f)
  | Yield k => Yield (bind k f)
  end.

Declare Scope prog_scope.
Delimit Scope prog_scope with prog.
Notation "x <- p ;; q" := (bind p (fun x => q))
  (at level 61, p at next level, right associativity) : prog_scope.
Notation "p ;;; q" := (bind p (fun _ => q))
  (at level 61, right associativity) : prog_scope.
Local Open Scope prog_scope.

(** [try { p } catch (error) { h error }] *)
Fixpoint try_catch {A : Type} (p : Prog A) (h : JsError.t -> Prog A) : Prog A :=
  match p with
  | Ret a => Ret a
  | Throw e => h e
  | Do e k => Do e (fun r => try_catch (k r) h)
  | Await e k => Await e (fun r => try_catch (k r) h)
  | Yield k => Yield (try_catch k h)
  end.

(** [try { p } finally { f }] *)
Fixpoint try_finally {A : Type} (p : Prog A) (f : Prog unit) : Prog A :=
  match p with
  | Ret a => f ;;; Ret a
  | Throw e => f ;;; Throw e
  | Do e k => Do e (fun r => try_finally (k r) f)
  | Await e k => Await e (fun r => try_finally (k r) f)
  | Yield k => Yield (try_finally k f)
  end.

(** [await p] for the promise of an async method [p] of the services: the
    method runs, and its caller goes on one turn after it has settled. *)
Fixpoint await {A : Type} (p : Prog A) : Prog A :=
  match p with
  | Ret a => Yield (Ret a)
  | Throw e => Yield (Throw e)
  | Do e k => Do e (fun r => await (k r))
  | Await e k => Await e (fun r => await (k r))
  | Yield k => Yield (await k)
  end.

(** [await e] for a promise of the host. *)
Definition wait {R : Type} (e : Async R) : Prog R :=
  Await e (fun r => match r with Ok a => Ret a | Err x => Throw x end).

(** A synchronous effect. *)
Definition perform {R : Type} (e : Sync R) : Prog R := Do e Ret.

(** [for (const x of l) { await body x }] *)
Fixpoint forEach {X : Type} (l : list X) (body : X -> Prog unit) : Prog unit :=
  match l with
  | [] => Ret tt
  | x :: l' => body x ;;; forEach l' body
  end.

(** The error of a property access on [null]. *)
Definition typeError : JsError.t :=
  JsError.Error "Cannot read properties of null".

(* ===================================================================== *)
(** ** ApiService: the offline generator and the error mapping *)
(* ===================================================================== *)

Module ApiService.

Definition greeting_text : string :=
  "Hello! How can I help you today? I can assist you with company information and answer your questions.".

Definition nl : string := String (ascii_of_nat 10) EmptyString.

Definition bullet : string :=
  String (ascii_of_nat 226) (String (ascii_of_nat 128) (String (ascii_of_nat 162) EmptyString)).

Definition help_text : string :=
  "I can help you with:" ++ nl
  ++ bullet ++ " Company information and policies" ++ nl
  ++ bullet ++ " Product details" ++ nl
  ++ bullet ++ " General inquiries" ++ nl
  ++ bullet ++ " Voice commands" ++ nl ++ nl
  ++ "Just ask me anything or use voice input!".

Definition thanks_text : string :=
  "You're welcome! Is there anything else I can help you with?".

Definition dquote : string := String (ascii_of_nat 34) EmptyString.

Definition echo_text (message : string) : string :=
  "I understand you're asking about: " ++ dquote ++ message ++ dquote
  ++ ". Let me search our database for relevant information. If you need immediate assistance, please try rephrasing your question.".

Definition greeting : ChatBotResponse.t :=
  ChatBotResponse.mk greeting_text (9 # 10) default_src
    (Some ["greeting"; "help"; "assistance"]).

Definition help : ChatBotResponse.t :=
  ChatBotResponse.mk help_text (8 # 10) default_src
    (Some ["help"; "features"; "voice"]).

Definition thanks : ChatBotResponse.t :=
  ChatBotResponse.mk thanks_text (9 # 10) default_src
    (Some ["thanks"; "assistance"]).

Definition echo (message : string) : ChatBotResponse.t :=
  ChatBotResponse.mk (echo_text message) (5 # 10) default_src
    (Some ["search"; "information"]).

(** [ApiService.generateMockResponse] *)
Definition generateMockResponse (message : string) : ChatBotResponse.t :=
  let lowercaseMessage := toLowerCase message in
  if orb (includes lowercaseMessage "hello") (includes lowercaseMessage "hi")
  then greeting
  else if includes lowercaseMessage "help" then help
  else if includes lowercaseMessage "thank" then thanks
  else echo message.

(** [ApiService.handleApiError] (the [console.error] aside). *)
Definition handleApiError {D : Type} (error : JsError.t) : ApiResponse.t D :=
  match JsError.response error with
  | Some r =>
      ApiResponse.mk false None
        (Some (or_default (JsError.data_message r) "Server error occurred"))
        (Some ("Server error: " ++ string_of_Z (JsError.status r)))
  | None =>
      if JsError.request error then
        ApiResponse.mk false None
          (Some "Unable to connect to server. Please check your internet connection.")
          (Some "Network error")
      else
        ApiResponse.mk false None
          (Some (or_default (Some (JsError.message error)) "An unexpected error occurred"))
          (Some "Request failed")
  end.

(** The reply of every remote call when the connectivity check fails. *)
Definition noConnection {D : Type} : ApiResponse.t D :=
  ApiResponse.mk false None
    (Some "Please check your internet connection and try again.")
    (Some "No internet connection").

(** [ApiService.checkNetworkConnection]: [netInfo.isConnected ?? false] *)
Definition checkNetworkConnection : Prog bool :=
  netInfo <- wait NetInfoFetch ;;
  Ret (match netInfo with Some b => b | None => false end).

(** [ApiService.searchCompanyData] *)
Definition searchCompanyData (query : string) : Prog (ApiResponse.t string) :=
  try_catch
    (isConnected <- await checkNetworkConnection ;;
     if negb isConnected then Ret noConnection
     else
       base <- perform ReadBaseURL ;;
       tmo <- perform ReadTimeout ;;
       response <- wait (AxiosGetSearch (base ++ "/search") query 10 tmo) ;;
       Ret (ApiResponse.mk true response
              (Some "Data retrieved successfully") None))
    (fun error => Ret (handleApiError error)).

(** [ApiService.getChatbotResponse]; [context || []] *)
Definition getChatbotResponse (message : string) (context : option (list string))
  : Prog (ApiResponse.t ChatBotResponse.t) :=
  try_catch
    (isConnected <- await checkNetworkConnection ;;
     if negb isConnected then Ret noConnection
     else
       base <- perform ReadBaseURL ;;
       now <- perform NewDate ;;
       tmo <- perform ReadTimeout ;;
       response <- wait (AxiosPostChatbot (base ++ "/chatbot") message
                           (match context with Some c => c | None => [] end)
                           now tmo) ;;
       Ret (ApiResponse.mk true response
              (Some "Response generated successfully") None))
    (fun error => Ret (handleApiError error)).

(** [ApiService.uploadAudioFile] *)
Definition uploadAudioFile (audioPath : string) : Prog (ApiResponse.t string) :=
  try_catch
    (isConnected <- await checkNetworkConnection ;;
     if negb isConnected then Ret noConnection
     else
       base <- perform ReadBaseURL ;;
       response <- wait (AxiosPostAudio (base ++ "/audio/upload") audioPath 30000) ;;
       Ret (ApiResponse.mk true response
              (Some "Audio uploaded successfully") None))
    (fun error => Ret (handleApiError error)).

(** [ApiService.getCompanyDataCategories] *)
Definition getCompanyDataCategories : Prog (ApiResponse.t string) :=
  try_catch
    (isConnected <- await checkNetworkConnection ;;
     if negb isConnected then Ret noConnection
     else
       base <- perform ReadBaseURL ;;
       tmo <- perform ReadTimeout ;;
       response <- wait (AxiosGetCategories (base ++ "/categories") tmo) ;;
       Ret (ApiResponse.mk true response
              (Some "Categories retrieved successfully") None))
    (fun error => Ret (handleApiError error)).

(** [ApiService.syncLocalData]; an absent or empty [lastSyncTimestamp]
    sets no [since] parameter. *)
Definition syncLocalData (lastSyncTimestamp : option string)
  : Prog (ApiResponse.t (list DatabaseRecord.t)) :=
  try_catch
    (isConnected <- await checkNetworkConnection ;;
     if negb isConnected then Ret noConnection
     else
       let since := match lastSyncTimestamp with
                    | Some EmptyString | None => None
                    | Some s => Some s
                    end in
       base <- perform ReadBaseURL ;;
       response <- wait (AxiosGetSync (base ++ "/sync") since 30000) ;;
       Ret (ApiResponse.mk true response
              (Some "Data synchronized successfully") None))
    (fun error => Ret (handleApiError error)).

End ApiService.

(* ===================================================================== *)
(** ** DatabaseService *)
(* ===================================================================== *)

Module DatabaseService.

Definition notInitialized : JsError.t :=
  JsError.Error "Database not initialized".

(** [if (!this.database) throw new Error('Database not initialized')] *)
Definition requireDatabase : Prog SQLiteDatabase :=
  db <- perform ReadDatabase ;;
  match db with
  | Some d => Ret d
  | None => Throw notInitialized
  end.

(** [JSON.parse(s)], which throws on a text that is not JSON. *)
Definition jsonParse (s : string) : Prog (list string) :=
  r <- perform (JsonParse s) ;;
  match r with Ok v => Ret v | Err e => Throw e end.

(** The loop of [searchCompanyData] over the rows of the result. *)
Fixpoint recordsOfRows (rows : list CompanyRow.t) : Prog (list DatabaseRecord.t) :=
  match rows with
  | [] => Ret []
  | row :: rest =>
      kw <- jsonParse (or_default (CompanyRow.keywords row) "[]") ;;
      records <- recordsOfRows rest ;;
      Ret (DatabaseRecord.mk (CompanyRow.id row) (CompanyRow.title row)
             (CompanyRow.content row) (CompanyRow.category row) kw
             (CompanyRow.created_at row) (CompanyRow.updated_at row)
           :: records)
  end.

(** [DatabaseService.searchCompanyData] *)
Definition searchCompanyData (query : string) : Prog (list DatabaseRecord.t) :=
  requireDatabase ;;;
  let searchTerm := "%" ++ query ++ "%" in
  rows <- wait (SqlSearchCompanyData searchTerm) ;;
  recordsOfRows rows.

(** [DatabaseService.saveMessage]; [message.audioPath || null] *)
Definition saveMessage (sessionId : string) (message : Message.t) : Prog unit :=
  requireDatabase ;;;
  wait (SqlInsertMessage (Message.id message) sessionId (Message.text message)
          (if Message.isUser message then 1 else 0)
          (match Message.audioPath message with
           | Some EmptyString | None => None
           | Some p => Some p
           end)
          (Message.timestamp message)).

(** [DatabaseService.saveChatSession].  The argument is what the caller
    passes, [null] included.  The loop runs over the messages the session
    has when the call starts: these are the messages the loop of the code
    visits when no other task pushes a message on the session while the
    loop waits for an insert.  ([for (const message of session.messages)]
    walks the array itself: a message pushed meanwhile would be visited
    too.  The properties that count or list the statements of a call are
    stated for a run with no other task in between.) *)
Definition saveChatSession (session : option ChatSession.t) : Prog unit :=
  requireDatabase ;;;
  match session with
  | None => Throw typeError
  | Some s =>
      wait (SqlInsertSession (ChatSession.id s) (ChatSession.title s)
              (ChatSession.createdAt s) (ChatSession.updatedAt s)) ;;;
      forEach (ChatSession.messages s)
        (fun message => await (saveMessage (ChatSession.id s) message))
  end.

Definition messageOfRow (row : MessageRow.t) : Message.t :=
  Message.mk (MessageRow.id row) (MessageRow.text row)
    (Z.eqb (MessageRow.is_user row) 1) (MessageRow.timestamp row)
    (MessageRow.audio_path row).

(** [DatabaseService.getSessionMessages] *)
Definition getSessionMessages (sessionId : string) : Prog (list Message.t) :=
  requireDatabase ;;;
  rows <- wait (SqlSelectMessages sessionId) ;;
  Ret (map messageOfRow rows).

(** The loop of [getChatSessions] over the rows of the result. *)
Fixpoint sessionsOfRows (rows : list SessionRow.t) : Prog (list ChatSession.t) :=
  match rows with
  | [] => Ret []
  | row :: rest =>
      messages <- await (getSessionMessages (SessionRow.id row)) ;;
      sessions <- sessionsOfRows rest ;;
      Ret (ChatSession.mk (SessionRow.id row) (SessionRow.title row) messages
             (SessionRow.created_at row) (SessionRow.updated_at row)
           :: sessions)
  end.

(** [DatabaseService.getChatSessions] *)
Definition getChatSessions : Prog (list ChatSession.t) :=
  requireDatabase ;;;
  rows <- wait SqlSelectSessions ;;
  sessionsOfRows rows.

End DatabaseService.

(* ===================================================================== *)
(** ** ChatBotService *)
(* ===================================================================== *)

Module ChatBotService.

Definition apology : string :=
  "I apologize, but I encountered an error while processing your request. Please try again.".

(** [`${prefix}_${Date.now()}_${Math.random().toString(36).substr(2, 9)}`] *)
Definition freshId (prefix : string) : Prog string :=
  now <- perform NewDate ;;
  rnd <- perform MathRandom ;;
  Ret (prefix ++ "_" ++ string_of_Z now ++ "_" ++ String.substring 2 9 rnd).

(** [ChatBotService.createNewSession]; it returns [this.currentSession]
    as it is after the session was saved. *)
Definition createNewSession (title : option string) : Prog (option ChatSession.t) :=
  sessionId <- freshId "session" ;;
  now <- perform NewDate ;;
  title' <- match title with
            | Some EmptyString | None =>
                d <- perform (ToLocaleDateString now) ;; Ret ("Chat " ++ d)
            | Some t => Ret t
            end ;;
  perform (WriteCurrentSession
             (Some (ChatSession.mk sessionId title' [] now now))) ;;;
  session <- perform ReadCurrentSession ;;
  await (DatabaseService.saveChatSession session) ;;;
  perform ReadCurrentSession.

(** [ChatBotService.loadSession] *)
Definition loadSession (sessionId : string) : Prog (option ChatSession.t) :=
  try_catch
    (sessions <- await DatabaseService.getChatSessions ;;
     match find (fun s => String.eqb (ChatSession.id s) sessionId) sessions with
     | Some session =>
         perform (WriteCurrentSession (Some session)) ;;;
         Ret (Some session)
     | None => Ret None
     end)
    (fun error => Ret None).

(** [this.currentSession!]: the field, or a [TypeError] where the code
    goes on to read a property of [null]. *)
Definition currentSessionBang : Prog ChatSession.t :=
  s <- perform ReadCurrentSession ;;
  match s with
  | Some s => Ret s
  | None => Throw typeError
  end.

(** [sendMessage], first statement: without an active session, create
    one. *)
Definition ensureSession : Prog unit :=
  cur <- perform ReadCurrentSession ;;
  match cur with
  | None => await (createNewSession None) ;;; Ret tt
  | Some _ => Ret tt
  end.

(** [sendMessage], up to its first persistence call: build the message,
    push it on the messages of the active session, set [updatedAt].  No
    [await] in between. *)
Definition appendMessage (text : string) (isUser : bool) : Prog Message.t :=
  messageId <- freshId "msg" ;;
  timestamp <- perform NewDate ;;
  let message := Message.mk messageId text isUser timestamp None in
  s <- currentSessionBang ;;
  perform (WriteCurrentSession
             (Some (ChatSession.mk (ChatSession.id s) (ChatSession.title s)
                      (ChatSession.messages s ++ [message])
                      (ChatSession.createdAt s) (ChatSession.updatedAt s)))) ;;;
  s <- currentSessionBang ;;
  now <- perform NewDate ;;
  perform (WriteCurrentSession
             (Some (ChatSession.mk (ChatSession.id s) (ChatSession.title s)
                      (ChatSession.messages s)
                      (ChatSession.createdAt s) now))) ;;;
  Ret message.

(** [sendMessage], the two persistence calls. *)
Definition persistMessage (message : Message.t) : Prog unit :=
  s <- currentSessionBang ;;
  await (DatabaseService.saveMessage (ChatSession.id s) message) ;;;
  session <- perform ReadCurrentSession ;;
  await (DatabaseService.saveChatSession session).

(** [sendMessage], the last statement:
    [if (isUser && !this.isProcessing) setTimeout(() => this.generateResponse(text), 500)] *)
Definition scheduleResponse (text : string) (isUser : bool) : Prog unit :=
  processing <- perform ReadIsProcessing ;;
  if andb isUser (negb processing)
  then perform (SetTimeout text)
  else Ret tt.

(** [ChatBotService.sendMessage] *)
Definition sendMessage (text : string) (isUser : bool) : Prog Message.t :=
  ensureSession ;;;
  message <- appendMessage text isUser ;;
  persistMessage message ;;;
  scheduleResponse text isUser ;;;
  Ret message.

(** The reply of [generateResponse]: the block of the [try] that assigns
    [response] (local store, then remote call, then mock reply). *)
Definition resolveResponse (userMessage : string) : Prog ChatBotResponse.t :=
  localResults <- await (DatabaseService.searchCompanyData userMessage) ;;
  match localResults with
  | bestMatch :: _ =>
      Ret (ChatBotResponse.mk (DatabaseRecord.content bestMatch) (8 # 10)
             database_src (Some (DatabaseRecord.keywords bestMatch)))
  | [] =>
      apiResponse <- await (ApiService.getChatbotResponse userMessage None) ;;
      match ApiResponse.success apiResponse, ApiResponse.data apiResponse with
      | true, Some data => Ret data
      | _, _ => Ret (ApiService.generateMockResponse userMessage)
      end
  end.

(** The part of [generateResponse] after the flag is set: the
    [try]/[catch]/[finally] statement. *)
Definition generation (userMessage : string) : Prog unit :=
  try_finally
    (try_catch
       (response <- resolveResponse userMessage ;;
        await (sendMessage (ChatBotResponse.text response) false) ;;;
        Ret tt)
       (fun error =>
          await (sendMessage apology false) ;;;
          Ret tt))
    (perform (WriteIsProcessing false)).

(** [ChatBotService.generateResponse] *)
Definition generateResponse (userMessage : string) : Prog unit :=
  processing <- perform ReadIsProcessing ;;
  if processing then Ret tt
  else
    perform (WriteIsProcessing true) ;;;
    generation userMessage.

(** [ChatBotService.getCurrentSession] *)
Definition getCurrentSession : Prog (option ChatSession.t) :=
  perform ReadCurrentSession.

(** [ChatBotService.getAllSessions] *)
Definition getAllSessions : Prog (list ChatSession.t) :=
  await DatabaseService.getChatSessions.

(** [ChatBotService.deleteSession] *)
Definition deleteSession (sessionId : string) : Prog unit :=
  cur <- perform ReadCurrentSession ;;
  match cur with
  | Some s =>
      if String.eqb (ChatSession.id s) sessionId
      then perform (WriteCurrentSession None)
      else Ret tt
  | None => Ret tt
  end.

(** [ChatBotService.getIsProcessing] *)
Definition getIsProcessing : Prog bool :=
  perform ReadIsProcessing.

End ChatBotService.

(* ===================================================================== *)
(** ** The host and the execution of programs *)
(* ===================================================================== *)

(** The host answers the built-ins and settles the promises.  Interactions
    are numbered; the answer to the [i]-th one may depend on [i], so a
    host stands for one arbitrary history of answers. *)
Record Host : Type := mkHost {
  host_clock : nat -> Z;
  host_random : nat -> string;
  host_localeDate : Z -> string;
  host_jsonParse : string -> Res (list string);
  host_async : forall R : Type, Async R -> nat -> Res R
}.
Arguments host_async h {R}.

(** One synchronous effect at interaction [i]: its value and the world
    after it. *)
Definition do_sync (h : Host) {R : Type} (e : Sync R) (w : World) (i : nat)
  : R * World :=
  match e in Sync R return R * World with
  | ReadCurrentSession => (currentSession w, w)
  | WriteCurrentSession s =>
      (tt, mkWorld s (isProcessing w) (database w) (baseURL w) (timeout w) (timers w))
  | ReadIsProcessing => (isProcessing w, w)
  | WriteIsProcessing b =>
      (tt, mkWorld (currentSession w) b (database w) (baseURL w) (timeout w) (timers w))
  | ReadDatabase => (database w, w)
  | ReadBaseURL => (baseURL w, w)
  | ReadTimeout => (timeout w, w)
  | SetTimeout userMessage =>
      (tt, mkWorld (currentSession w) (isProcessing w) (database w) (baseURL w)
             (timeout w) (timers w ++ [userMessage]))
  | NewDate => (host_clock h i, w)
  | MathRandom => (host_random h i, w)
  | ToLocaleDateString now => (host_localeDate h now, w)
  | JsonParse s => (host_jsonParse h s, w)
  end.

(** The end of a run: how the program settled, the world it leaves, and
    the number of the next interaction. *)
Record Outcome (A : Type) : Type := mkOutcome {
  result : Res A;
  world : World;
  tick : nat
}.
Arguments mkOutcome {A}.
Arguments result {A}.
Arguments world {A}.
Arguments tick {A}.

(** A program run to its end with no other task in between. *)
Fixpoint run (h : Host) {A : Type} (p : Prog A) (w : World) (i : nat) : Outcome A :=
  match p with
  | Ret a => mkOutcome (Ok a) w i
  | Throw e => mkOutcome (Err e) w i
  | Do e k => run h (k (fst (do_sync h e w i))) (snd (do_sync h e w i)) (S i)
  | Await e k => run h (k (host_async h e i)) w (S i)
  | Yield k => run h k w i
  end.

(* ===================================================================== *)
(** ** The event loop *)
(* ===================================================================== *)

(** A suspended task: what it waits for and how it goes on. *)
Inductive Pending : Type :=
| PAwait {R : Type} (e : Async R) (k : Res R -> Prog unit)
| PYield (k : Prog unit).

(** How one turn of a task ends. *)
Inductive Turn : Type :=
| Finished (r : Res unit)
| Suspended (p : Pending).

(** One turn: the task runs synchronously up to its next suspension. *)
Fixpoint slice (h : Host) (p : Prog unit) (w : World) (i : nat)
  : Turn * World * nat :=
  match p with
  | Ret a => (Finished (Ok a), w, i)
  | Throw e => (Finished (Err e), w, i)
  | Do e k => slice h (k (fst (do_sync h e w i))) (snd (do_sync h e w i)) (S i)
  | Await e k => (Suspended (PAwait e k), w, i)
  | Yield k => (Suspended (PYield k), w, i)
  end.

(** The program a suspended task goes on with at interaction [i]. *)
Definition resume (h : Host) (p : Pending) (i : nat) : Prog unit :=
  match p with
  | PAwait e k => k (host_async h e i)
  | PYield k => k
  end.

(** The interaction a resumption uses up. *)
Definition resume_tick (p : Pending) (i : nat) : nat :=
  match p with
  | PAwait _ _ => S i
  | PYield _ => i
  end.

(** A task of the loop; [is_generation] marks the invocations of
    [generateResponse] started by a timer. *)
Record Task : Type := mkTask {
  is_generation : bool;
  pending : Pending
}.

(** The loop between two turns: the world, the suspended tasks, and the
    number of the next interaction. *)
Record Loop : Type := mkLoop {
  loop_world : World;
  pool : list Task;
  loop_tick : nat
}.

(** The calls the user interface makes on the session manager. *)
Inductive Action : Type :=
| CallCreateNewSession (title : option string)
| CallLoadSession (sessionId : string)
| CallSendMessage (text : string) (isUser : bool)
| CallGetAllSessions
| CallDeleteSession (sessionId : string).

Definition forget {A : Type} (p : Prog A) : Prog unit := p ;;; Ret tt.

Definition program_of (a : Action) : Prog unit :=
  match a with
  | CallCreateNewSession title => forget (ChatBotService.createNewSession title)
  | CallLoadSession sessionId => forget (ChatBotService.loadSession sessionId)
  | CallSendMessage text isUser => forget (ChatBotService.sendMessage text isUser)
  | CallGetAllSessions => forget ChatBotService.getAllSessions
  | CallDeleteSession sessionId => ChatBotService.deleteSession sessionId
  end.

(** A task takes a turn; it stays in the pool if it is suspended again. *)
Definition take_turn (h : Host) (g : bool) (p : Prog unit) (w : World)
  (others : list Task) (i : nat) : Loop :=
  match slice h p w i with
  | (Finished _, w', i') => mkLoop w' others i'
  | (Suspended pd, w', i') => mkLoop w' (others ++ [mkTask g pd]) i'
  end.

Definition without_timers (w : World) (l : list string) : World :=
  mkWorld (currentSession w) (isProcessing w) (database w) (baseURL w)
    (timeout w) l.

(** The steps of the loop: the user interface calls a method that
    [allowed] admits, a pending timer fires and calls [generateResponse],
    or a suspended task is resumed.  Which of them happens, and in which
    order, is left open. *)
Inductive step (h : Host) (allowed : Action -> Prop) : Loop -> Loop -> Prop :=
| step_call (a : Action) (L : Loop) :
    allowed a ->
    step h allowed L
      (take_turn h false (program_of a) (loop_world L) (pool L) (loop_tick L))
| step_timer (L : Loop) (l1 l2 : list string) (userMessage : string) :
    timers (loop_world L) = (l1 ++ userMessage :: l2)%list ->
    step h allowed L
      (take_turn h true (ChatBotService.generateResponse userMessage)
         (without_timers (loop_world L) (l1 ++ l2)%list) (pool L) (loop_tick L))
| step_resume (L : Loop) (p1 p2 : list Task) (t : Task) :
    pool L = (p1 ++ t :: p2)%list ->
    step h allowed L
      (take_turn h (is_generation t) (resume h (pending t) (loop_tick L))
         (loop_world L) (p1 ++ p2)%list (resume_tick (pending t) (loop_tick L))).

(** The loop states reached from [L0]. *)
Inductive reaches (h : Host) (allowed : Action -> Prop) (L0 : Loop) : Loop -> Prop :=
| reaches_refl : reaches h allowed L0 L0
| reaches_step (L L' : Loop) :
    reaches h allowed L0 L -> step h allowed L L' -> reaches h allowed L0 L'.

(** The generations that are running: the suspended invocations of
    [generateResponse] (one that returns at its guard is never suspended). *)
Definition running_generations (L : Loop) : nat :=
  length (filter is_generation (pool L)).

(** The service as the module creates it, with the database open. *)
Definition initial_world : World :=
  mkWorld None false (Some ChatBotDB) "https://api.yourcompany.com/v1" 10000 [].

Definition initial_loop : Loop := mkLoop initial_world [] 0.

(* ===================================================================== *)
(** ** Concrete hosts and scenarios *)
(* ===================================================================== *)

(** A host described by what the store, the network and the remote
    service answer each time they are asked. *)
Record Scenario : Type := mkScenario {
  sc_insert : Res unit;
  sc_search : Res (list CompanyRow.t);
  sc_sessions : Res (list SessionRow.t);
  sc_messages : Res (list MessageRow.t);
  sc_netinfo : Res (option bool);
  sc_chatbot : Res (option ChatBotResponse.t)
}.

(** The promises of a scenario settle the same way each time. *)
Definition scenario_async (sc : Scenario) (R : Type) (e : Async R) (i : nat)
  : Res R :=
  match e in Async R return Res R with
  | SqlInsertSession _ _ _ _ => sc_insert sc
  | SqlInsertMessage _ _ _ _ _ _ => sc_insert sc
  | SqlSearchCompanyData _ => sc_search sc
  | SqlSelectSessions => sc_sessions sc
  | SqlSelectMessages _ => sc_messages sc
  | NetInfoFetch => sc_netinfo sc
  | AxiosGetSearch _ _ _ _ => Ok None
  | AxiosPostChatbot _ _ _ _ _ => sc_chatbot sc
  | AxiosPostAudio _ _ _ => Ok None
  | AxiosGetCategories _ _ => Ok None
  | AxiosGetSync _ _ _ => Ok None
  end.

(** The text [["support","help"]]. *)
Definition keywords_json : string :=
  "[" ++ ApiService.dquote ++ "support" ++ ApiService.dquote ++ ","
  ++ ApiService.dquote ++ "help" ++ ApiService.dquote ++ "]".

(** The clock of the concrete hosts shows [1000 + i] at interaction [i];
    [JSON.parse] knows the empty array and [keywords_json]. *)
Definition scenario_host (sc : Scenario) : Host :=
  mkHost (fun i => 1000 + Z.of_nat i)
         (fun _ => "0.4fzyo82mvyr")
         (fun _ => "1/1/2025")
         (fun s => if String.eqb s "[]" then Ok []
                   else if String.eqb s keywords_json
                        then Ok ["support"; "help"]
                        else Err (JsError.Error "Unexpected token"))
         (scenario_async sc).

(** The row of the sample record "Support Policy". *)
Definition support_row : CompanyRow.t :=
  CompanyRow.mk 3 "Support Policy"
    "Our support team is available 24/7 to assist customers. We provide email, phone, and chat support with response times under 2 hours."
    "support" (Some keywords_json) "2025-01-01T00:00:00.000Z" "2025-01-01T00:00:00.000Z".

(** The row of the sample record "Company Overview", without keywords. *)
Definition overview_row : CompanyRow.t :=
  CompanyRow.mk 1 "Company Overview"
    "Our company is a leading technology firm specializing in AI solutions, mobile app development, and cloud services. Founded in 2015, we serve clients worldwide."
    "company-info" None "2025-01-01T00:00:00.000Z" "2025-01-01T00:00:00.000Z".

(** An answer of the remote service. *)
Definition remote_answer : ChatBotResponse.t :=
  ChatBotResponse.mk "Refunds are handled by the billing team." (95 # 100) api_src None.

(** The store finds two records; the network is up and the remote service
    answers. *)
Definition sc_match : Scenario :=
  mkScenario (Ok tt) (Ok [support_row; overview_row]) (Ok []) (Ok [])
    (Ok (Some true)) (Ok (Some remote_answer)).

(** The store finds nothing; there is no connectivity. *)
Definition sc_offline : Scenario :=
  mkScenario (Ok tt) (Ok []) (Ok []) (Ok []) (Ok (Some false)) (Ok None).

(** The store finds nothing; the network is up and the remote service
    answers. *)
Definition sc_remote : Scenario :=
  mkScenario (Ok tt) (Ok []) (Ok []) (Ok []) (Ok (Some true)) (Ok (Some remote_answer)).


(** The engine rejects every statement. *)
Definition sc_store_down : Scenario :=
  mkScenario (Err (JsError.Error "SQLITE_IOERR")) (Err (JsError.Error "SQLITE_IOERR"))
    (Err (JsError.Error "SQLITE_IOERR")) (Err (JsError.Error "SQLITE_IOERR"))
    (Ok (Some false)) (Ok None).

(** The service with the database not open. *)
Definition closed_world : World :=
  mkWorld None false None "https://api.yourcompany.com/v1" 10000 [].

(** The active session, when there is one. *)
Definition the_session (w : World) : ChatSession.t :=
  match currentSession w with
  | Some s => s
  | None => ChatSession.mk "" "" [] 0 0
  end.


(* ===================================================================== *)
(** ** Classes of effects *)
(* ===================================================================== *)

(** A class of synchronous effects. *)
Definition SyncClass : Type := forall R : Type, Sync R -> bool.

(** The writes of [isProcessing], of [currentSession], and the timers. *)
Definition writes_flag : SyncClass :=
  fun R e => match e with WriteIsProcessing _ => true | _ => false end.

Definition writes_session : SyncClass :=
  fun R e => match e with WriteCurrentSession _ => true | _ => false end.

Definition sets_timer : SyncClass :=
  fun R e => match e with SetTimeout _ => true | _ => false end.

(** [avoids bad p]: no synchronous effect of [p] is in [bad]. *)
Fixpoint avoids (bad : SyncClass) {A : Type} (p : Prog A)
  : Prop :=
  match p with
  | Ret _ | Throw _ => True
  | Do e k => bad _ e = false /\ forall r, avoids bad (k r)
  | Await e k => forall r, avoids bad (k r)
  | Yield k => avoids bad k
  end.

(** A class of promises of the host. *)
Definition AsyncClass : Type := forall R : Type, Async R -> bool.

(** The two insert statements. *)
Definition is_insert : AsyncClass :=
  fun R e => match e with
             | SqlInsertSession _ _ _ _ | SqlInsertMessage _ _ _ _ _ _ => true
             | _ => false
             end.


(** A program without suspension point. *)
Fixpoint synchronous {A : Type} (p : Prog A) : Prop :=
  match p with
  | Ret _ | Throw _ => True
  | Do e k => forall r, synchronous (k r)
  | Await _ _ | Yield _ => False
  end.

(** Is the event an HTTP request? *)
Definition is_http {R : Type} (e : Async R) : bool :=
  match e with
  | AxiosGetSearch _ _ _ _ | AxiosPostChatbot _ _ _ _ _ | AxiosPostAudio _ _ _
  | AxiosGetCategories _ _ | AxiosGetSync _ _ _ => true
  | _ => false
  end.

(* ===================================================================== *)
(** ** The program logic *)
(* ===================================================================== *)

(** [Inv] is a property of the world that holds whenever a task is
    suspended: a task may assume it when it is resumed and must
    re-establish it before it is suspended again.  [wp h Inv p Q w i] says
    that [p], started in world [w] at interaction [i], keeps to that
    discipline whatever the host answers and whatever the other tasks do
    while it is suspended, and that [Q] holds when it settles. *)
Fixpoint wp (h : Host) (Inv : World -> nat -> Prop) {A : Type} (p : Prog A)
  (Q : Res A -> World -> nat -> Prop) (w : World) (i : nat) : Prop :=
  match p with
  | Ret a => Q (Ok a) w i
  | Throw e => Q (Err e) w i
  | Do e k =>
      wp h Inv (k (fst (do_sync h e w i))) Q (snd (do_sync h e w i)) (S i)
  | Await e k =>
      Inv w i /\ forall r w' i', Inv w' i' -> wp h Inv (k r) Q w' (S i')
  | Yield k => Inv w i /\ forall w' i', Inv w' i' -> wp h Inv k Q w' i'
  end.

(** [respects h Inv p]: started with [Inv], [p] is suspended only with [Inv]
    and settles with [Inv], whatever happens while it is suspended. *)
Definition respects (h : Host) (Inv : World -> nat -> Prop) {A : Type}
  (p : Prog A) : Prop :=
  forall Q : Res A -> World -> nat -> Prop,
    (forall r w i, Inv w i -> Q r w i) ->
    forall w i, Inv w i -> wp h Inv p Q w i.

(* ===================================================================== *)
(** ** Notions of the claims *)
(* ===================================================================== *)

(** The connectivity probe never reports a connection. *)
Definition offline (h : Host) : Prop :=
  forall j, host_async h NetInfoFetch j <> Ok (Some true).

(** Every HTTP request is rejected: a response with an error status, no
    response at all, or the timeout of the request. *)
Definition requests_fail (h : Host) : Prop :=
  forall R (ev : Async R) j,
    is_http ev = true -> exists e, host_async h ev j = Err e.

(** A remote call that settles with a reply whatever the host does, says
    why when the reply is a failure, and fails without connectivity and
    when the request is rejected. *)
Definition api_total {D : Type} (p : Prog (ApiResponse.t D)) : Prop :=
  forall h w i,
    exists resp,
      result (run h p w i) = Ok resp /\
      (ApiResponse.success resp = false ->
       exists e, ApiResponse.error resp = Some e /\ e <> "") /\
      (offline h -> ApiResponse.success resp = false) /\
      (requests_fail h -> ApiResponse.success resp = false).

(** The world with another active session. *)
Definition with_session (w : World) (s : option ChatSession.t) : World :=
  mkWorld s (isProcessing w) (database w) (baseURL w) (timeout w) (timers w).

(** The world with another in-flight flag. *)
Definition with_flag (w : World) (b : bool) : World :=
  mkWorld (currentSession w) b (database w) (baseURL w) (timeout w) (timers w).

(** The message [appendMessage] builds when it starts at interaction [i]. *)
Definition message_at (h : Host) (i : nat) (text : string) (isUser : bool)
  : Message.t :=
  Message.mk
    ("msg_" ++ string_of_Z (host_clock h i) ++ "_"
     ++ String.substring 2 9 (host_random h (S i)))
    text isUser (host_clock h (2 + i)) None.

(** The session after [appendMessage] started at interaction [i]. *)
Definition appended (h : Host) (i : nat) (text : string) (isUser : bool)
  (s : ChatSession.t) : ChatSession.t :=
  ChatSession.mk (ChatSession.id s) (ChatSession.title s)
    (ChatSession.messages s ++ [message_at h i text isUser])
    (ChatSession.createdAt s) (host_clock h (6 + i)).

(** The reply built from a record of the local store. *)
Definition local_reply (bestMatch : DatabaseRecord.t) : ChatBotResponse.t :=
  ChatBotResponse.mk (DatabaseRecord.content bestMatch) (8 # 10) database_src
    (Some (DatabaseRecord.keywords bestMatch)).

(** The search of the store fails with [e]: the database is not open, or
    the engine rejects every search statement. *)
Definition search_fails (h : Host) (w : World) (e : JsError.t) : Prop :=
  (database w = None /\ e = DatabaseService.notInitialized) \/
  (database w <> None /\
   forall term j, host_async h (SqlSearchCompanyData term) j = Err e).

(** The text of the last message of the active session. *)
Definition last_text (w : World) : option string :=
  match currentSession w with
  | Some s => option_map Message.text (last (map Some (ChatSession.messages s)) None)
  | None => None
  end.

(** The store is unavailable, with error [e]: the database is not open,
    or the engine rejects every statement. *)
Definition storage_down (h : Host) (w : World) (e : JsError.t) : Prop :=
  (database w = None /\ e = DatabaseService.notInitialized) \/
  (database w <> None /\
   forall R (ev : Async R) j, is_sql ev = true -> host_async h ev j = Err e).

(** The discipline of a generation that has set the flag: the flag is set
    whenever the task is suspended, and clear when it has completed. *)
Definition flag_set : World -> nat -> Prop := fun w _ => isProcessing w = true.

(** The flag is clear when the task has settled. *)
Definition flag_clear : Res unit -> World -> nat -> Prop :=
  fun _ w _ => isProcessing w = false.

(** A suspended generation keeps to that discipline; any other suspended
    task never writes the flag. *)
Definition task_discipline (h : Host) (t : Task) : Prop :=
  if is_generation t
  then forall w i, isProcessing w = true ->
         wp h flag_set (resume h (pending t) i) flag_clear w
           (resume_tick (pending t) i)
  else forall i, avoids writes_flag (resume h (pending t) i).

(** The invariant of the loop: the flag is set exactly when a generation
    is running, there is at most one, and every task keeps to its
    discipline. *)
Definition single_flight (h : Host) (L : Loop) : Prop :=
  running_generations L = (if isProcessing (loop_world L) then 1 else 0)%nat /\
  Forall (task_discipline h) (pool L).

(** The number of generations among tasks. *)
Definition gens (l : list Task) : nat := length (filter is_generation l).

(** The turns of a task.  [turnwise h Mid p Post w0 w i]: the turn of the
    loop that [p] is taking began in world [w0] and has come to world [w]
    at interaction [i].  Whenever [p] is suspended, [Mid] relates the world
    in which the turn that ends there began to the world it leaves; when
    [p] settles, [Post] relates the world in which its last turn began to
    the world it leaves.  A task that is resumed begins its next turn in
    any world and at any interaction, with any answer of the host: the
    other tasks may have done anything in between. *)
Fixpoint turnwise (h : Host) (Mid : World -> World -> Prop) {A : Type}
  (p : Prog A) (Post : Res A -> World -> World -> Prop) (w0 w : World) (i : nat)
  : Prop :=
  match p with
  | Ret a => Post (Ok a) w0 w
  | Throw e => Post (Err e) w0 w
  | Do e k =>
      turnwise h Mid (k (fst (do_sync h e w i))) Post w0 (snd (do_sync h e w i)) (S i)
  | Await e k => Mid w0 w /\ forall r w' i', turnwise h Mid (k r) Post w' w' i'
  | Yield k => Mid w0 w /\ forall w' i', turnwise h Mid k Post w' w' i'
  end.

(** The writes of the flag and the timers together. *)
Definition writes_flag_or_timer : SyncClass :=
  fun R e => orb (writes_flag R e) (sets_timer R e).

(** A turn that leaves the pending timers and the flag as it found
    them. *)
Definition unchanged : World -> World -> Prop :=
  fun w0 w => timers w = timers w0 /\ isProcessing w = isProcessing w0.

(** The turn in which [sendMessage text isUser] settles: it leaves the
    flag as it found it; it adds the timer of [text] when it returns a
    user message and found the flag clear, and no timer otherwise. *)
Definition timer_rule (text : string) (isUser : bool)
  : Res Message.t -> World -> World -> Prop :=
  fun r w0 w =>
    isProcessing w = isProcessing w0 /\
    timers w = match r with
               | Ok _ => if andb isUser (negb (isProcessing w0))
                         then (timers w0 ++ [text])%list
                         else timers w0
               | Err _ => timers w0
               end.

(** A turn that leaves the pending timers as they were if it began with
    the flag set. *)
Definition quiet_when_busy : World -> World -> Prop :=
  fun w0 w => isProcessing w0 = true -> timers w = timers w0.

(** A suspended task all of whose turns are quiet when busy. *)
Definition task_timid (h : Host) (t : Task) : Prop :=
  forall w i,
    turnwise h quiet_when_busy (resume h (pending t) i) (fun _ => quiet_when_busy)
      w w (resume_tick (pending t) i).

(** The clock of the host never goes back. *)
Definition clock_monotone (h : Host) : Prop :=
  forall i j, (i <= j)%nat -> host_clock h i <= host_clock h j.

(** [updatedAt] is not before the timestamp of any message. *)
Definition session_ok (s : ChatSession.t) : Prop :=
  Forall (fun m => Message.timestamp m <= ChatSession.updatedAt s)
    (ChatSession.messages s).

(** The invariant on the active session between two turns, at interaction
    [i]: the session is well dated and [updatedAt] is not after what the
    clock shows next. *)
Definition timestamps_ok (h : Host) : World -> nat -> Prop :=
  fun w i =>
    match currentSession w with
    | Some s => session_ok s /\ ChatSession.updatedAt s <= host_clock h i
    | None => True
    end.

(** The calls of the session manager that build sessions themselves
    ([loadSession] installs a session read from the store). *)
Definition builds_sessions (a : Action) : Prop :=
  match a with
  | CallLoadSession _ => False
  | _ => True
  end.

(** [dated h p]: [p] keeps the sessions well dated. *)
Definition dated (h : Host) {A : Type} (p : Prog A) : Prop :=
  respects h (timestamps_ok h) p.

(** A suspended task that keeps the sessions well dated from any
    well-dated world it is resumed in. *)
Definition task_dated (h : Host) (t : Task) : Prop :=
  forall w i, timestamps_ok h w i ->
    wp h (timestamps_ok h) (resume h (pending t) i)
      (fun _ w' i' => timestamps_ok h w' i') w (resume_tick (pending t) i).

(** The well-dated loop states. *)
Definition loop_dated (h : Host) (L : Loop) : Prop :=
  timestamps_ok h (loop_world L) (loop_tick L) /\ Forall (task_dated h) (pool L).

(* ===================================================================== *)
(** ** Schedules *)
(* ===================================================================== *)

(** One choice of the loop: a call of the user interface, the [n]-th
    pending timer fires, the [n]-th suspended task is resumed. *)
Inductive Choice : Type :=
| Call (a : Action)
| Fire (n : nat)
| Resume (n : nat).

(** The [n]-th element of a list, with what is before and after it. *)
Fixpoint split_at {X : Type} (n : nat) (l : list X) : option (list X * X * list X) :=
  match l, n with
  | [], _ => None
  | x :: l', O => Some ([], x, l')
  | x :: l', S n' =>
      match split_at n' l' with
      | Some (l1, y, l2) => Some (x :: l1, y, l2)
      | None => None
      end
  end.

(** The step of the loop a choice stands for, when it is possible. *)
Definition choose (h : Host) (c : Choice) (L : Loop) : option Loop :=
  match c with
  | Call a =>
      Some (take_turn h false (program_of a) (loop_world L) (pool L) (loop_tick L))
  | Fire n =>
      match split_at n (timers (loop_world L)) with
      | Some (l1, userMessage, l2) =>
          Some (take_turn h true (ChatBotService.generateResponse userMessage)
                  (without_timers (loop_world L) (l1 ++ l2)) (pool L) (loop_tick L))
      | None => None
      end
  | Resume n =>
      match split_at n (pool L) with
      | Some (p1, t, p2) =>
          Some (take_turn h (is_generation t) (resume h (pending t) (loop_tick L))
                  (loop_world L) (p1 ++ p2) (resume_tick (pending t) (loop_tick L)))
      | None => None
      end
  end.

(** The loop after a list of choices. *)
Fixpoint schedule (h : Host) (cs : list Choice) (L : Loop) : option Loop :=
  match cs with
  | [] => Some L
  | c :: cs' =>
      match choose h c L with
      | Some L' => schedule h cs' L'
      | None => None
      end
  end.

(** The calls of a schedule are all in [allowed]. *)
Definition calls_allowed (allowed : Action -> Prop) (cs : list Choice) : Prop :=
  Forall (fun c => match c with Call a => allowed a | _ => True end) cs.

(** The loop after a schedule from the initial state. *)
Definition loop_after (h : Host) (cs : list Choice) : Loop :=
  match schedule h cs initial_loop with
  | Some L => L
  | None => initial_loop
  end.

(** Text and author of the messages of the active session. *)
Definition messages_of (L : Loop) : list (string * bool) :=
  map (fun m => (Message.text m, Message.isUser m))
    (ChatSession.messages (the_session (loop_world L))).

(** The first user turn has run, its timer has fired, and its generation
    is suspended on the search of the store. *)
Definition first_generation_running : list Choice :=
  Call (CallSendMessage "first" true) :: repeat (Resume 0) 9 ++ [Fire 0].

(** Then the second user turn runs to its end, and then the generation. *)
Definition second_turn_then_rest : list Choice :=
  first_generation_running
  ++ Call (CallSendMessage "second" true) :: repeat (Resume 1) 8
  ++ repeat (Resume 0) 16.

(* ===================================================================== *)
(** ** Further hosts and schedules *)
(* ===================================================================== *)

(** A host whose clock steps back by one millisecond at every reading;
    everything else as in the host of [sc_offline]. *)
Definition backward_host : Host :=
  mkHost (fun i => 5000 - Z.of_nat i)
         (host_random (scenario_host sc_offline))
         (host_localeDate (scenario_host sc_offline))
         (host_jsonParse (scenario_host sc_offline))
         (@host_async (scenario_host sc_offline)).


(** The second user turn is called while the generation for the first is
    running, and waits for its first insert while that generation runs to
    its end; then the second user turn runs to its end. *)
Definition second_turn_finishes_late : list Choice :=
  first_generation_running
  ++ Call (CallSendMessage "second" true) :: Resume 0 :: repeat (Resume 1) 15
  ++ repeat (Resume 0) 10.

(** Then the timer of the second user turn fires, and its generation runs
    to its end. *)
Definition late_second_turn_then_rest : list Choice :=
  second_turn_finishes_late ++ Fire 0 :: repeat (Resume 0) 18.

(** The first user turn, up to the turn of the loop in which it appends
    its message. *)
Definition first_turn_appends : list Choice :=
  Call (CallSendMessage "hi" true) :: repeat (Resume 0) 3.

(* ===================================================================== *)
(** ** What a program asks of the host *)
(* ===================================================================== *)

(** A promise of the host a program has waited for. *)
Inductive Asked : Type :=
| asked {R : Type} (e : Async R).

(** The promises a run waits for, in order: the SQL statements and the
    HTTP requests the program sends, with their parameters. *)
Fixpoint asks (h : Host) {A : Type} (p : Prog A) (w : World) (i : nat)
  : list Asked :=
  match p with
  | Ret _ | Throw _ => []
  | Do e k => asks h (k (fst (do_sync h e w i))) (snd (do_sync h e w i)) (S i)
  | Await e k => asked e :: asks h (k (host_async h e i)) w (S i)
  | Yield k => asks h k w i
  end.

(** [ApiService.setBaseURL] and [ApiService.setTimeout], on the world. *)
Module ApiServiceConfig.

(** [ApiService.setBaseURL] *)
Definition setBaseURL (url : string) (w : World) : World :=
  mkWorld (currentSession w) (isProcessing w) (database w) url (timeout w)
    (timers w).

(** [ApiService.setTimeout] *)
Definition setTimeout (timeout' : Z) (w : World) : World :=
  mkWorld (currentSession w) (isProcessing w) (database w) (baseURL w) timeout'
    (timers w).

End ApiServiceConfig.

(** The network is up: the connectivity probe reports a connection. *)
Definition online (h : Host) : Prop :=
  forall j, host_async h NetInfoFetch j = Ok (Some true).

(** The store accepts every insert. *)
Definition inserts_succeed (h : Host) : Prop :=
  forall R (ev : Async R) j, is_insert R ev = true -> exists r, host_async h ev j = Ok r.

(** The store rejects every insert with [e]. *)
Definition inserts_fail (h : Host) (e : JsError.t) : Prop :=
  forall R (ev : Async R) j, is_insert R ev = true -> host_async h ev j = Err e.

(** The insert statement [saveMessage] sends for a message. *)
Definition insert_of_message (sessionId : string) (message : Message.t) : Asked :=
  asked (SqlInsertMessage (Message.id message) sessionId (Message.text message)
           (if Message.isUser message then 1 else 0)
           (match Message.audioPath message with
            | Some EmptyString | None => None
            | Some p => Some p
            end)
           (Message.timestamp message)).

(** The insert statement [saveChatSession] sends for a session. *)
Definition insert_of_session (s : ChatSession.t) : Asked :=
  asked (SqlInsertSession (ChatSession.id s) (ChatSession.title s)
           (ChatSession.createdAt s) (ChatSession.updatedAt s)).

(** The remote service settles every chat request with [d]. *)
Definition remote_answers (h : Host) (d : option ChatBotResponse.t) : Prop :=
  forall url message context ts tmo j,
    host_async h (AxiosPostChatbot url message context ts tmo) j = Ok d.

(** Every chat request is rejected with [e]. *)
Definition remote_rejects (h : Host) (e : JsError.t) : Prop :=
  forall url message context ts tmo j,
    host_async h (AxiosPostChatbot url message context ts tmo) j = Err e.

(** The world with one more pending timer. *)
Definition with_timer (w : World) (text : string) : World :=
  mkWorld (currentSession w) (isProcessing w) (database w) (baseURL w)
    (timeout w) (timers w ++ [text]).

(** The store finds nothing; the network is up and the remote service
    answers with an empty body. *)
Definition sc_empty_body : Scenario :=
  mkScenario (Ok tt) (Ok []) (Ok []) (Ok []) (Ok (Some true)) (Ok None).

(** A world with the database open and an active session. *)
Definition session_world (s : ChatSession.t) : World :=
  with_session initial_world (Some s).

(** A session with one earlier user message. *)
Definition one_message_session : ChatSession.t :=
  ChatSession.mk "session_1_abc" "Chat 1/1/2025"
    [Message.mk "msg_1_abc" "first" true 1 None] 1 1.

(** The store finds nothing and rejects every insert; there is no
    connectivity. *)
Definition sc_inserts_down : Scenario :=
  mkScenario (Err (JsError.Error "SQLITE_FULL")) (Ok []) (Ok []) (Ok [])
    (Ok (Some false)) (Ok None).

(** The session [createNewSession] builds when it starts at interaction
    [i]: [title || `Chat ${now.toLocaleDateString()}`], no message, and
    both dates the same [now]. *)
Definition fresh_session (h : Host) (i : nat) (title : option string)
  : ChatSession.t :=
  let now := host_clock h (2 + i) in
  ChatSession.mk
    ("session_" ++ string_of_Z (host_clock h i) ++ "_"
     ++ String.substring 2 9 (host_random h (S i)))
    (match title with
     | Some EmptyString | None => "Chat " ++ host_localeDate h now
     | Some t => t
     end)
    [] now now.

(** The store holds one session with one message. *)
Definition sc_stored : Scenario :=
  mkScenario (Ok tt) (Ok [])
    (Ok [SessionRow.mk "session_1_abc" "Chat 1/1/2025" 1 7])
    (Ok [MessageRow.mk "msg_1_abc" "first" 1 None 1])
    (Ok (Some false)) (Ok None).

(** The session of [sc_stored], as [getChatSessions] builds it. *)
Definition stored_session : ChatSession.t :=
  ChatSession.mk "session_1_abc" "Chat 1/1/2025"
    [Message.mk "msg_1_abc" "first" true 1 None] 1 7.

(** The keywords column as [searchCompanyData] reads it:
    [JSON.parse(row.keywords || '[]')]. *)
Definition parsed_keywords (h : Host) (row : CompanyRow.t) : Res (list string) :=
  host_jsonParse h (or_default (CompanyRow.keywords row) "[]").

(** A record carries the columns of a row, with the keywords parsed. *)
Definition mirrors (h : Host) (record : DatabaseRecord.t) (row : CompanyRow.t)
  : Prop :=
  DatabaseRecord.id record = CompanyRow.id row /\
  DatabaseRecord.title record = CompanyRow.title row /\
  DatabaseRecord.content record = CompanyRow.content row /\
  DatabaseRecord.category record = CompanyRow.category row /\
  parsed_keywords h row = Ok (DatabaseRecord.keywords record) /\
  DatabaseRecord.createdAt record = CompanyRow.created_at row /\
  DatabaseRecord.updatedAt record = CompanyRow.updated_at row.

(** The store finds the sample record and a row whose keywords column is
    not JSON. *)
Definition broken_row : CompanyRow.t :=
  CompanyRow.mk 7 "Imported" "Imported by hand." "misc" (Some "support, help")
    "2024-01-01T00:00:00.000Z" "2024-01-01T00:00:00.000Z".

Definition sc_broken_row : Scenario :=
  mkScenario (Ok tt) (Ok [support_row; broken_row]) (Ok []) (Ok [])
    (Ok (Some true)) (Ok (Some remote_answer)).

(** The session [getChatSessions] builds from a row of [chat_sessions] and
    the rows of [messages] the store gives for its identifier. *)
Definition session_of_row (messages : string -> list MessageRow.t)
  (row : SessionRow.t) : ChatSession.t :=
  ChatSession.mk (SessionRow.id row) (SessionRow.title row)
    (map DatabaseService.messageOfRow (messages (SessionRow.id row)))
    (SessionRow.created_at row) (SessionRow.updated_at row).

(** The row of [messages] an insert statement writes: each column holds
    the value bound to its placeholder,
    [(id, session_id, text, is_user, audio_path, timestamp)]. *)
Definition row_of_insert (statement : Asked) : option MessageRow.t :=
  match statement with
  | asked (SqlInsertMessage id session_id text is_user audio_path timestamp) =>
      Some (MessageRow.mk id text is_user audio_path timestamp)
  | asked _ => None
  end.

(** The rows of [messages] that statements write, in the order sent. *)
Definition rows_written (statements : list Asked) : list MessageRow.t :=
  flat_map (fun statement => match row_of_insert statement with
                             | Some row => [row]
                             | None => []
                             end) statements.

(* ===================================================================== *)
(** ** The active session only grows *)
(* ===================================================================== *)

(** [s] is [s0] with messages appended. *)
Definition extension_of (s0 s : ChatSession.t) : Prop :=
  ChatSession.id s = ChatSession.id s0 /\
  ChatSession.title s = ChatSession.title s0 /\
  ChatSession.createdAt s = ChatSession.createdAt s0 /\
  exists more, ChatSession.messages s = (ChatSession.messages s0 ++ more)%list.

(** The active session is [s0] with messages appended. *)
Definition grows_from (s0 : ChatSession.t) : World -> nat -> Prop :=
  fun w _ => exists s, currentSession w = Some s /\ extension_of s0 s.

(** The calls that send a message or list the sessions. *)
Definition sends_only (a : Action) : Prop :=
  match a with
  | CallSendMessage _ _ | CallGetAllSessions => True
  | _ => False
  end.

(** A suspended task that only appends to the active session. *)
Definition task_grows (h : Host) (s0 : ChatSession.t) (t : Task) : Prop :=
  forall w i, grows_from s0 w i ->
    wp h (grows_from s0) (resume h (pending t) i)
      (fun _ w' i' => grows_from s0 w' i') w (resume_tick (pending t) i).

Definition loop_grows (h : Host) (s0 : ChatSession.t) (L : Loop) : Prop :=
  grows_from s0 (loop_world L) (loop_tick L) /\ Forall (task_grows h s0) (pool L).

(** The loop with an active session and no task. *)
Definition session_loop (s : ChatSession.t) : Loop :=
  mkLoop (session_world s) [] 0.

(** A user turn runs to its end and its timer fires; while the generation
    waits for the search, a second user turn runs to its end; then the
    generation runs to its end. *)
Definition two_turns_interleaved : list Choice :=
  Call (CallSendMessage "second" true) :: repeat (Resume 0) 8
  ++ Fire 0 :: Call (CallSendMessage "third" true) :: repeat (Resume 1) 10
  ++ repeat (Resume 0) 18.

(** The loop after a schedule from [session_loop s]. *)
Definition session_loop_after (h : Host) (s : ChatSession.t) (cs : list Choice)
  : Loop :=
  match schedule h cs (session_loop s) with
  | Some L => L
  | None => session_loop s
  end.

(* ===================================================================== *)
(** ** Regular expressions *)
(* ===================================================================== *)

(** The regular expressions of the helpers, over code units: a class of
    code units, sequence, alternative, repetition. *)
Inductive RegExp : Type :=
| Nothing
| Epsilon
| Class (p : ascii -> bool)
| Seq (r1 r2 : RegExp)
| Alt (r1 r2 : RegExp)
| Star (r : RegExp).

(** [r+] *)
Definition Plus (r : RegExp) : RegExp := Seq r (Star r).

(** Does [r] match the empty text? *)
Fixpoint nullable (r : RegExp) : bool :=
  match r with
  | Nothing => false
  | Epsilon => true
  | Class _ => false
  | Seq r1 r2 => andb (nullable r1) (nullable r2)
  | Alt r1 r2 => orb (nullable r1) (nullable r2)
  | Star _ => true
  end.

(** What is left of [r] to match after the code unit [c]. *)
Fixpoint derive (c : ascii) (r : RegExp) : RegExp :=
  match r with
  | Nothing | Epsilon => Nothing
  | Class p => if p c then Epsilon else Nothing
  | Seq r1 r2 =>
      if nullable r1 then Alt (Seq (derive c r1) r2) (derive c r2)
      else Seq (derive c r1) r2
  | Alt r1 r2 => Alt (derive c r1) (derive c r2)
  | Star r' => Seq (derive c r') (Star r')
  end.

(** [/^r$/.test(s)]: the whole text matches [r]. *)
Fixpoint test (r : RegExp) (s : string) : bool :=
  match s with
  | EmptyString => nullable r
  | String c s' => test (derive c r) s'
  end.

(** The texts a regular expression matches. *)
Inductive matches : RegExp -> string -> Prop :=
| matches_epsilon : matches Epsilon ""
| matches_class (p : ascii -> bool) (c : ascii) :
    p c = true -> matches (Class p) (String c "")
| matches_seq (r1 r2 : RegExp) (s1 s2 : string) :
    matches r1 s1 -> matches r2 s2 -> matches (Seq r1 r2) (s1 ++ s2)
| matches_left (r1 r2 : RegExp) (s : string) :
    matches r1 s -> matches (Alt r1 r2) s
| matches_right (r1 r2 : RegExp) (s : string) :
    matches r2 s -> matches (Alt r1 r2) s
| matches_none (r : RegExp) : matches (Star r) ""
| matches_more (r : RegExp) (s1 s2 : string) :
    matches r s1 -> matches (Star r) s2 -> matches (Star r) (s1 ++ s2).

(* ===================================================================== *)
(** ** The helpers ([src/utils/helpers.ts]) *)
(* ===================================================================== *)

(** The helpers work on text.  White space, for [trim] and for [\s], is
    what JavaScript counts as such among the 8-bit code units: tab, line
    feed, vertical tab, form feed, carriage return, space and no-break
    space.  A word character, for [\w], is a letter A-Z or a-z, a digit
    or the underscore.  A [number] that holds a length, a count or a
    number of milliseconds is an integer. *)

Module helpers.

Definition is_space (c : ascii) : bool :=
  let n := nat_of_ascii c in
  orb (andb (Nat.leb 9 n) (Nat.leb n 13)) (orb (Nat.eqb n 32) (Nat.eqb n 160)).

Definition is_word_char (c : ascii) : bool :=
  let n := nat_of_ascii c in
  orb (andb (Nat.leb 65 n) (Nat.leb n 90))
    (orb (andb (Nat.leb 97 n) (Nat.leb n 122))
       (orb (andb (Nat.leb 48 n) (Nat.leb n 57)) (Nat.eqb n 95))).

(** A lower-case letter, a digit or the underscore. *)
Definition is_keyword_char (c : ascii) : bool :=
  let n := nat_of_ascii c in
  orb (andb (Nat.leb 97 n) (Nat.leb n 122))
    (orb (andb (Nat.leb 48 n) (Nat.leb n 57)) (Nat.eqb n 95)).

(** [s.trimStart()] *)
Fixpoint trimStart (s : string) : string :=
  match s with
  | EmptyString => EmptyString
  | String c s' => if is_space c then trimStart s' else s
  end.

(** [s.trimEnd()] *)
Fixpoint trimEnd (s : string) : string :=
  match s with
  | EmptyString => EmptyString
  | String c s' =>
      match trimEnd s' with
      | EmptyString => if is_space c then EmptyString else String c EmptyString
      | t => String c t
      end
  end.

(** [s.trim()] *)
Definition trim (s : string) : string := trimEnd (trimStart s).

(** Every code unit of [s] satisfies [p]. *)
Fixpoint all_units (p : ascii -> bool) (s : string) : bool :=
  match s with
  | EmptyString => true
  | String c s' => andb (p c) (all_units p s')
  end.

(** [s.replace(/[...]/g, '')]: the code units in the class are removed. *)
Fixpoint remove (class : ascii -> bool) (s : string) : string :=
  match s with
  | EmptyString => EmptyString
  | String c s' => if class c then remove class s' else String c (remove class s')
  end.

(** [s.split(sep)] for a separator of one code unit. *)
Fixpoint split (sep : ascii) (s : string) : list string :=
  match s with
  | EmptyString => [EmptyString]
  | String c s' =>
      if Ascii.eqb c sep then EmptyString :: split sep s'
      else match split sep s' with
           | word :: words => String c word :: words
           | [] => [String c EmptyString]
           end
  end.

(** [s.split(/\s+/)]: the pieces between the runs of white space;
    [afterSpace] says that the code unit before [s] was white space. *)
Fixpoint splitSpaces (afterSpace : bool) (s : string) : list string :=
  match s with
  | EmptyString => [EmptyString]
  | String c s' =>
      if is_space c
      then if afterSpace then splitSpaces true s'
           else EmptyString :: splitSpaces true s'
      else match splitSpaces false s' with
           | word :: words => String c word :: words
           | [] => [String c EmptyString]
           end
  end.

(** [[...new Set(words)]]: the first occurrence of each word, in order. *)
Fixpoint unique (seen : list string) (words : list string) : list string :=
  match words with
  | [] => []
  | word :: rest =>
      if existsb (String.eqb word) seen then unique seen rest
      else word :: unique (word :: seen) rest
  end.

(** [formatTimestamp] *)
Definition formatTimestamp (date : Z) : Prog string :=
  now <- perform NewDate ;;
  let diffInMs := now - date in
  let diffInMinutes := diffInMs / (1000 * 60) in
  let diffInHours := diffInMs / (1000 * 60 * 60) in
  let diffInDays := diffInMs / (1000 * 60 * 60 * 24) in
  if diffInMinutes <? 1 then Ret "Just now"
  else if diffInMinutes <? 60 then Ret (string_of_Z diffInMinutes ++ "m ago")
  else if diffInHours <? 24 then Ret (string_of_Z diffInHours ++ "h ago")
  else if diffInDays =? 1 then Ret "Yesterday"
  else if diffInDays <? 7 then Ret (string_of_Z diffInDays ++ " days ago")
  else perform (ToLocaleDateString date).

(** [generateSessionTitle] *)
Definition generateSessionTitle (messages : list Message.t) : Prog string :=
  if Nat.eqb (length messages) 0 then Ret "New Chat"
  else
    match find Message.isUser messages with
    | Some firstUserMessage =>
        let words := firstn 5 (split " " (Message.text firstUserMessage)) in
        Ret (String.concat " " words
             ++ (if Nat.ltb 5 (length (split " " (Message.text firstUserMessage)))
                 then "..." else ""))
    | None =>
        now <- perform NewDate ;;
        d <- perform (ToLocaleDateString now) ;;
        Ret ("Chat " ++ d)
    end.

(** [truncateText]; [substring] takes a negative end for 0. *)
Definition truncateText (text : string) (maxLength : Z) : string :=
  if Z.of_nat (String.length text) <=? maxLength then text
  else String.substring 0 (Z.to_nat (maxLength - 3)) text ++ "...".

Record Validation : Type := mkValidation {
  isValid : bool;
  error : option string
}.

(** [validateMessage] *)
Definition validateMessage (text : string) : Validation :=
  if orb (String.eqb text "") (Nat.eqb (String.length (trim text)) 0)
  then mkValidation false (Some "Message cannot be empty")
  else if Nat.ltb 1000 (String.length text)
       then mkValidation false (Some "Message is too long (max 1000 characters)")
       else mkValidation true None.

(** [searchMessages] *)
Definition searchMessages (messages : list Message.t) (query : string)
  : list Message.t :=
  if String.eqb (trim query) "" then messages
  else
    let lowerQuery := toLowerCase query in
    filter (fun message => includes (toLowerCase (Message.text message)) lowerQuery)
      messages.

(** [grouped[dateKey].push(message)], with [grouped[dateKey] = []] first
    when the key is new: the keys of the object stay in insertion order. *)
Fixpoint push (dateKey : string) (message : Message.t)
  (grouped : list (string * list Message.t)) : list (string * list Message.t) :=
  match grouped with
  | [] => [(dateKey, [message])]
  | (key, group) :: rest =>
      if String.eqb key dateKey then (key, (group ++ [message])%list) :: rest
      else (key, group) :: push dateKey message rest
  end.

(** [groupMessagesByDate]; [toDateString] is the method of [Date]. *)
Definition groupMessagesByDate (toDateString : Z -> string)
  (messages : list Message.t) : list (string * list Message.t) :=
  fold_left (fun grouped message =>
               push (toDateString (Message.timestamp message)) message grouped)
    messages [].

(** [grouped[dateKey]] *)
Fixpoint lookup (dateKey : string) (grouped : list (string * list Message.t))
  : option (list Message.t) :=
  match grouped with
  | [] => None
  | (key, group) :: rest =>
      if String.eqb key dateKey then Some group else lookup dateKey rest
  end.

Definition commonWords : list string :=
  ["the"; "a"; "an"; "and"; "or"; "but"; "in"; "on"; "at"; "to"; "for";
   "of"; "with"; "by"; "from"; "up"; "about"; "into"; "through"; "during";
   "before"; "after"; "above"; "below"; "between"; "among"; "within";
   "is"; "was"; "are"; "were"; "be"; "been"; "being"; "have"; "has"; "had";
   "do"; "does"; "did"; "will"; "would"; "could"; "should"; "may"; "might";
   "must"; "can"; "shall"; "this"; "that"; "these"; "those"; "i"; "you";
   "he"; "she"; "it"; "we"; "they"; "me"; "him"; "her"; "us"; "them"].

(** [extractKeywords] *)
Definition extractKeywords (text : string) : list string :=
  let words :=
    filter (fun word => andb (Nat.ltb 2 (String.length word))
                          (negb (existsb (String.eqb word) commonWords)))
      (splitSpaces false
         (remove (fun c => negb (orb (is_word_char c) (is_space c)))
            (toLowerCase text))) in
  unique [] words.

(** One call of the function [throttle] returns: the new [lastCall], and
    whether [func] is called. *)
Definition throttled (delay lastCall now : Z) : Z * bool :=
  if delay <=? now - lastCall then (now, true) else (lastCall, false).

(** The calls of a throttled function at the clock readings [nows]: the
    readings at which [func] is called. *)
Fixpoint throttle_run (delay lastCall : Z) (nows : list Z) : list Z :=
  match nows with
  | [] => []
  | now :: rest =>
      let (lastCall', called) := throttled delay lastCall now in
      if called then now :: throttle_run delay lastCall' rest
      else throttle_run delay lastCall' rest
  end.

(** [throttle(func, delay)]: [lastCall] starts at 0. *)
Definition throttle (delay : Z) (nows : list Z) : list Z :=
  throttle_run delay 0 nows.

(** [sanitizeInput] *)
Definition sanitizeInput (input : string) : string :=
  String.substring 0 1000
    (remove (fun c => existsb (Ascii.eqb c)
                        ["<"%char; ">"%char; ascii_of_nat 34; "'"%char])
       (trim input)).

(** [[^\s@]]: any code unit but white space and the at sign. *)
Definition notSpaceNorAt (c : ascii) : bool :=
  negb (orb (is_space c) (Ascii.eqb c "@")).

(** [/^[^\s@]+@[^\s@]+\.[^\s@]+$/] *)
Definition emailRegex : RegExp :=
  Seq (Plus (Class notSpaceNorAt))
    (Seq (Class (Ascii.eqb "@"))
       (Seq (Plus (Class notSpaceNorAt))
          (Seq (Class (Ascii.eqb "."))
             (Plus (Class notSpaceNorAt))))).

(** [isValidEmail] *)
Definition isValidEmail (email : string) : bool := test emailRegex email.

End helpers.

(* ===================================================================== *)
(** ** ChatScreen ([src/screens/ChatScreen.tsx]): sending a message *)
(* ===================================================================== *)

(** The part of the component that sends the text of the input field:
    the state it reads and sets, [updateMessages] and [sendMessage], and
    the branch of [initializeChat] that opens a stored session.  A
    handler reads and sets the state of the component and calls the
    services; it settles with a value or a thrown error and leaves a
    state.  [Alert.alert] adds to [alerts]. *)
Module ChatScreen.

(** What a state variable of the component holds is a reference.
    [Own v]: an object no one else writes to, such as the empty array the
    list starts with, or the copy [[...session.messages]] that
    [updateMessages] takes.  [Active]: the object the service has as its
    active session and, for the list, the array of messages of that
    object, as [setCurrentSession(session)] and
    [setMessages(session.messages)] store them, without a copy: what the
    service pushes to that array or sets in that object is seen through
    the state. *)
Inductive Ref (A : Type) : Type :=
| Own (v : A)
| Active.

Arguments Own {A} v.
Arguments Active {A}.

Record State : Type := mkState {
  messages : Ref (list Message.t);
  inputText : string;
  isLoading : bool;
  currentSession : option (Ref ChatSession.t);
  alerts : list (string * option string)
}.


Definition Handler (A : Type) : Type := State -> Prog (Res A * State).

Definition andThen {A B : Type} (m : Handler A) (f : A -> Handler B) : Handler B :=
  fun st =>
    r <- m st ;;
    match r with
    | (Ok a, st') => f a st'
    | (Err e, st') => Ret (Err e, st')
    end.

(** [try { m } catch (error) { hd error }] *)
Definition tryCatch {A : Type} (m : Handler A) (hd : JsError.t -> Handler A)
  : Handler A :=
  fun st =>
    r <- m st ;;
    match r with
    | (Ok a, st') => Ret (Ok a, st')
    | (Err e, st') => hd e st'
    end.

(** [try { m } finally { f }] *)
Definition tryFinally {A : Type} (m : Handler A) (f : Handler unit) : Handler A :=
  fun st =>
    r <- m st ;;
    r' <- f (snd r) ;;
    match r' with
    | (Ok _, st'') => Ret (fst r, st'')
    | (Err e, st'') => Ret (Err e, st'')
    end.

(** [await p] for a method [p] of the services. *)
Definition awaitCall {A : Type} (p : Prog A) : Handler A :=
  fun st =>
    try_catch (a <- await p ;; Ret (Ok a, st)) (fun e => Ret (Err e, st)).

Definition setMessages (l : Ref (list Message.t)) : Handler unit :=
  fun st => Ret (Ok tt, mkState l (inputText st) (isLoading st) (currentSession st)
                          (alerts st)).

Definition setInputText (text : string) : Handler unit :=
  fun st => Ret (Ok tt, mkState (messages st) text (isLoading st) (currentSession st)
                          (alerts st)).

Definition setIsLoading (b : bool) : Handler unit :=
  fun st => Ret (Ok tt, mkState (messages st) (inputText st) b (currentSession st)
                          (alerts st)).

Definition setCurrentSession (s : option (Ref ChatSession.t)) : Handler unit :=
  fun st => Ret (Ok tt, mkState (messages st) (inputText st) (isLoading st) s
                          (alerts st)).

(** [Alert.alert(title, message)] *)
Definition alert (title : string) (message : option string) : Handler unit :=
  fun st => Ret (Ok tt, mkState (messages st) (inputText st) (isLoading st)
                          (currentSession st) (alerts st ++ [(title, message)])).

(** [updateMessages]: the list becomes a copy of the messages of the
    active session, [[...session.messages]]; the session state refers to
    the active session itself. *)
Definition updateMessages : Handler unit :=
  fun st =>
    session <- ChatBotService.getCurrentSession ;;
    match session with
    | Some s =>
        andThen (setMessages (Own (ChatSession.messages s)))
          (fun _ => setCurrentSession (Some Active)) st
    | None => Ret (Ok tt, st)
    end.

(** [initializeChat], the branch for a [sessionId]:
    [const session = await ChatBotService.loadSession(sessionId);
     if (session) { setCurrentSession(session); setMessages(session.messages); }].
    The session [loadSession] returns is the object it has made the
    active session. *)
Definition openSession (sessionId : string) : Handler unit :=
  andThen (awaitCall (ChatBotService.loadSession sessionId))
    (fun session =>
       match session with
       | Some _ =>
           andThen (setCurrentSession (Some Active)) (fun _ => setMessages Active)
       | None => fun st => Ret (Ok tt, st)
       end).

(** [sendMessage] *)
Definition sendMessage : Handler unit :=
  fun st =>
    let validation := helpers.validateMessage (inputText st) in
    if negb (helpers.isValid validation)
    then alert "Invalid Message" (helpers.error validation) st
    else
      tryFinally
        (tryCatch
           (andThen (setIsLoading true) (fun _ =>
            andThen (awaitCall (ChatBotService.sendMessage
                                  (helpers.trim (inputText st)) true)) (fun _ =>
            andThen (setInputText "") (fun _ =>
            updateMessages))))
           (fun error =>
              alert "Error" (Some "Failed to send message. Please try again.")))
        (setIsLoading false) st.

End ChatScreen.

(** The messages the list state of the screen holds, for the state [w]
    of the service. *)
Definition shown (st : ChatScreen.State) (w : World) : list Message.t :=
  match ChatScreen.messages st with
  | ChatScreen.Own l => l
  | ChatScreen.Active =>
      match currentSession w with
      | Some s => ChatSession.messages s
      | None => []
      end
  end.

(** The screen after a send that succeeded, for the active session the
    service has then; and after one that failed. *)
Definition sent_state (st : ChatScreen.State) (active : option ChatSession.t)
  : ChatScreen.State :=
  match active with
  | Some s =>
      ChatScreen.mkState (ChatScreen.Own (ChatSession.messages s)) "" false
        (Some ChatScreen.Active) (ChatScreen.alerts st)
  | None =>
      ChatScreen.mkState (ChatScreen.messages st) "" false
        (ChatScreen.currentSession st) (ChatScreen.alerts st)
  end.

Definition failed_state (st : ChatScreen.State) : ChatScreen.State :=
  ChatScreen.mkState (ChatScreen.messages st) (ChatScreen.inputText st) false
    (ChatScreen.currentSession st)
    (ChatScreen.alerts st
     ++ [("Error", Some "Failed to send message. Please try again.")]).

Definition refused_state (st : ChatScreen.State) : ChatScreen.State :=
  ChatScreen.mkState (ChatScreen.messages st) (ChatScreen.inputText st)
    (ChatScreen.isLoading st) (ChatScreen.currentSession st)
    (ChatScreen.alerts st
     ++ [("Invalid Message",
          helpers.error (helpers.validateMessage (ChatScreen.inputText st)))]).

(** A screen with a text in its input field. *)
Definition typing (text : string) : ChatScreen.State :=
  ChatScreen.mkState (ChatScreen.Own []) text false None [].

(** A screen that has opened a session of the store, with a text in its
    input field: list and session state refer to the active session. *)
Definition opened (text : string) : ChatScreen.State :=
  ChatScreen.mkState ChatScreen.Active text false (Some ChatScreen.Active) [].

(** Readings of the clock that are at least [delay] apart, the first at
    least [delay] after [last]. *)
Fixpoint spaced (delay last : Z) (readings : list Z) : Prop :=
  match readings with
  | [] => True
  | t :: rest => delay <= t - last /\ spaced delay t rest
  end.

(* ===================================================================== *)
(** * Properties *)
(* ===================================================================== *)

(* ===================================================================== *)
(** ** Reasoning about programs *)
(* ===================================================================== *)

(** *** Programs that never perform an effect of a given kind *)

Section Avoids.
Variable bad : SyncClass.

Lemma avoids_bind {A B : Type} (p : Prog A) (f : A -> Prog B) :
  avoids bad p -> (forall a, avoids bad (f a)) -> avoids bad (bind p f).
Proof.
  intros Hp Hf. induction p as [a|e|R e k IH|R e k IH|k IH]; simpl in *; auto.
  - destruct Hp as [He Hk]. split; auto.
Qed.

Lemma avoids_try_catch {A : Type} (p : Prog A) (hd : JsError.t -> Prog A) :
  avoids bad p -> (forall e, avoids bad (hd e)) -> avoids bad (try_catch p hd).
Proof.
  intros Hp Hh. induction p as [a|e|R e k IH|R e k IH|k IH]; simpl in *; auto.
  - destruct Hp as [He Hk]. split; auto.
Qed.

Lemma avoids_try_finally {A : Type} (p : Prog A) (f : Prog unit) :
  avoids bad p -> avoids bad f -> avoids bad (try_finally p f).
Proof.
  intros Hp Hf. induction p as [a|e|R e k IH|R e k IH|k IH]; simpl in *; auto.
  - apply avoids_bind; simpl; auto.
  - apply avoids_bind; simpl; auto.
  - destruct Hp as [He Hk]. split; auto.
Qed.

Lemma avoids_await {A : Type} (p : Prog A) :
  avoids bad p -> avoids bad (await p).
Proof.
  intros Hp. induction p as [a|e|R e k IH|R e k IH|k IH]; simpl in *; auto.
  - destruct Hp as [He Hk]. split; auto.
Qed.

Lemma avoids_wait {R : Type} (e : Async R) : avoids bad (wait e).
Proof. intros [a|x]; exact I. Qed.

Lemma avoids_perform {R : Type} (e : Sync R) :
  bad _ e = false -> avoids bad (perform e).
Proof. intros He. split; [exact He | intros r; exact I]. Qed.

Lemma avoids_forEach {X : Type} (l : list X) (body : X -> Prog unit) :
  (forall x, avoids bad (body x)) -> avoids bad (forEach l body).
Proof.
  intros Hb. induction l as [|x l IH]; simpl; auto.
  apply avoids_bind; auto.
Qed.

End Avoids.

(** *** The program logic for tasks of the loop *)

Section Logic.
Variable h : Host.
Variable Inv : World -> nat -> Prop.

Lemma wp_mono {A : Type} (p : Prog A) (Q Q' : Res A -> World -> nat -> Prop) :
  (forall r w i, Q r w i -> Q' r w i) ->
  forall w i, wp h Inv p Q w i -> wp h Inv p Q' w i.
Proof.
  intros HQ. induction p as [a|e|R e k IH|R e k IH|k IH]; simpl; intros w i H; auto.
  - destruct H as [H0 H1]. split; auto.
  - destruct H as [H0 H1]. split; auto.
Qed.

Lemma wp_bind {A B : Type} (p : Prog A) (f : A -> Prog B)
  (Q : Res B -> World -> nat -> Prop) :
  forall w i,
    wp h Inv p (fun r w' i' => match r with
                         | Ok a => wp h Inv (f a) Q w' i'
                         | Err e => Q (Err e) w' i'
                         end) w i ->
    wp h Inv (bind p f) Q w i.
Proof.
  induction p as [a|e|R e k IH|R e k IH|k IH]; simpl; intros w i H; auto.
  - destruct H as [H0 H1]. split; auto.
  - destruct H as [H0 H1]. split; auto.
Qed.

Lemma wp_try_catch {A : Type} (p : Prog A) (hd : JsError.t -> Prog A)
  (Q : Res A -> World -> nat -> Prop) :
  forall w i,
    wp h Inv p (fun r w' i' => match r with
                         | Ok a => Q (Ok a) w' i'
                         | Err e => wp h Inv (hd e) Q w' i'
                         end) w i ->
    wp h Inv (try_catch p hd) Q w i.
Proof.
  induction p as [a|e|R e k IH|R e k IH|k IH]; simpl; intros w i H; auto.
  - destruct H as [H0 H1]. split; auto.
  - destruct H as [H0 H1]. split; auto.
Qed.

Lemma wp_try_finally {A : Type} (p : Prog A) (f : Prog unit)
  (Q : Res A -> World -> nat -> Prop) :
  forall w i,
    wp h Inv p (fun r w' i' =>
            wp h Inv f (fun r' w'' i'' => match r' with
                                    | Ok _ => Q r w'' i''
                                    | Err e' => Q (Err e') w'' i''
                                    end) w' i') w i ->
    wp h Inv (try_finally p f) Q w i.
Proof.
  induction p as [a|e|R e k IH|R e k IH|k IH]; simpl; intros w i H; auto.
  - apply wp_bind. exact H.
  - apply wp_bind. exact H.
  - destruct H as [H0 H1]. split; auto.
  - destruct H as [H0 H1]. split; auto.
Qed.

Lemma wp_await {A : Type} (p : Prog A) (Q : Res A -> World -> nat -> Prop) :
  forall w i,
    wp h Inv p (fun r w' i' => Inv w' i' /\ forall w'' i'', Inv w'' i'' -> Q r w'' i'') w i ->
    wp h Inv (await p) Q w i.
Proof.
  induction p as [a|e|R e k IH|R e k IH|k IH]; simpl; intros w i H; auto.
  - destruct H as [H0 H1]. split; auto.
  - destruct H as [H0 H1]. split; auto.
Qed.

(** A turn of a task that keeps to the discipline: it settles with [Q],
    or it is suspended with [Inv] and goes on keeping to it. *)
Lemma wp_slice (p : Prog unit) (Q : Res unit -> World -> nat -> Prop) :
  forall w i,
    wp h Inv p Q w i ->
    match slice h p w i with
    | (Finished r, w', i') => Q r w' i'
    | (Suspended pd, w', i') =>
        Inv w' i' /\
        forall w'' i'', Inv w'' i'' ->
          wp h Inv (resume h pd i'') Q w'' (resume_tick pd i'')
    end.
Proof.
  induction p as [a|e|R e k IH|R e k IH|k IH]; simpl; intros w i H.
  - exact H.
  - exact H.
  - apply IH. exact H.
  - destruct H as [H0 H1]. split; [exact H0|].
    intros w'' i'' Hw. simpl. apply H1. exact Hw.
  - exact H.
Qed.

(** A run with no other task in between ends with [Q]. *)
Lemma wp_run {A : Type} (p : Prog A) (Q : Res A -> World -> nat -> Prop) :
  forall w i,
    wp h Inv p Q w i ->
    Q (result (run h p w i)) (world (run h p w i)) (tick (run h p w i)).
Proof.
  induction p as [a|e|R e k IH|R e k IH|k IH]; simpl; intros w i H; auto.
  - destruct H as [H0 H1]. auto.
  - destruct H as [H0 H1]. auto.
Qed.

(** A program that avoids the effects [Inv] is sensitive to keeps [Inv]
    all along. *)
Lemma wp_avoids (bad : SyncClass) {A : Type} (p : Prog A)
  (Q : Res A -> World -> nat -> Prop) :
  (forall w i, Inv w i -> Inv w (S i)) ->
  (forall R (e : Sync R) w i,
      bad R e = false -> Inv w i -> Inv (snd (do_sync h e w i)) i) ->
  avoids bad p ->
  (forall r w i, Inv w i -> Q r w i) ->
  forall w i, Inv w i -> wp h Inv p Q w i.
Proof.
  intros Htick Hsync Hp HQ.
  induction p as [a|e|R e k IH|R e k IH|k IH]; simpl in *; intros w i Hw; auto.
  destruct Hp as [He Hk]. apply IH; auto.
Qed.

End Logic.

(** *** What the methods never do *)

Ltac avoids_step :=
  match goal with
  | |- avoids _ (bind _ _) => apply avoids_bind
  | |- avoids _ (try_catch _ _) => apply avoids_try_catch
  | |- avoids _ (try_finally _ _) => apply avoids_try_finally
  | |- avoids _ (await _) => apply avoids_await
  | |- avoids _ (wait _) => apply avoids_wait
  | |- avoids _ (perform _) => apply avoids_perform
  | |- avoids _ (forEach _ _) => apply avoids_forEach
  | |- avoids _ (Ret _) => exact I
  | |- avoids _ (Throw _) => exact I
  | |- avoids _ (match ?x with _ => _ end) => destruct x
  | |- avoids _ (if ?x then _ else _) => destruct x
  | |- forall _, _ => intro
  end.

Section ReadOnly.
Variable bad : SyncClass.

(** [bad] is a class of writes: reading a field or asking the host is not
    in it. *)
Hypothesis bad_writes :
  forall R (e : Sync R), bad R e = true ->
    writes_flag R e = true \/ writes_session R e = true \/ sets_timer R e = true.

Lemma bad_read {R : Type} (e : Sync R) :
  writes_flag R e = false -> writes_session R e = false ->
  sets_timer R e = false -> bad R e = false.
Proof.
  intros H1 H2 H3. destruct (bad R e) eqn:Hb; [|reflexivity].
  destruct (bad_writes R e Hb) as [H|[H|H]]; congruence.
Qed.

Ltac read_only :=
  repeat (first [ assumption
                | match goal with H : forall _, avoids _ _ |- _ => apply H end
                | avoids_step ]);
  try (apply bad_read; reflexivity).

Lemma checkNetworkConnection_reads :
  avoids bad ApiService.checkNetworkConnection.
Proof. unfold ApiService.checkNetworkConnection. read_only. Qed.

Lemma getChatbotResponse_reads message context :
  avoids bad (ApiService.getChatbotResponse message context).
Proof.
  unfold ApiService.getChatbotResponse.
  pose proof checkNetworkConnection_reads. read_only.
Qed.

Lemma requireDatabase_reads : avoids bad DatabaseService.requireDatabase.
Proof. unfold DatabaseService.requireDatabase. read_only. Qed.

Lemma recordsOfRows_reads rows : avoids bad (DatabaseService.recordsOfRows rows).
Proof.
  induction rows as [|row rest IH]; cbn [DatabaseService.recordsOfRows]; [exact I|].
  unfold DatabaseService.jsonParse. read_only.
Qed.

Lemma db_searchCompanyData_reads query :
  avoids bad (DatabaseService.searchCompanyData query).
Proof.
  unfold DatabaseService.searchCompanyData.
  pose proof requireDatabase_reads. read_only. apply recordsOfRows_reads.
Qed.

Lemma saveMessage_reads sessionId message :
  avoids bad (DatabaseService.saveMessage sessionId message).
Proof.
  unfold DatabaseService.saveMessage.
  pose proof requireDatabase_reads. read_only.
Qed.

Lemma saveChatSession_reads session :
  avoids bad (DatabaseService.saveChatSession session).
Proof.
  unfold DatabaseService.saveChatSession.
  pose proof requireDatabase_reads. read_only. apply saveMessage_reads.
Qed.

Lemma getSessionMessages_reads sessionId :
  avoids bad (DatabaseService.getSessionMessages sessionId).
Proof.
  unfold DatabaseService.getSessionMessages.
  pose proof requireDatabase_reads. read_only.
Qed.

Lemma sessionsOfRows_reads rows : avoids bad (DatabaseService.sessionsOfRows rows).
Proof.
  induction rows as [|row rest IH]; cbn [DatabaseService.sessionsOfRows]; [exact I|].
  pose proof getSessionMessages_reads. read_only.
Qed.

Lemma getChatSessions_reads : avoids bad DatabaseService.getChatSessions.
Proof.
  unfold DatabaseService.getChatSessions.
  pose proof requireDatabase_reads. read_only. apply sessionsOfRows_reads.
Qed.

Lemma resolveResponse_reads userMessage :
  avoids bad (ChatBotService.resolveResponse userMessage).
Proof.
  unfold ChatBotService.resolveResponse. read_only.
  - apply db_searchCompanyData_reads.
  - apply getChatbotResponse_reads.
Qed.

End ReadOnly.

(** *** Equations of [run] *)

Section RunEquations.
Variable h : Host.

Lemma run_bind {A B : Type} (p : Prog A) (f : A -> Prog B) :
  forall w i,
    run h (bind p f) w i =
    match result (run h p w i) with
    | Ok a => run h (f a) (world (run h p w i)) (tick (run h p w i))
    | Err e => mkOutcome (Err e) (world (run h p w i)) (tick (run h p w i))
    end.
Proof.
  induction p as [a|e|R e k IH|R e k IH|k IH]; simpl; intros w i; auto.
Qed.

Lemma run_try_catch {A : Type} (p : Prog A) (hd : JsError.t -> Prog A) :
  forall w i,
    run h (try_catch p hd) w i =
    match result (run h p w i) with
    | Ok a => mkOutcome (Ok a) (world (run h p w i)) (tick (run h p w i))
    | Err e => run h (hd e) (world (run h p w i)) (tick (run h p w i))
    end.
Proof.
  induction p as [a|e|R e k IH|R e k IH|k IH]; simpl; intros w i; auto.
Qed.

Lemma run_try_finally {A : Type} (p : Prog A) (f : Prog unit) :
  forall w i,
    run h (try_finally p f) w i =
    let o := run h p w i in
    let o' := run h f (world o) (tick o) in
    match result o' with
    | Ok _ => mkOutcome (result o) (world o') (tick o')
    | Err e' => mkOutcome (Err e') (world o') (tick o')
    end.
Proof.
  induction p as [a|e|R e k IH|R e k IH|k IH]; simpl; intros w i; auto.
  - rewrite run_bind. destruct (result (run h f w i)); reflexivity.
  - rewrite run_bind. destruct (result (run h f w i)); reflexivity.
Qed.

Lemma run_await {A : Type} (p : Prog A) :
  forall w i, run h (await p) w i = run h p w i.
Proof.
  induction p as [a|e|R e k IH|R e k IH|k IH]; simpl; intros w i; auto.
Qed.

(** A run changes nothing that the program never writes. *)
Lemma run_avoids_flag {A : Type} (p : Prog A) :
  avoids writes_flag p ->
  forall w i, isProcessing (world (run h p w i)) = isProcessing w.
Proof.
  induction p as [a|e|R e k IH|R e k IH|k IH]; simpl; intros Hp w i; auto.
  destruct Hp as [He Hk]. rewrite IH by auto.
  destruct e; simpl in *; try reflexivity; discriminate.
Qed.

Lemma run_avoids_session {A : Type} (p : Prog A) :
  avoids writes_session p ->
  forall w i, currentSession (world (run h p w i)) = currentSession w.
Proof.
  induction p as [a|e|R e k IH|R e k IH|k IH]; simpl; intros Hp w i; auto.
  destruct Hp as [He Hk]. rewrite IH by auto.
  destruct e; simpl in *; try reflexivity; discriminate.
Qed.

Lemma run_avoids_timer {A : Type} (p : Prog A) :
  avoids sets_timer p ->
  forall w i, timers (world (run h p w i)) = timers w.
Proof.
  induction p as [a|e|R e k IH|R e k IH|k IH]; simpl; intros Hp w i; auto.
  destruct Hp as [He Hk]. rewrite IH by auto.
  destruct e; simpl in *; try reflexivity; discriminate.
Qed.

End RunEquations.

(* ===================================================================== *)
(** ** The offline generator *)
(* ===================================================================== *)

Example mock_hi :
  ApiService.generateMockResponse "hi" = ApiService.greeting.
Proof. reflexivity. Qed.

Example mock_this :
  ApiService.generateMockResponse "What is this?" = ApiService.greeting.
Proof. reflexivity. Qed.

Example mock_help :
  ApiService.generateMockResponse "I need HELP" = ApiService.help.
Proof. reflexivity. Qed.

Example mock_echo :
  ChatBotResponse.confidence (ApiService.generateMockResponse "refund") = (5 # 10)%Q.
Proof. reflexivity. Qed.

(** The four branches of [generateMockResponse], in their order. *)
Lemma generateMockResponse_branches (message : string) :
  let l := toLowerCase message in
  (orb (includes l "hello") (includes l "hi") = true ->
   ApiService.generateMockResponse message = ApiService.greeting) /\
  (orb (includes l "hello") (includes l "hi") = false ->
   includes l "help" = true ->
   ApiService.generateMockResponse message = ApiService.help) /\
  (orb (includes l "hello") (includes l "hi") = false ->
   includes l "help" = false -> includes l "thank" = true ->
   ApiService.generateMockResponse message = ApiService.thanks) /\
  (orb (includes l "hello") (includes l "hi") = false ->
   includes l "help" = false -> includes l "thank" = false ->
   ApiService.generateMockResponse message = ApiService.echo message).
Proof.
  unfold ApiService.generateMockResponse. cbv zeta.
  repeat split; intros; repeat match goal with H : _ = _ |- _ => rewrite H end;
    reflexivity.
Qed.

(** C10.  Every message whose lower-cased text contains "hi" anywhere,
    inside another word or next to "help" or "thank", gets the greeting
    reply: the test for "hi" comes first. *)
Theorem hi_substring_greets (message : string) :
  includes (toLowerCase message) "hi" = true ->
  ApiService.generateMockResponse message = ApiService.greeting.
Proof.
  intros Hhi.
  apply (proj1 (generateMockResponse_branches message)).
  rewrite Hhi. apply orb_true_r.
Qed.

Lemma hi_substring_greets_witness :
  includes (toLowerCase "Which one? This! Thanks for the help") "hi" = true /\
  includes (toLowerCase "Which one? This! Thanks for the help") "help" = true /\
  includes (toLowerCase "Which one? This! Thanks for the help") "thank" = true /\
  ApiService.generateMockResponse "Which one? This! Thanks for the help"
  = ApiService.greeting.
Proof.
  split; [reflexivity|]. split; [reflexivity|]. split; [reflexivity|].
  apply (hi_substring_greets "Which one? This! Thanks for the help").
  reflexivity.
Defined.

(* ===================================================================== *)
(** ** The remote calls *)
(* ===================================================================== *)

Lemma handleApiError_fails {D : Type} (error : JsError.t) :
  ApiResponse.success (@ApiService.handleApiError D error) = false /\
  exists e, ApiResponse.error (@ApiService.handleApiError D error) = Some e /\ e <> "".
Proof.
  unfold ApiService.handleApiError.
  destruct (JsError.response error) as [r|]; [|destruct (JsError.request error)];
    simpl; (split; [reflexivity|]); eexists; (split; [reflexivity|]); discriminate.
Qed.

(** The common shape of the remote calls: the connectivity check, then the
    request [body], all inside [try]/[catch] with [handleApiError]. *)
Lemma guarded_request_total {D : Type} (body : Prog (ApiResponse.t D)) :
  (forall h w i,
      (exists resp, result (run h body w i) = Ok resp /\
                    ApiResponse.success resp = true /\
                    (requests_fail h -> False)) \/
      (exists e, result (run h body w i) = Err e)) ->
  api_total
    (try_catch
       (isConnected <- await ApiService.checkNetworkConnection ;;
        if negb isConnected then Ret ApiService.noConnection else body)
       (fun error => Ret (ApiService.handleApiError error))).
Proof.
  intros Hbody h w i.
  rewrite run_try_catch, run_bind, run_await.
  unfold ApiService.checkNetworkConnection, wait. simpl.
  assert (Hfail : forall (e : JsError.t),
             exists resp : ApiResponse.t D,
               Ok (@ApiService.handleApiError D e) = Ok resp /\
               (ApiResponse.success resp = false ->
                exists e0, ApiResponse.error resp = Some e0 /\ e0 <> "") /\
               (offline h -> ApiResponse.success resp = false) /\
               (requests_fail h -> ApiResponse.success resp = false)).
  { intros e. eexists. split; [reflexivity|].
    destruct (@handleApiError_fails D e) as [Hs He]. auto. }
  assert (Hnoconn :
             exists resp : ApiResponse.t D,
               Ok (@ApiService.noConnection D) = Ok resp /\
               (ApiResponse.success resp = false ->
                exists e0, ApiResponse.error resp = Some e0 /\ e0 <> "") /\
               (offline h -> ApiResponse.success resp = false) /\
               (requests_fail h -> ApiResponse.success resp = false)).
  { eexists. split; [reflexivity|]. simpl.
    repeat split; auto. intros _. eexists. split; [reflexivity|discriminate]. }
  destruct (host_async h NetInfoFetch i) as [[[|]|]|e] eqn:Hnet; simpl.
  - destruct (Hbody h w (S i)) as [(resp & Hr & Hs & Hrf)|(e & Hr)]; rewrite Hr; simpl.
    + exists resp. split; [reflexivity|]. rewrite Hs.
      split; [discriminate|]. split.
      * intros Hoff. exfalso. apply (Hoff i). exact Hnet.
      * intros Hrq. exfalso. auto.
    + apply Hfail.
  - apply Hnoconn.
  - apply Hnoconn.
  - apply Hfail.
Qed.

Ltac request_body :=
  let h := fresh "h" in let w := fresh "w" in let i := fresh "i" in
  intros h w i; unfold wait, perform; simpl;
  match goal with
  | |- context [host_async h ?ev ?j] =>
      let Hev := fresh "Hev" in
      destruct (host_async h ev j) as [d|e] eqn:Hev; simpl;
      [ left; eexists; split; [reflexivity|]; split; [reflexivity|];
        let Hrq := fresh "Hrq" in
        intros Hrq; destruct (Hrq _ ev j eq_refl) as [e' He']; congruence
      | right; eexists; reflexivity ]
  end.


(* ===================================================================== *)
(** ** The session manager, one call at a time *)
(* ===================================================================== *)

Section Sequential.
Variable h : Host.

Lemma appendMessage_run (w : World) (i : nat) (text : string) (isUser : bool)
  (s : ChatSession.t) :
  currentSession w = Some s ->
  run h (ChatBotService.appendMessage text isUser) w i =
  mkOutcome (Ok (message_at h i text isUser))
    (with_session w (Some (appended h i text isUser s))) (8 + i).
Proof.
  intros Hs. unfold ChatBotService.appendMessage, ChatBotService.freshId,
    ChatBotService.currentSessionBang, perform.
  simpl. rewrite Hs. simpl. reflexivity.
Qed.

Lemma appendMessage_null (w : World) (i : nat) (text : string) (isUser : bool) :
  currentSession w = None ->
  result (run h (ChatBotService.appendMessage text isUser) w i) = Err typeError.
Proof.
  intros Hs. unfold ChatBotService.appendMessage, ChatBotService.freshId,
    ChatBotService.currentSessionBang, perform.
  simpl. rewrite Hs. reflexivity.
Qed.

Lemma ensureSession_run (w : World) (i : nat) (s : ChatSession.t) :
  currentSession w = Some s ->
  run h ChatBotService.ensureSession w i = mkOutcome (Ok tt) w (S i).
Proof.
  intros Hs. unfold ChatBotService.ensureSession, perform. simpl.
  rewrite Hs. reflexivity.
Qed.

Lemma persistMessage_avoids (bad : SyncClass) (message : Message.t) :
  (forall R (e : Sync R), bad R e = true ->
     writes_flag R e = true \/ writes_session R e = true \/ sets_timer R e = true) ->
  avoids bad (ChatBotService.persistMessage message).
Proof.
  intros Hbad. unfold ChatBotService.persistMessage, ChatBotService.currentSessionBang.
  repeat (first [ apply saveMessage_reads; assumption
                | apply saveChatSession_reads; assumption
                | apply bad_read; [assumption|reflexivity|reflexivity|reflexivity]
                | avoids_step ]).
Qed.

Lemma scheduleResponse_run (w : World) (i : nat) (text : string) (isUser : bool) :
  run h (ChatBotService.scheduleResponse text isUser) w i =
  if andb isUser (negb (isProcessing w))
  then mkOutcome (Ok tt)
         (mkWorld (currentSession w) (isProcessing w) (database w) (baseURL w)
            (timeout w) (timers w ++ [text])) (2 + i)
  else mkOutcome (Ok tt) w (S i).
Proof.
  unfold ChatBotService.scheduleResponse, perform. simpl.
  destruct (andb isUser (negb (isProcessing w))); reflexivity.
Qed.

(** [sendMessage] with an active session: the message is pushed and
    [updatedAt] set before anything is persisted, so the session in memory
    has the message whether or not the store accepts it. *)
Lemma sendMessage_session (w : World) (i : nat) (text : string) (isUser : bool)
  (s : ChatSession.t) :
  currentSession w = Some s ->
  let o := run h (ChatBotService.sendMessage text isUser) w i in
  currentSession (world o) = Some (appended h (S i) text isUser s) /\
  isProcessing (world o) = isProcessing w /\
  (result o = Ok (message_at h (S i) text isUser) \/ exists e, result o = Err e).
Proof.
  intros Hs. unfold ChatBotService.sendMessage.
  rewrite run_bind, (ensureSession_run w i s Hs). cbn [result world tick].
  rewrite run_bind, (appendMessage_run w (S i) text isUser s Hs). cbn [result world tick].
  rewrite run_bind.
  set (o1 := run h (ChatBotService.persistMessage _) _ _).
  assert (H1 : currentSession (world o1) = Some (appended h (S i) text isUser s)).
  { unfold o1. rewrite run_avoids_session; [reflexivity|].
    apply persistMessage_avoids. auto. }
  assert (H2 : isProcessing (world o1) = isProcessing w).
  { unfold o1. rewrite run_avoids_flag; [reflexivity|].
    apply persistMessage_avoids. auto. }
  destruct (result o1) as [[]|e]; cbn [result world tick].
  - rewrite run_bind, scheduleResponse_run.
    destruct (andb isUser (negb (isProcessing (world o1)))); simpl; auto.
  - split; [exact H1|]. split; [exact H2|]. right. eexists. reflexivity.
Qed.

End Sequential.

(* ===================================================================== *)
(** ** The response resolver, one generation at a time *)
(* ===================================================================== *)

Lemma getChatbotResponse_total message context :
  api_total (ApiService.getChatbotResponse message context).
Proof. apply guarded_request_total; request_body. Qed.

Section Resolver.
Variable h : Host.

Lemma resolveResponse_local (w : World) (i : nat) (text : string)
  (bestMatch : DatabaseRecord.t) (rest : list DatabaseRecord.t) :
  result (run h (DatabaseService.searchCompanyData text) w i) = Ok (bestMatch :: rest) ->
  run h (ChatBotService.resolveResponse text) w i =
  mkOutcome (Ok (local_reply bestMatch))
    (world (run h (DatabaseService.searchCompanyData text) w i))
    (tick (run h (DatabaseService.searchCompanyData text) w i)).
Proof.
  intros Hs. unfold ChatBotService.resolveResponse.
  rewrite run_bind, run_await, Hs. reflexivity.
Qed.

Lemma resolveResponse_throws (w : World) (i : nat) (text : string) (e : JsError.t) :
  result (run h (DatabaseService.searchCompanyData text) w i) = Err e ->
  run h (ChatBotService.resolveResponse text) w i =
  mkOutcome (Err e)
    (world (run h (DatabaseService.searchCompanyData text) w i))
    (tick (run h (DatabaseService.searchCompanyData text) w i)).
Proof.
  intros Hs. unfold ChatBotService.resolveResponse.
  rewrite run_bind, run_await, Hs. reflexivity.
Qed.

Lemma resolveResponse_offline (w : World) (i : nat) (text : string) :
  result (run h (DatabaseService.searchCompanyData text) w i) = Ok [] ->
  offline h ->
  result (run h (ChatBotService.resolveResponse text) w i) =
  Ok (ApiService.generateMockResponse text).
Proof.
  intros Hs Hoff. unfold ChatBotService.resolveResponse.
  rewrite run_bind, run_await, Hs, run_bind, run_await.
  destruct (getChatbotResponse_total text None h
              (world (run h (DatabaseService.searchCompanyData text) w i))
              (tick (run h (DatabaseService.searchCompanyData text) w i)))
    as (resp & Hr & _ & Hfalse & _).
  rewrite Hr. simpl. rewrite (Hfalse Hoff). reflexivity.
Qed.

(** [generateResponse] is its guard, then the flag, then [generation]. *)
Lemma generateResponse_run (w : World) (i : nat) (text : string) :
  run h (ChatBotService.generateResponse text) w i =
  if isProcessing w then mkOutcome (Ok tt) w (S i)
  else run h (ChatBotService.generation text) (with_flag w true) (2 + i).
Proof.
  unfold ChatBotService.generateResponse, perform. simpl.
  destruct (isProcessing w); reflexivity.
Qed.

(** The [finally] of [generation] clears the flag however the [try] and
    the [catch] end. *)
Lemma generation_clears_flag (w : World) (i : nat) (text : string) :
  isProcessing (world (run h (ChatBotService.generation text) w i)) = false.
Proof.
  unfold ChatBotService.generation. rewrite run_try_finally.
  unfold perform. simpl. reflexivity.
Qed.

End Resolver.

(** C1.  When the local matcher returns at least one record, the reply is
    built from the first one: its content as text, confidence 0.8, source
    [database], its keywords as related topics.  The host is arbitrary, so
    this holds whatever the connectivity and the remote service are; the
    run of the resolver ends where the run of the search ends, so the
    remote service is not asked. *)
Theorem local_match_first (h : Host) (w : World) (i : nat) (text : string)
  (bestMatch : DatabaseRecord.t) (rest : list DatabaseRecord.t) :
  result (run h (DatabaseService.searchCompanyData text) w i) = Ok (bestMatch :: rest) ->
  let o := run h (ChatBotService.resolveResponse text) w i in
  result o = Ok (ChatBotResponse.mk (DatabaseRecord.content bestMatch) (8 # 10)
                   database_src (Some (DatabaseRecord.keywords bestMatch))) /\
  tick o = tick (run h (DatabaseService.searchCompanyData text) w i).
Proof.
  intros Hs o. unfold o. rewrite (resolveResponse_local h w i text bestMatch rest Hs).
  split; reflexivity.
Qed.

Lemma local_match_first_witness :
  result (run (scenario_host sc_match)
            (DatabaseService.searchCompanyData "What is your refund policy?")
            initial_world 0)
  = Ok [DatabaseRecord.mk 3 "Support Policy" (CompanyRow.content support_row)
          "support" ["support"; "help"]
          "2025-01-01T00:00:00.000Z" "2025-01-01T00:00:00.000Z";
        DatabaseRecord.mk 1 "Company Overview" (CompanyRow.content overview_row)
          "company-info" [] "2025-01-01T00:00:00.000Z" "2025-01-01T00:00:00.000Z"] /\
  result (run (scenario_host sc_match)
            (ChatBotService.resolveResponse "What is your refund policy?")
            initial_world 0)
  = Ok (ChatBotResponse.mk (CompanyRow.content support_row) (8 # 10) database_src
          (Some ["support"; "help"])).
Proof.
  split; [reflexivity|].
  apply (local_match_first (scenario_host sc_match) initial_world 0
           "What is your refund policy?"
           (DatabaseRecord.mk 3 "Support Policy" (CompanyRow.content support_row)
              "support" ["support"; "help"]
              "2025-01-01T00:00:00.000Z" "2025-01-01T00:00:00.000Z")
           [DatabaseRecord.mk 1 "Company Overview" (CompanyRow.content overview_row)
              "company-info" [] "2025-01-01T00:00:00.000Z" "2025-01-01T00:00:00.000Z"]).
  reflexivity.
Defined.

(** C6.  With no candidate from the local matcher and no connectivity the
    reply is the one of the offline generator, a function of the text
    alone, with source [default]; for "hi" it is the greeting with
    confidence 0.9.  The generator has four branches, tried in order, with
    confidences 0.9 (greeting), 0.8 (help), 0.9 (thanks), 0.5 (echo). *)
Theorem offline_fallback (h : Host) (w : World) (i : nat) (text : string) :
  result (run h (DatabaseService.searchCompanyData text) w i) = Ok [] ->
  offline h ->
  let reply := ApiService.generateMockResponse text in
  let l := toLowerCase text in
  result (run h (ChatBotService.resolveResponse text) w i) = Ok reply /\
  ChatBotResponse.source reply = default_src /\
  (text = "hi" ->
   ChatBotResponse.text reply = ApiService.greeting_text /\
   ChatBotResponse.confidence reply = (9 # 10)%Q) /\
  reply = (if orb (includes l "hello") (includes l "hi") then ApiService.greeting
           else if includes l "help" then ApiService.help
           else if includes l "thank" then ApiService.thanks
           else ApiService.echo text) /\
  ChatBotResponse.confidence ApiService.greeting = (9 # 10)%Q /\
  ChatBotResponse.confidence ApiService.help = (8 # 10)%Q /\
  ChatBotResponse.confidence ApiService.thanks = (9 # 10)%Q /\
  ChatBotResponse.confidence (ApiService.echo text) = (5 # 10)%Q.
Proof.
  intros Hs Hoff reply l.
  split; [apply resolveResponse_offline; assumption|].
  split.
  { unfold reply, ApiService.generateMockResponse.
    destruct (orb _ _); [reflexivity|].
    destruct (includes _ "help"); [reflexivity|].
    destruct (includes _ "thank"); reflexivity. }
  split; [intros ->; split; reflexivity|].
  repeat split; reflexivity.
Qed.

Lemma offline_fallback_witness :
  result (run (scenario_host sc_offline) (DatabaseService.searchCompanyData "hi")
            initial_world 0) = Ok [] /\
  result (run (scenario_host sc_offline) (ChatBotService.resolveResponse "hi")
            initial_world 0)
  = Ok (ChatBotResponse.mk ApiService.greeting_text (9 # 10) default_src
          (Some ["greeting"; "help"; "assistance"])).
Proof.
  split; [reflexivity|].
  apply (offline_fallback (scenario_host sc_offline) initial_world 0 "hi").
  - reflexivity.
  - intros j. simpl. discriminate.
Defined.

(* ===================================================================== *)
(** ** Failures of the local search *)
(* ===================================================================== *)

Section SearchFailure.
Variable h : Host.

(** No effect writes the database handle. *)
Lemma run_database {A : Type} (p : Prog A) :
  forall w i, database (world (run h p w i)) = database w.
Proof.
  induction p as [a|e|R e k IH|R e k IH|k IH]; simpl; intros w i; auto.
  rewrite IH. destruct e; reflexivity.
Qed.


(** When the search throws, [generation] goes to its [catch]: it sends the
    apology, and the [finally] clears the flag. *)
Lemma generation_search_fails (w : World) (i : nat) (text : string)
  (e : JsError.t) (s : ChatSession.t) :
  result (run h (DatabaseService.searchCompanyData text) w i) = Err e ->
  currentSession w = Some s ->
  exists j,
    currentSession (world (run h (ChatBotService.generation text) w i))
    = Some (appended h j ChatBotService.apology false s) /\
    isProcessing (world (run h (ChatBotService.generation text) w i)) = false.
Proof.
  intros Hsearch Hs.
  exists (S (tick (run h (DatabaseService.searchCompanyData text) w i))).
  split; [|apply generation_clears_flag].
  unfold ChatBotService.generation.
  rewrite run_try_finally. cbv zeta.
  set (body := run h (try_catch _ _) w i).
  assert (Hbody : currentSession (world body)
                  = Some (appended h (S (tick (run h (DatabaseService.searchCompanyData text) w i)))
                            ChatBotService.apology false s)).
  { unfold body. rewrite run_try_catch, run_bind.
    rewrite (resolveResponse_throws h w i text e Hsearch). cbn [result world tick].
    rewrite run_bind, run_await.
    assert (Hs1 : currentSession (world (run h (DatabaseService.searchCompanyData text) w i))
                  = Some s).
    { rewrite run_avoids_session; [exact Hs|].
      apply db_searchCompanyData_reads. auto. }
    destruct (sendMessage_session h _ (tick (run h (DatabaseService.searchCompanyData text) w i))
                ChatBotService.apology false s Hs1) as (Hc & _ & _).
    destruct (result (run h (ChatBotService.sendMessage ChatBotService.apology false) _ _));
      exact Hc. }
  unfold perform. simpl. exact Hbody.
Qed.

End SearchFailure.




(* ===================================================================== *)
(** ** Storage failures in the session manager *)
(* ===================================================================== *)

Ltac storage_case Hdown :=
  let Hdb := fresh "Hdb" in let He := fresh "He" in let Hrej := fresh "Hrej" in
  destruct Hdown as [[Hdb He]|[Hdb Hrej]];
  [ rewrite Hdb; try rewrite He
  | match goal with
    | |- context [database ?w] =>
        destruct (database w) as [?d|]; [|congruence]
    end ].

Section StorageDown.
Variable h : Host.
Variable w : World.
Variable e : JsError.t.
Hypothesis Hdown : storage_down h w e.

Lemma createNewSession_storage_down (title : option string) (i : nat) :
  result (run h (ChatBotService.createNewSession title) w i) = Err e.
Proof.
  unfold ChatBotService.createNewSession, ChatBotService.freshId, perform.
  destruct title as [[|c t]|]; simpl.
  - storage_case Hdown; simpl; [reflexivity|].
    rewrite Hrej by reflexivity. reflexivity.
  - storage_case Hdown; simpl; [reflexivity|].
    rewrite Hrej by reflexivity. reflexivity.
  - storage_case Hdown; simpl; [reflexivity|].
    rewrite Hrej by reflexivity. reflexivity.
Qed.

Lemma sendMessage_storage_down (text : string) (isUser : bool) (i : nat) :
  result (run h (ChatBotService.sendMessage text isUser) w i) = Err e.
Proof.
  unfold ChatBotService.sendMessage.
  destruct (currentSession w) as [s|] eqn:Hs.
  - rewrite run_bind, (ensureSession_run h w i s Hs). cbn [result world tick].
    rewrite run_bind, (appendMessage_run h w (S i) text isUser s Hs).
    cbn [result world tick]. rewrite run_bind.
    unfold ChatBotService.persistMessage, ChatBotService.currentSessionBang,
      with_session, perform.
    simpl. storage_case Hdown; simpl; [reflexivity|].
    rewrite Hrej by reflexivity. reflexivity.
  - rewrite run_bind.
    unfold ChatBotService.ensureSession, ChatBotService.createNewSession,
      ChatBotService.freshId, perform.
    simpl. rewrite Hs. simpl. storage_case Hdown; simpl; [reflexivity|].
    rewrite Hrej by reflexivity. reflexivity.
Qed.

Lemma getAllSessions_storage_down (i : nat) :
  result (run h ChatBotService.getAllSessions w i) = Err e.
Proof.
  unfold ChatBotService.getAllSessions, DatabaseService.getChatSessions, perform.
  simpl. storage_case Hdown; simpl; [reflexivity|].
  rewrite Hrej by reflexivity. reflexivity.
Qed.

Lemma loadSession_storage_down (sessionId : string) (i : nat) :
  result (run h (ChatBotService.loadSession sessionId) w i) = Ok None /\
  world (run h (ChatBotService.loadSession sessionId) w i) = w.
Proof.
  unfold ChatBotService.loadSession, DatabaseService.getChatSessions, perform.
  simpl. storage_case Hdown; simpl; [split; reflexivity|].
  rewrite Hrej by reflexivity. split; reflexivity.
Qed.

End StorageDown.

(** C8, as the code has it.  When the store is unavailable,
    [createNewSession], [sendMessage] and [getAllSessions] throw the
    error of the store to their caller.  [loadSession] catches it: it
    returns [null], as for an unknown identifier, and changes nothing. *)
Theorem storage_failure_surfaces (h : Host) (w : World) (e : JsError.t) :
  storage_down h w e ->
  (forall title i,
     result (run h (ChatBotService.createNewSession title) w i) = Err e) /\
  (forall text isUser i,
     result (run h (ChatBotService.sendMessage text isUser) w i) = Err e) /\
  (forall i, result (run h ChatBotService.getAllSessions w i) = Err e) /\
  (forall sessionId i,
     result (run h (ChatBotService.loadSession sessionId) w i) = Ok None /\
     world (run h (ChatBotService.loadSession sessionId) w i) = w).
Proof.
  intros Hdown. repeat split.
  - intros. apply createNewSession_storage_down; assumption.
  - intros. apply sendMessage_storage_down; assumption.
  - intros. apply getAllSessions_storage_down; assumption.
  - apply (loadSession_storage_down h w e Hdown).
  - apply (loadSession_storage_down h w e Hdown).
Qed.

Lemma storage_failure_surfaces_witness :
  storage_down (scenario_host sc_offline) closed_world DatabaseService.notInitialized /\
  result (run (scenario_host sc_offline) (ChatBotService.sendMessage "hi" true)
            closed_world 0)
  = Err (JsError.Error "Database not initialized").
Proof.
  assert (Hd : storage_down (scenario_host sc_offline) closed_world
                 DatabaseService.notInitialized).
  { left. split; reflexivity. }
  split; [exact Hd|].
  apply (storage_failure_surfaces (scenario_host sc_offline) closed_world
           DatabaseService.notInitialized Hd).
Defined.

(** C8, as the claim has it, fails for [loadSession]: with a store that
    rejects every statement the read of the sessions throws, and
    [loadSession] returns [null] to its caller instead of the error. *)
Lemma loadSession_swallows_storage_failure :
  result (run (scenario_host sc_store_down) DatabaseService.getChatSessions
            initial_world 0)
  = Err (JsError.Error "SQLITE_IOERR") /\
  result (run (scenario_host sc_store_down)
            (ChatBotService.loadSession "session_1001_4fzyo82mv") initial_world 0)
  = Ok None.
Proof. split; reflexivity. Qed.

(* ===================================================================== *)
(** ** What the session manager never does *)
(* ===================================================================== *)

Ltac avoids_methods :=
  repeat (first [ apply saveMessage_reads; tauto
                | apply saveChatSession_reads; tauto
                | apply getChatSessions_reads; tauto
                | apply resolveResponse_reads; tauto
                | apply avoids_perform; reflexivity
                | avoids_step ]).

Lemma createNewSession_keeps_flag title :
  avoids writes_flag (ChatBotService.createNewSession title).
Proof.
  unfold ChatBotService.createNewSession, ChatBotService.freshId. avoids_methods.
Qed.

Lemma ensureSession_keeps_flag : avoids writes_flag ChatBotService.ensureSession.
Proof.
  pose proof createNewSession_keeps_flag as Hc.
  unfold ChatBotService.ensureSession.
  repeat (first [ apply Hc | progress avoids_methods ]).
Qed.

Lemma sendMessage_keeps_flag text isUser :
  avoids writes_flag (ChatBotService.sendMessage text isUser).
Proof.
  pose proof createNewSession_keeps_flag as Hc.
  unfold ChatBotService.sendMessage, ChatBotService.ensureSession,
    ChatBotService.appendMessage, ChatBotService.persistMessage,
    ChatBotService.scheduleResponse, ChatBotService.freshId,
    ChatBotService.currentSessionBang.
  repeat (first [ apply Hc | progress avoids_methods ]).
Qed.

Lemma loadSession_keeps_flag sessionId :
  avoids writes_flag (ChatBotService.loadSession sessionId).
Proof. unfold ChatBotService.loadSession. avoids_methods. Qed.

Lemma program_of_keeps_flag (a : Action) : avoids writes_flag (program_of a).
Proof.
  destruct a; unfold program_of, forget.
  - apply avoids_bind; [apply createNewSession_keeps_flag|intros; exact I].
  - apply avoids_bind; [apply loadSession_keeps_flag|intros; exact I].
  - apply avoids_bind; [apply sendMessage_keeps_flag|intros; exact I].
  - unfold ChatBotService.getAllSessions. avoids_methods.
  - unfold ChatBotService.deleteSession. avoids_methods.
Qed.

(** Before its last statement [sendMessage] sets no timer. *)
Lemma createNewSession_no_timer title :
  avoids sets_timer (ChatBotService.createNewSession title).
Proof.
  unfold ChatBotService.createNewSession, ChatBotService.freshId. avoids_methods.
Qed.

Lemma ensureSession_no_timer : avoids sets_timer ChatBotService.ensureSession.
Proof.
  pose proof createNewSession_no_timer as Hc.
  unfold ChatBotService.ensureSession.
  repeat (first [ apply Hc | progress avoids_methods ]).
Qed.

Lemma appendMessage_no_timer text isUser :
  avoids sets_timer (ChatBotService.appendMessage text isUser).
Proof.
  unfold ChatBotService.appendMessage, ChatBotService.freshId,
    ChatBotService.currentSessionBang. avoids_methods.
Qed.

(* ===================================================================== *)
(** ** A user turn and its generation *)
(* ===================================================================== *)

Section AwaitsOnly.
Variable ok : AsyncClass.




End AwaitsOnly.





Section UserTurn.
Variable h : Host.

Lemma createNewSession_session (w : World) (i : nat) (title : option string) :
  exists s, currentSession (world (run h (ChatBotService.createNewSession title) w i))
            = Some s.
Proof.
  unfold ChatBotService.createNewSession.
  rewrite run_bind. unfold ChatBotService.freshId at 1. unfold perform at 1 2.
  cbn [run bind do_sync fst snd result world tick].
  rewrite run_bind. unfold perform at 1.
  cbn [run bind do_sync fst snd result world tick].
  rewrite run_bind.
  set (t := run h (match title with
                   | Some EmptyString | None => _
                   | Some _ => _ end) _ _).
  assert (Hw : world t = w /\ exists x, result t = Ok x).
  { unfold t. destruct title as [[|c t0]|]; unfold perform; simpl; eauto. }
  destruct Hw as [Hw [x Hx]]. rewrite Hx, Hw.
  rewrite run_bind. unfold perform at 1.
  cbn [run bind do_sync fst snd result world tick].
  rewrite run_bind. unfold perform at 1.
  cbn [run bind do_sync fst snd result world tick currentSession].
  rewrite run_bind, run_await.
  set (o := run h (DatabaseService.saveChatSession _) _ _).
  assert (Ho : currentSession (world o)
               = Some (ChatSession.mk
                         ("session" ++ "_" ++ string_of_Z (host_clock h i) ++ "_"
                          ++ String.substring 2 9 (host_random h (S i)))
                         x [] (host_clock h (S (S i))) (host_clock h (S (S i))))).
  { unfold o. rewrite run_avoids_session; [reflexivity|].
    apply saveChatSession_reads. tauto. }
  destruct (result o) as [[]|e]; cbn [result world tick].
  - unfold perform. cbn [run do_sync fst snd world]. eexists. exact Ho.
  - eexists. exact Ho.
Qed.

Lemma ensureSession_session (w : World) (i : nat) :
  exists s, currentSession (world (run h ChatBotService.ensureSession w i)) = Some s.
Proof.
  unfold ChatBotService.ensureSession. rewrite run_bind.
  change (run h (perform ReadCurrentSession) w i)
    with (mkOutcome (Ok (currentSession w)) w (S i)).
  cbn [result world tick].
  destruct (currentSession w) as [s|] eqn:Hs.
  - simpl. eauto.
  - rewrite run_bind, run_await.
    destruct (createNewSession_session w (S i) None) as [s Hc].
    set (o := run h (ChatBotService.createNewSession None) w (S i)) in *.
    destruct (result o); cbn [result world tick run]; eauto.
Qed.

(** A user turn that returns: the active session ends with the message,
    the flag is as before, and a generation is scheduled if the flag is
    clear. *)
Lemma sendMessage_ok (w : World) (i : nat) (text : string) (isUser : bool)
  (m : Message.t) :
  let o := run h (ChatBotService.sendMessage text isUser) w i in
  result o = Ok m ->
  Message.text m = text /\ Message.isUser m = isUser /\
  (exists s old, currentSession (world o) = Some s /\
                 ChatSession.messages s = (old ++ [m])%list) /\
  isProcessing (world o) = isProcessing w /\
  timers (world o) = (if andb isUser (negb (isProcessing w))
                      then timers w ++ [text] else timers w)%list.
Proof.
  intros o Hres.
  assert (Hflag : isProcessing (world o) = isProcessing w).
  { apply run_avoids_flag. apply sendMessage_keeps_flag. }
  revert Hres Hflag. unfold o. clear o.
  unfold ChatBotService.sendMessage. rewrite run_bind.
  pose proof (ensureSession_session w i) as [s0 Hs0].
  pose proof (run_avoids_timer h ChatBotService.ensureSession ensureSession_no_timer w i) as Ht0.
  set (o0 := run h ChatBotService.ensureSession w i) in *.
  destruct (result o0) as [[]|e0]; [|discriminate].
  rewrite run_bind, (appendMessage_run h (world o0) (tick o0) text isUser s0 Hs0).
  cbn [result world tick]. rewrite run_bind.
  set (w1 := with_session (world o0) _).
  pose proof (run_avoids_session h
                (ChatBotService.persistMessage (message_at h (tick o0) text isUser))
                (persistMessage_avoids writes_session _ ltac:(tauto)) w1 (8 + tick o0)) as Hs1.
  pose proof (run_avoids_timer h
                (ChatBotService.persistMessage (message_at h (tick o0) text isUser))
                (persistMessage_avoids sets_timer _ ltac:(tauto)) w1 (8 + tick o0)) as Ht1.
  pose proof (run_avoids_flag h
                (ChatBotService.persistMessage (message_at h (tick o0) text isUser))
                (persistMessage_avoids writes_flag _ ltac:(tauto)) w1 (8 + tick o0)) as Hf1.
  set (o1 := run h (ChatBotService.persistMessage _) w1 _) in *.
  destruct (result o1) as [[]|e1]; [|discriminate].
  rewrite run_bind, scheduleResponse_run.
  assert (Hfw : isProcessing (world o1) = isProcessing w).
  { rewrite Hf1. unfold w1. simpl. apply run_avoids_flag.
    apply ensureSession_keeps_flag. }
  rewrite Hfw.
  destruct (andb isUser (negb (isProcessing w))); cbn [result world tick run];
    intros Hres _; inversion Hres; subst m; simpl;
    (split; [reflexivity|]); (split; [reflexivity|]);
    (split; [eexists; eexists; split; [rewrite Hs1; reflexivity|reflexivity]|]);
    (split; [first [exact Hfw|reflexivity]|]);
    rewrite ?Ht1; unfold w1; simpl; rewrite Ht0; reflexivity.
Qed.

End UserTurn.

Lemma search_fails_database (h : Host) (w w' : World) (e : JsError.t) :
  database w' = database w -> search_fails h w e -> search_fails h w' e.
Proof.
  intros Hw [[Hdb He]|[Hdb Hrej]]; [left|right]; rewrite Hw; auto.
Qed.

(* ===================================================================== *)
(** ** Schedules: executions of the loop chosen step by step *)
(* ===================================================================== *)

Lemma split_at_spec {X : Type} (n : nat) :
  forall (l l1 l2 : list X) (x : X),
    split_at n l = Some (l1, x, l2) -> l = (l1 ++ x :: l2)%list.
Proof.
  induction n as [|n IH]; intros [|y l] l1 l2 x H; simpl in H; try discriminate.
  - inversion H. reflexivity.
  - destruct (split_at n l) as [[[a b] c]|] eqn:Hsp; [|discriminate].
    inversion H. subst. simpl. f_equal. apply IH. exact Hsp.
Qed.

Lemma choose_step (h : Host) (allowed : Action -> Prop) (c : Choice) (L L' : Loop) :
  match c with Call a => allowed a | _ => True end ->
  choose h c L = Some L' -> step h allowed L L'.
Proof.
  intros Hc H. destruct c as [a|n|n]; simpl in H.
  - inversion H. apply step_call. exact Hc.
  - destruct (split_at n (timers (loop_world L))) as [[[l1 t] l2]|] eqn:Hsp;
      [|discriminate].
    inversion H. apply step_timer. apply (split_at_spec n). exact Hsp.
  - destruct (split_at n (pool L)) as [[[p1 t] p2]|] eqn:Hsp; [|discriminate].
    inversion H. apply step_resume. apply (split_at_spec n). exact Hsp.
Qed.

Lemma schedule_reaches (h : Host) (allowed : Action -> Prop) (L0 : Loop) (cs : list Choice) :
  calls_allowed allowed cs ->
  forall L L', reaches h allowed L0 L -> schedule h cs L = Some L' ->
               reaches h allowed L0 L'.
Proof.
  intros Hcs. induction Hcs as [|c cs Hc Hcs IH]; intros L L' HL H; simpl in H.
  - inversion H. subst. exact HL.
  - destruct (choose h c L) as [L1|] eqn:Hch; [|discriminate].
    apply (IH L1 L'); [|exact H].
    apply (reaches_step h allowed L0 L L1 HL).
    apply (choose_step h allowed c L); assumption.
Qed.

(* ===================================================================== *)
(** ** Single flight *)
(* ===================================================================== *)

Section SingleFlight.
Variable h : Host.

Lemma flag_set_sync (R : Type) (e : Sync R) (w : World) (i : nat) :
  writes_flag R e = false -> flag_set w i -> flag_set (snd (do_sync h e w i)) i.
Proof. unfold flag_set. destruct e; simpl; auto; discriminate. Qed.

Lemma generation_discipline (text : string) (w : World) (i : nat) :
  isProcessing w = true ->
  wp h flag_set (ChatBotService.generation text) flag_clear w i.
Proof.
  intros Hw. unfold ChatBotService.generation.
  apply wp_try_finally, wp_try_catch.
  apply (wp_avoids h flag_set writes_flag); auto using flag_set_sync.
  - apply avoids_bind; [apply resolveResponse_reads; tauto|].
    intros response. apply avoids_bind; [|intros; exact I].
    apply avoids_await, sendMessage_keeps_flag.
  - intros [[]|e] w' i' Hw'.
    + reflexivity.
    + apply (wp_avoids h flag_set writes_flag); auto using flag_set_sync.
      * apply avoids_bind; [|intros; exact I].
        apply avoids_await, sendMessage_keeps_flag.
      * intros [[]|e'] w'' i'' Hw''; reflexivity.
Qed.

(** A turn of a task that never writes the flag. *)
Lemma slice_keeps_flag (p : Prog unit) :
  avoids writes_flag p ->
  forall w i,
    isProcessing (snd (fst (slice h p w i))) = isProcessing w /\
    match fst (fst (slice h p w i)) with
    | Suspended pd => forall j, avoids writes_flag (resume h pd j)
    | Finished _ => True
    end.
Proof.
  induction p as [a|e|R e k IH|R e k IH|k IH]; simpl; intros Hp w i; auto.
  destruct Hp as [He Hk].
  destruct (IH (fst (do_sync h e w i)) (Hk _) (snd (do_sync h e w i)) (S i)) as [H1 H2].
  split; [|exact H2]. rewrite H1. destruct e; simpl in *; auto; discriminate.
Qed.

Lemma gens_app (l1 l2 : list Task) : gens (l1 ++ l2) = (gens l1 + gens l2)%nat.
Proof. unfold gens. rewrite filter_app, length_app. reflexivity. Qed.

Lemma gens_cons (t : Task) (l : list Task) :
  gens (t :: l) = ((if is_generation t then 1 else 0) + gens l)%nat.
Proof. unfold gens. simpl. destruct (is_generation t); reflexivity. Qed.

(** A task that never writes the flag takes a turn. *)
Lemma take_turn_quiet (p : Prog unit) (w : World) (others : list Task) (i : nat) :
  avoids writes_flag p ->
  gens others = (if isProcessing w then 1 else 0)%nat ->
  Forall (task_discipline h) others ->
  single_flight h (take_turn h false p w others i).
Proof.
  intros Hp Hg Hd. unfold take_turn.
  destruct (slice_keeps_flag p Hp w i) as [Hflag Hpd].
  destruct (slice h p w i) as [[[r|pd] w'] i']; simpl in *.
  - split; [unfold running_generations; simpl; rewrite Hflag; exact Hg|exact Hd].
  - split.
    + unfold running_generations. simpl. fold (gens (others ++ [mkTask false pd])).
      rewrite gens_app, gens_cons. change (gens []) with 0%nat. simpl.
      rewrite Hflag, <- Hg. lia.
    + apply Forall_app. split; [exact Hd|]. constructor; [|constructor].
      exact Hpd.
Qed.

(** A generation that holds the flag takes a turn. *)
Lemma take_turn_generation (p : Prog unit) (w : World) (others : list Task) (i : nat) :
  wp h flag_set p flag_clear w i ->
  gens others = 0%nat ->
  Forall (task_discipline h) others ->
  single_flight h (take_turn h true p w others i).
Proof.
  intros Hp Hg Hd. unfold take_turn.
  pose proof (wp_slice h flag_set p flag_clear w i Hp) as Hs.
  destruct (slice h p w i) as [[[r|pd] w'] i']; simpl in *.
  - unfold flag_clear in Hs. split; [|exact Hd].
    unfold running_generations. simpl. rewrite Hs. exact Hg.
  - destruct Hs as [Hset Hnext]. unfold flag_set in Hset. split.
    + unfold running_generations. simpl. fold (gens (others ++ [mkTask true pd])).
      rewrite gens_app, gens_cons, Hset, Hg. reflexivity.
    + apply Forall_app. split; [exact Hd|]. constructor; [|constructor].
      unfold task_discipline. simpl. intros w0 i0 Hw0. apply Hnext. exact Hw0.
Qed.

(** The first turn of [generateResponse]: the guard, then the flag. *)
Lemma take_turn_generateResponse (text : string) (w : World) (others : list Task)
  (i : nat) :
  take_turn h true (ChatBotService.generateResponse text) w others i =
  if isProcessing w then mkLoop w others (S i)
  else take_turn h true (ChatBotService.generation text) (with_flag w true)
         others (2 + i).
Proof.
  unfold take_turn, ChatBotService.generateResponse, perform. simpl.
  destruct (isProcessing w); reflexivity.
Qed.

Lemma step_single_flight (allowed : Action -> Prop) (L L' : Loop) :
  single_flight h L -> step h allowed L L' -> single_flight h L'.
Proof.
  intros [Hcount Hdisc] Hstep. unfold running_generations in Hcount.
  fold (gens (pool L)) in Hcount.
  destruct Hstep as [a L Ha|L l1 l2 text Ht|L p1 p2 t Hp].
  - apply take_turn_quiet; auto. apply program_of_keeps_flag.
  - rewrite take_turn_generateResponse. simpl.
    destruct (isProcessing (loop_world L)) eqn:Hflag.
    + split; [|exact Hdisc]. unfold running_generations. simpl. rewrite Hflag.
      exact Hcount.
    + apply take_turn_generation; auto.
      apply generation_discipline. reflexivity.
  - rewrite Hp in Hcount, Hdisc. rewrite gens_app, gens_cons in Hcount.
    apply Forall_app in Hdisc. destruct Hdisc as [Hd1 Hd2].
    inversion Hd2 as [|t' p2' Hdt Hd2']. subst t' p2'.
    assert (Hothers : Forall (task_discipline h) (p1 ++ p2))
      by (apply Forall_app; split; assumption).
    unfold task_discipline in Hdt.
    destruct (is_generation t) eqn:Hgen.
    + destruct (isProcessing (loop_world L)) eqn:Hflag; [|lia].
      apply take_turn_generation; auto.
      rewrite gens_app. lia.
    + apply take_turn_quiet; auto.
      rewrite gens_app. rewrite <- Hcount. lia.
Qed.

Lemma reaches_single_flight (allowed : Action -> Prop) (L0 L : Loop) :
  single_flight h L0 -> reaches h allowed L0 L -> single_flight h L.
Proof.
  intros H0 Hr. induction Hr as [|L L' Hr IH Hstep]; [exact H0|].
  apply (step_single_flight allowed L L'); assumption.
Qed.

Lemma initial_single_flight : single_flight h initial_loop.
Proof. split; [reflexivity|constructor]. Qed.

End SingleFlight.

(* ===================================================================== *)
(** ** The in-flight flag, one generation at a time *)
(* ===================================================================== *)

(** C5, as the code has it.  An invocation of [generateResponse] that
    finds the flag clear sets it in its first turn, before it is suspended
    for the first time; the flag is set at every suspension of the
    invocation (as long as it is still set when the invocation is
    resumed, which single flight ensures); and the flag is clear when the
    invocation has completed, however it completes: on the normal path and
    on every failure path.  An invocation that finds the flag set returns
    at once, in one turn, and changes nothing: the flag stays set. *)
Theorem flag_after_generateResponse (h : Host) (w : World) (i : nat) (text : string) :
  let o := run h (ChatBotService.generateResponse text) w i in
  if isProcessing w
  then o = mkOutcome (Ok tt) w (S i) /\
       slice h (ChatBotService.generateResponse text) w i = (Finished (Ok tt), w, S i)
  else (exists pd i',
          slice h (ChatBotService.generateResponse text) w i
          = (Suspended pd, with_flag w true, i')) /\
       wp h flag_set (ChatBotService.generateResponse text) flag_clear w i /\
       isProcessing (world o) = false.
Proof.
  cbv zeta. rewrite generateResponse_run.
  destruct (isProcessing w) eqn:Hflag.
  - split; [reflexivity|].
    unfold ChatBotService.generateResponse, perform. simpl. rewrite Hflag. reflexivity.
  - split; [|split].
    + unfold ChatBotService.generateResponse, ChatBotService.generation,
        ChatBotService.resolveResponse, DatabaseService.searchCompanyData,
        DatabaseService.requireDatabase, wait, perform.
      simpl. rewrite Hflag. simpl.
      destruct (database w) as [d|] eqn:Hd; simpl; eexists; eexists;
        unfold with_flag; rewrite Hd; reflexivity.
    + unfold ChatBotService.generateResponse, perform. cbn [bind wp do_sync fst snd].
      rewrite Hflag. cbn [bind wp do_sync fst snd].
      apply generation_discipline. reflexivity.
    + apply generation_clears_flag.
Qed.

(** C5, as the claim has it, fails on the early return.  In a state the
    loop reaches, with the generation of a first message suspended and the
    flag set, an invocation of [generateResponse] completes at once, and
    the flag is still set after it. *)
Lemma flag_set_after_noop :
  let h := scenario_host sc_offline in
  let L := loop_after h first_generation_running in
  let o := run h (ChatBotService.generateResponse "second") (loop_world L)
             (loop_tick L) in
  running_generations L = 1%nat /\
  isProcessing (loop_world L) = true /\
  result o = Ok tt /\
  isProcessing (world o) = true.
Proof. cbv zeta. repeat split; vm_compute; reflexivity. Qed.

Lemma loop_after_reaches (h : Host) (allowed : Action -> Prop) (cs : list Choice) :
  calls_allowed allowed cs -> reaches h allowed initial_loop (loop_after h cs).
Proof.
  intros Hcs. unfold loop_after.
  destruct (schedule h cs initial_loop) as [L|] eqn:Hs; [|apply reaches_refl].
  apply (schedule_reaches h allowed initial_loop cs Hcs initial_loop L);
    [apply reaches_refl|exact Hs].
Qed.

(* ===================================================================== *)
(** ** The turn in which a timer is set *)
(* ===================================================================== *)

Lemma assistant_turn_no_timer (text : string) :
  avoids sets_timer (ChatBotService.sendMessage text false).
Proof.
  unfold ChatBotService.sendMessage.
  apply avoids_bind; [apply ensureSession_no_timer|intros _].
  apply avoids_bind; [apply appendMessage_no_timer|intros m].
  apply avoids_bind; [apply persistMessage_avoids; tauto|intros _].
  unfold ChatBotService.scheduleResponse. avoids_methods.
Qed.

Lemma generateResponse_no_timer (text : string) :
  avoids sets_timer (ChatBotService.generateResponse text).
Proof.
  pose proof assistant_turn_no_timer as Hsend.
  unfold ChatBotService.generateResponse, ChatBotService.generation.
  repeat (first [ apply Hsend | progress avoids_methods ]).
Qed.

Lemma avoids_flag_or_timer {A : Type} (p : Prog A) :
  avoids writes_flag p -> avoids sets_timer p -> avoids writes_flag_or_timer p.
Proof.
  induction p as [a|e|R e k IH|R e k IH|k IH]; simpl; intros Hf Ht; auto.
  destruct Hf as [Hf Hfk], Ht as [Ht Htk]. split; [|auto].
  unfold writes_flag_or_timer. rewrite Hf, Ht. reflexivity.
Qed.

Section Turns.
Variable h : Host.

Lemma turnwise_mono (Mid Mid' : World -> World -> Prop) {A : Type} (p : Prog A)
  (P Q : Res A -> World -> World -> Prop) :
  (forall w0 w, Mid w0 w -> Mid' w0 w) ->
  (forall r w0 w, P r w0 w -> Q r w0 w) ->
  forall w0 w i, turnwise h Mid p P w0 w i -> turnwise h Mid' p Q w0 w i.
Proof.
  intros HM HPQ.
  induction p as [a|e|R e k IH|R e k IH|k IH]; simpl; intros w0 w i H; auto.
  - destruct H as [H0 H1]. split; auto.
  - destruct H as [H0 H1]. split; auto.
Qed.

Lemma turnwise_bind (Mid : World -> World -> Prop) {A B : Type} (p : Prog A)
  (f : A -> Prog B) (Post : Res B -> World -> World -> Prop) :
  forall w0 w i,
    turnwise h Mid p
      (fun r w0 w => match r with
                     | Ok a => forall i, turnwise h Mid (f a) Post w0 w i
                     | Err e => Post (Err e) w0 w
                     end) w0 w i ->
    turnwise h Mid (bind p f) Post w0 w i.
Proof.
  induction p as [a|e|R e k IH|R e k IH|k IH]; simpl; intros w0 w i H; auto.
  - destruct H as [H0 H1]. split; auto.
  - destruct H as [H0 H1]. split; auto.
Qed.

(** A program that avoids the effects a relation of worlds is sensitive
    to keeps the relation all along its turns. *)
Lemma turnwise_avoids (bad : SyncClass) (R : World -> World -> Prop) {A : Type}
  (p : Prog A) :
  (forall w, R w w) ->
  (forall X (e : Sync X) w0 w i,
      bad X e = false -> R w0 w -> R w0 (snd (do_sync h e w i))) ->
  avoids bad p ->
  forall w0 w i, R w0 w -> turnwise h R p (fun _ => R) w0 w i.
Proof.
  intros Hrefl Hsync.
  induction p as [a|e|X e k IH|X e k IH|k IH]; simpl; intros Hp w0 w i Hw; auto.
  destruct Hp as [He Hk]. apply IH; auto.
Qed.

(** A turn of a task: it settles with [Post], or it is suspended with
    [Mid] and goes on in the same way from wherever it is resumed. *)
Lemma turnwise_slice (Mid : World -> World -> Prop) (p : Prog unit)
  (Post : Res unit -> World -> World -> Prop) :
  forall w0 w i,
    turnwise h Mid p Post w0 w i ->
    match slice h p w i with
    | (Finished r, w', _) => Post r w0 w'
    | (Suspended pd, w', _) =>
        Mid w0 w' /\
        forall w'' j, turnwise h Mid (resume h pd j) Post w'' w'' (resume_tick pd j)
    end.
Proof.
  induction p as [a|e|R e k IH|R e k IH|k IH]; simpl; intros w0 w i H.
  - exact H.
  - exact H.
  - apply IH. exact H.
  - destruct H as [H0 H1]. split; [exact H0|]. intros w'' j. simpl. apply H1.
  - destruct H as [H0 H1]. split; [exact H0|]. intros w'' j. simpl. apply H1.
Qed.

Lemma unchanged_refl (w : World) : unchanged w w.
Proof. split; reflexivity. Qed.

Lemma unchanged_sync (X : Type) (e : Sync X) (w0 w : World) (i : nat) :
  writes_flag_or_timer X e = false -> unchanged w0 w ->
  unchanged w0 (snd (do_sync h e w i)).
Proof. unfold unchanged. destruct e; simpl; auto; discriminate. Qed.

Lemma turnwise_unchanged {A : Type} (p : Prog A) :
  avoids writes_flag p -> avoids sets_timer p ->
  forall w0 w i, unchanged w0 w -> turnwise h unchanged p (fun _ => unchanged) w0 w i.
Proof.
  intros Hf Ht. apply (turnwise_avoids writes_flag_or_timer).
  - apply unchanged_refl.
  - apply unchanged_sync.
  - apply avoids_flag_or_timer; assumption.
Qed.

(** The last statement of [sendMessage]: the flag is read, and the timer
    set, in one turn. *)
Lemma scheduleResponse_turnwise (text : string) (isUser : bool) (m : Message.t)
  (w0 w : World) (i : nat) :
  unchanged w0 w ->
  turnwise h unchanged (ChatBotService.scheduleResponse text isUser ;;; Ret m)
    (timer_rule text isUser) w0 w i.
Proof.
  intros [Ht Hf]. unfold ChatBotService.scheduleResponse, perform, timer_rule.
  simpl. rewrite Hf.
  destruct (andb isUser (negb (isProcessing w0))) eqn:Hc; simpl;
    rewrite ?Ht, ?Hf, ?Hc; auto.
Qed.

(** [sendMessage], turn by turn.  Up to its last statement it leaves the
    timers and the flag as each of its turns finds them; its last
    statement reads the flag and sets the timer in the turn in which it
    returns. *)
Lemma sendMessage_turnwise (text : string) (isUser : bool) (w0 w : World) (i : nat) :
  unchanged w0 w ->
  turnwise h unchanged (ChatBotService.sendMessage text isUser)
    (timer_rule text isUser) w0 w i.
Proof.
  assert (Hfail : forall e w1 w2, unchanged w1 w2 ->
                    timer_rule text isUser (Err e) w1 w2).
  { intros e w1 w2 [Ht Hf]. split; assumption. }
  intros Hw. unfold ChatBotService.sendMessage.
  apply turnwise_bind.
  apply (turnwise_mono unchanged unchanged _ (fun _ => unchanged)); [auto| |].
  2:{ apply turnwise_unchanged;
        [apply ensureSession_keeps_flag|apply ensureSession_no_timer|exact Hw]. }
  intros [[]|e] w1 w2 H12; [|apply Hfail; exact H12]. intros i1.
  apply turnwise_bind.
  apply (turnwise_mono unchanged unchanged _ (fun _ => unchanged)); [auto| |].
  2:{ apply turnwise_unchanged; [|apply appendMessage_no_timer|exact H12].
      unfold ChatBotService.appendMessage, ChatBotService.freshId,
        ChatBotService.currentSessionBang. avoids_methods. }
  intros [m|e] w3 w4 H34; [|apply Hfail; exact H34]. intros i2.
  apply turnwise_bind.
  apply (turnwise_mono unchanged unchanged _ (fun _ => unchanged)); [auto| |].
  2:{ apply turnwise_unchanged; [| |exact H34];
        apply persistMessage_avoids; tauto. }
  intros [[]|e] w5 w6 H56; [|apply Hfail; exact H56]. intros i3.
  apply scheduleResponse_turnwise. exact H56.
Qed.

Lemma timer_rule_quiet (text : string) (isUser : bool) (r : Res Message.t)
  (w0 w : World) :
  timer_rule text isUser r w0 w -> quiet_when_busy w0 w.
Proof.
  intros [_ Ht] Hflag. rewrite Ht, Hflag, andb_false_r.
  destruct r; reflexivity.
Qed.

Lemma unchanged_quiet (w0 w : World) : unchanged w0 w -> quiet_when_busy w0 w.
Proof. intros [Ht _] _. exact Ht. Qed.

(** A program that sets no timer is quiet. *)
Lemma quiet_no_timer {A : Type} (p : Prog A) :
  avoids sets_timer p ->
  forall w i, turnwise h quiet_when_busy p (fun _ => quiet_when_busy) w w i.
Proof.
  intros Hp w i.
  apply (turnwise_mono (fun w0 w => timers w = timers w0) quiet_when_busy p
           (fun _ w0 w => timers w = timers w0)).
  - intros w0 w1 H _. exact H.
  - intros _ w0 w1 H _. exact H.
  - apply (turnwise_avoids sets_timer); auto.
    intros X e w0 w1 j He H. destruct e; simpl; auto; discriminate.
Qed.

Lemma quiet_forget {A : Type} (p : Prog A) (P : Res A -> World -> World -> Prop) :
  (forall r w0 w, P r w0 w -> quiet_when_busy w0 w) ->
  forall w i,
    turnwise h quiet_when_busy p P w w i ->
    turnwise h quiet_when_busy (forget p) (fun _ => quiet_when_busy) w w i.
Proof.
  intros HP w i H. unfold forget. apply turnwise_bind.
  apply (turnwise_mono quiet_when_busy quiet_when_busy p P); [auto| |exact H].
  intros [a|e] w0 w1 H01; [intros j; simpl|]; apply (HP _ _ _ H01).
Qed.

(** Every call of the user interface is quiet when busy. *)
Lemma program_of_quiet (a : Action) (w : World) (i : nat) :
  turnwise h quiet_when_busy (program_of a) (fun _ => quiet_when_busy) w w i.
Proof.
  destruct a as [title|sessionId|text isUser| |sessionId]; unfold program_of.
  - apply quiet_no_timer. unfold forget.
    apply avoids_bind; [apply createNewSession_no_timer|intros; exact I].
  - apply quiet_no_timer. unfold forget, ChatBotService.loadSession. avoids_methods.
  - apply (quiet_forget _ (timer_rule text isUser)); [apply timer_rule_quiet|].
    apply (turnwise_mono unchanged quiet_when_busy _ (timer_rule text isUser));
      [apply unchanged_quiet|auto|].
    apply sendMessage_turnwise, unchanged_refl.
  - apply quiet_no_timer. unfold forget, ChatBotService.getAllSessions. avoids_methods.
  - apply quiet_no_timer. unfold ChatBotService.deleteSession. avoids_methods.
Qed.

(** A quiet task takes a turn. *)
Lemma take_turn_quiet_when_busy (g : bool) (p : Prog unit) (w : World)
  (others : list Task) (i : nat) :
  turnwise h quiet_when_busy p (fun _ => quiet_when_busy) w w i ->
  Forall (task_timid h) others ->
  Forall (task_timid h) (pool (take_turn h g p w others i)) /\
  (isProcessing w = true ->
   timers (loop_world (take_turn h g p w others i)) = timers w).
Proof.
  intros Hp Hd. unfold take_turn.
  pose proof (turnwise_slice quiet_when_busy p (fun _ => quiet_when_busy) w w i Hp) as Hs.
  destruct (slice h p w i) as [[[r|pd] w'] i']; simpl in *.
  - split; [exact Hd|exact Hs].
  - destruct Hs as [Hq Hnext]. split; [|exact Hq].
    apply Forall_app. split; [exact Hd|]. constructor; [|constructor].
    unfold task_timid. simpl. exact Hnext.
Qed.

Lemma step_timid (allowed : Action -> Prop) (L L' : Loop) :
  Forall (task_timid h) (pool L) -> step h allowed L L' ->
  Forall (task_timid h) (pool L').
Proof.
  intros Hd Hstep. destruct Hstep as [a L Ha|L l1 l2 text Ht|L p1 p2 t Hp].
  - apply take_turn_quiet_when_busy; [apply program_of_quiet|exact Hd].
  - apply take_turn_quiet_when_busy; [|exact Hd].
    apply quiet_no_timer, generateResponse_no_timer.
  - rewrite Hp in Hd. apply Forall_app in Hd. destruct Hd as [Hd1 Hd2].
    inversion Hd2 as [|t' p2' Hdt Hd2']. subst t' p2'.
    apply take_turn_quiet_when_busy; [apply Hdt|].
    apply Forall_app. split; assumption.
Qed.

Lemma reaches_timid (allowed : Action -> Prop) (L : Loop) :
  reaches h allowed initial_loop L -> Forall (task_timid h) (pool L).
Proof.
  intros Hr. induction Hr as [|L L' Hr IH Hstep]; [constructor|].
  apply (step_timid allowed L L'); assumption.
Qed.

(** A step of the loop that begins with the flag set: the pending timers
    stay as they were, or one of them fires and its generation returns at
    once. *)
Lemma busy_step (allowed : Action -> Prop) (L L' : Loop) :
  Forall (task_timid h) (pool L) ->
  isProcessing (loop_world L) = true ->
  step h allowed L L' ->
  timers (loop_world L') = timers (loop_world L) \/
  exists l1 text l2,
    timers (loop_world L) = (l1 ++ text :: l2)%list /\
    L' = mkLoop (without_timers (loop_world L) (l1 ++ l2)) (pool L) (S (loop_tick L)).
Proof.
  intros Hd Hflag Hstep. destruct Hstep as [a L Ha|L l1 l2 text Ht|L p1 p2 t Hp].
  - left. apply take_turn_quiet_when_busy;
      [apply program_of_quiet|exact Hd|exact Hflag].
  - right. exists l1, text, l2. split; [exact Ht|].
    rewrite take_turn_generateResponse. simpl. rewrite Hflag. reflexivity.
  - left. rewrite Hp in Hd. apply Forall_app in Hd. destruct Hd as [Hd1 Hd2].
    inversion Hd2 as [|t' p2' Hdt Hd2']. subst t' p2'.
    apply take_turn_quiet_when_busy; [apply Hdt| |exact Hflag].
    apply Forall_app. split; assumption.
Qed.

End Turns.

(** C2, as the code has it.  In every state the loop reaches from the
    initial one, whatever the host answers and in whatever order calls,
    timers and resumptions interleave, at most one generation is running,
    and one is running exactly when the flag is set.  [sendMessage] reads
    the flag in the turn of the loop in which it returns, after its
    inserts have settled, whatever the other tasks did in between: in each
    of its earlier turns, and when it throws, it leaves the timers and the
    flag as that turn found them; in the turn in which it returns it adds
    the timer of its text if it is a user turn and that turn found the
    flag clear, and no timer otherwise.  So while the flag is set no step
    of the loop, of whichever task, adds a timer: the timers stay as they
    are, or one of them fires, and the generation it starts returns at
    once and leaves the pool as it was.  A user turn whose last turn falls
    into a running generation is not answered, then or later; one that was
    called during a generation and returns after it is. *)
Theorem single_flight_guard (h : Host) (L : Loop) :
  reaches h (fun _ => True) initial_loop L ->
  (running_generations L <= 1)%nat /\
  running_generations L = (if isProcessing (loop_world L) then 1 else 0)%nat /\
  (forall text isUser w i,
     turnwise h unchanged (ChatBotService.sendMessage text isUser)
       (timer_rule text isUser) w w i) /\
  (isProcessing (loop_world L) = true ->
   forall L', step h (fun _ => True) L L' ->
     timers (loop_world L') = timers (loop_world L) \/
     exists l1 text l2,
       timers (loop_world L) = (l1 ++ text :: l2)%list /\
       L' = mkLoop (without_timers (loop_world L) (l1 ++ l2)) (pool L)
              (S (loop_tick L))).
Proof.
  intros Hr.
  destruct (reaches_single_flight h (fun _ => True) initial_loop L
              (initial_single_flight h) Hr) as [Hcount _].
  split; [rewrite Hcount; destruct (isProcessing (loop_world L)); lia|].
  split; [exact Hcount|].
  split; [intros text isUser w i; apply sendMessage_turnwise, unchanged_refl|].
  intros Hflag L' Hstep.
  apply (busy_step h (fun _ => True) L L'); [|exact Hflag|exact Hstep].
  apply (reaches_timid h (fun _ => True)). exact Hr.
Qed.

Lemma all_calls_allowed (cs : list Choice) : calls_allowed (fun _ => True) cs.
Proof.
  induction cs as [|c cs IH]; constructor; [destruct c; exact I|exact IH].
Qed.

Lemma single_flight_guard_witness :
  let h := scenario_host sc_offline in
  let L := loop_after h first_generation_running in
  let called := take_turn h false (program_of (CallSendMessage "second" true))
                  (loop_world L) (pool L) (loop_tick L) in
  let late := loop_after h second_turn_finishes_late in
  let answered := loop_after h late_second_turn_then_rest in
  isProcessing (loop_world L) = true /\
  running_generations L = 1%nat /\
  timers (loop_world called) = [] /\
  (isProcessing (loop_world late) = false /\
   timers (loop_world late) = ["second"] /\
   map is_generation (pool late) = []) /\
  messages_of answered
  = [("first", true); ("second", true); (ApiService.echo_text "first", false);
     (ApiService.echo_text "second", false)] /\
  timers (loop_world answered) = [] /\ pool answered = [].
Proof.
  cbv zeta.
  pose proof (single_flight_guard (scenario_host sc_offline)
                (loop_after (scenario_host sc_offline) first_generation_running)
                (loop_after_reaches (scenario_host sc_offline) (fun _ => True)
                   first_generation_running
                   (all_calls_allowed first_generation_running)))
    as (_ & Hcount & _ & Hbusy).
  assert (Hflag : isProcessing
                    (loop_world (loop_after (scenario_host sc_offline)
                                   first_generation_running)) = true)
    by (vm_compute; reflexivity).
  assert (Hnone : timers
                    (loop_world (loop_after (scenario_host sc_offline)
                                   first_generation_running)) = [])
    by (vm_compute; reflexivity).
  split; [exact Hflag|]. split; [rewrite Hcount, Hflag; reflexivity|].
  split.
  - destruct (Hbusy Hflag _ (step_call (scenario_host sc_offline) (fun _ => True)
                               (CallSendMessage "second" true) _ I))
      as [Hsame|(l1 & text & l2 & Hsplit & _)].
    + rewrite Hsame. exact Hnone.
    + rewrite Hnone in Hsplit. destruct l1; discriminate.
  - repeat split; vm_compute; reflexivity.
Defined.

(** With no timer pending and no task suspended, only a new call of the
    user interface can make the loop move. *)
Lemma quiescent_stuck (h : Host) (L : Loop) :
  timers (loop_world L) = [] -> pool L = [] ->
  forall L', ~ step h (fun _ => False) L L'.
Proof.
  intros Ht Hp L' Hstep.
  destruct Hstep as [a L Ha|L l1 l2 text Hl|L p1 p2 t Hl].
  - exact Ha.
  - rewrite Ht in Hl. destruct l1; discriminate.
  - rewrite Hp in Hl. destruct p1; discriminate.
Qed.

(** C2, as the claim has it, fails.  The second user message is sent
    while the generation for the first is running.  Both run to their end:
    the flag is clear again, no timer is pending and no task is left, so
    nothing will start a generation for the second message; the session
    holds both user messages and the reply to the first only. *)
Lemma second_message_gets_no_generation :
  let h := scenario_host sc_offline in
  let before := loop_after h first_generation_running in
  let after := loop_after h second_turn_then_rest in
  (isProcessing (loop_world before) = true /\ running_generations before = 1%nat) /\
  reaches h (fun _ => True) initial_loop after /\
  messages_of after
  = [("first", true); ("second", true); (ApiService.echo_text "first", false)] /\
  isProcessing (loop_world after) = false /\
  timers (loop_world after) = [] /\
  pool after = [] /\
  (forall L', ~ step h (fun _ => False) after L').
Proof.
  cbv zeta.
  assert (Ht : timers (loop_world (loop_after (scenario_host sc_offline)
                                     second_turn_then_rest)) = [])
    by (vm_compute; reflexivity).
  assert (Hp : pool (loop_after (scenario_host sc_offline) second_turn_then_rest) = [])
    by (vm_compute; reflexivity).
  split; [split; vm_compute; reflexivity|].
  split; [apply loop_after_reaches, all_calls_allowed|].
  split; [vm_compute; reflexivity|].
  split; [vm_compute; reflexivity|].
  split; [exact Ht|]. split; [exact Hp|].
  apply quiescent_stuck; assumption.
Qed.

(* ===================================================================== *)
(** ** A generation that fails *)
(* ===================================================================== *)





(* ===================================================================== *)
(** ** Timestamps of the active session *)
(* ===================================================================== *)

Section Respects.
Variable h : Host.
Variable Inv : World -> nat -> Prop.
Hypothesis Inv_tick : forall w i, Inv w i -> Inv w (S i).
Hypothesis Inv_sync :
  forall R (e : Sync R) w i,
    writes_session R e = false -> Inv w i -> Inv (snd (do_sync h e w i)) i.

Lemma respects_avoids {A : Type} (p : Prog A) :
  avoids writes_session p -> respects h Inv p.
Proof.
  intros Hp Q HQ w i Hw. apply (wp_avoids h Inv writes_session); auto.
Qed.

Lemma respects_bind {A B : Type} (p : Prog A) (f : A -> Prog B) :
  respects h Inv p -> (forall a, respects h Inv (f a)) -> respects h Inv (bind p f).
Proof.
  intros Hp Hf Q HQ w i Hw. apply wp_bind. apply Hp; [|exact Hw].
  intros [a|e] w' i' Hw'; [apply Hf; assumption|apply HQ; assumption].
Qed.

Lemma respects_try_catch {A : Type} (p : Prog A) (hd : JsError.t -> Prog A) :
  respects h Inv p -> (forall e, respects h Inv (hd e)) -> respects h Inv (try_catch p hd).
Proof.
  intros Hp Hh Q HQ w i Hw. apply wp_try_catch. apply Hp; [|exact Hw].
  intros [a|e] w' i' Hw'; [apply HQ; assumption|apply Hh; assumption].
Qed.

Lemma respects_try_finally {A : Type} (p : Prog A) (f : Prog unit) :
  respects h Inv p -> respects h Inv f -> respects h Inv (try_finally p f).
Proof.
  intros Hp Hf Q HQ w i Hw. apply wp_try_finally. apply Hp; [|exact Hw].
  intros r w' i' Hw'. apply Hf; [|exact Hw'].
  intros [[]|e'] w'' i'' Hw''; apply HQ; assumption.
Qed.

Lemma respects_await {A : Type} (p : Prog A) : respects h Inv p -> respects h Inv (await p).
Proof.
  intros Hp Q HQ w i Hw. apply wp_await. apply Hp; [|exact Hw].
  intros r w' i' Hw'. split; [exact Hw'|]. intros w'' i'' Hw''. apply HQ. exact Hw''.
Qed.

Lemma respects_ret {A : Type} (a : A) : respects h Inv (Ret a).
Proof. intros Q HQ w i Hw. apply HQ. exact Hw. Qed.

(** For a program without suspension point the logic is its run. *)
Lemma wp_synchronous {A : Type} (p : Prog A) (Q : Res A -> World -> nat -> Prop) :
  synchronous p ->
  forall w i,
    Q (result (run h p w i)) (world (run h p w i)) (tick (run h p w i)) ->
    wp h Inv p Q w i.
Proof.
  induction p as [a|e|R e k IH|R e k IH|k IH]; simpl; intros Hp w i H; auto;
    contradiction.
Qed.

End Respects.

Section Timestamps.
Variable h : Host.
Hypothesis clock_ok : clock_monotone h.

Lemma timestamps_ok_later (w : World) (i j : nat) :
  (i <= j)%nat -> timestamps_ok h w i -> timestamps_ok h w j.
Proof.
  unfold timestamps_ok. intros Hij Hw.
  destruct (currentSession w) as [s|]; [|exact I].
  destruct Hw as [Hs Hu]. split; [exact Hs|].
  pose proof (clock_ok i j Hij). lia.
Qed.

Lemma timestamps_ok_tick (w : World) (i : nat) :
  timestamps_ok h w i -> timestamps_ok h w (S i).
Proof. apply timestamps_ok_later. lia. Qed.

Lemma timestamps_ok_sync (R : Type) (e : Sync R) (w : World) (i : nat) :
  writes_session R e = false ->
  timestamps_ok h w i -> timestamps_ok h (snd (do_sync h e w i)) i.
Proof. unfold timestamps_ok. destruct e; simpl; auto; discriminate. Qed.

Lemma dated_avoids {A : Type} (p : Prog A) : avoids writes_session p -> dated h p.
Proof.
  apply respects_avoids; [apply timestamps_ok_tick|apply timestamps_ok_sync].
Qed.

(** The new session has no message, and its [updatedAt] is a reading of
    the clock. *)
Lemma createNewSession_dated (title : option string) :
  dated h (ChatBotService.createNewSession title).
Proof.
  intros Q HQ w i Hw.
  assert (Hrest : forall session,
             dated h (await (DatabaseService.saveChatSession session) ;;;
                    perform ReadCurrentSession)).
  { intros session. apply respects_bind.
    - apply respects_await, dated_avoids, saveChatSession_reads. tauto.
    - intros _. apply dated_avoids, avoids_perform. reflexivity. }
  assert (Hnew : forall id t k, (2 + i <= k)%nat ->
             timestamps_ok h
               (with_session w (Some (ChatSession.mk id t []
                                        (host_clock h (2 + i)) (host_clock h (2 + i)))))
               k).
  { intros id t k Hk. unfold timestamps_ok. simpl. split; [constructor|].
    apply clock_ok. exact Hk. }
  unfold ChatBotService.createNewSession, ChatBotService.freshId.
  destruct title as [[|c t]|]; unfold perform;
    cbn [bind wp do_sync fst snd];
    (apply Hrest; [exact HQ|]); apply Hnew; lia.
Qed.

(** The message is stamped before [updatedAt] is set, by the same clock. *)
Lemma appendMessage_dated (text : string) (isUser : bool) :
  dated h (ChatBotService.appendMessage text isUser).
Proof.
  intros Q HQ w i Hw. apply wp_synchronous.
  { unfold ChatBotService.appendMessage, ChatBotService.freshId,
      ChatBotService.currentSessionBang, perform. simpl.
    intros; repeat match goal with
                   | |- context [match ?x with _ => _ end] => destruct x; simpl
                   | |- forall _, _ => intro
                   end; exact I. }
  unfold timestamps_ok in Hw.
  destruct (currentSession w) as [s|] eqn:Hs.
  - rewrite (appendMessage_run h w i text isUser s Hs). cbn [result world tick].
    apply HQ. unfold timestamps_ok, with_session, appended. simpl.
    destruct Hw as [Hold Hu].
    pose proof (clock_ok i (6 + i)%nat ltac:(lia)).
    pose proof (clock_ok (2 + i)%nat (6 + i)%nat ltac:(lia)).
    pose proof (clock_ok (6 + i)%nat (8 + i)%nat ltac:(lia)).
    split; [|simpl in *; lia].
    unfold session_ok. simpl. apply Forall_app. split.
    + unfold session_ok in Hold. eapply Forall_impl; [|exact Hold].
      simpl. intros m Hm. simpl in *. lia.
    + constructor; [|constructor]. simpl in *. lia.
  - apply HQ.
    unfold ChatBotService.appendMessage, ChatBotService.freshId,
      ChatBotService.currentSessionBang, perform.
    simpl. rewrite Hs. simpl. unfold timestamps_ok. rewrite Hs. exact I.
Qed.

Lemma sendMessage_dated (text : string) (isUser : bool) :
  dated h (ChatBotService.sendMessage text isUser).
Proof.
  unfold ChatBotService.sendMessage.
  apply respects_bind.
  { unfold ChatBotService.ensureSession. apply respects_bind.
    - apply dated_avoids, avoids_perform. reflexivity.
    - intros [s|]; [apply respects_ret|].
      apply respects_bind; [|intros; apply respects_ret].
      apply respects_await, createNewSession_dated. }
  intros _. apply respects_bind; [apply appendMessage_dated|].
  intros message. apply respects_bind.
  { apply dated_avoids, persistMessage_avoids. tauto. }
  intros _. apply respects_bind; [|intros; apply respects_ret].
  apply dated_avoids. unfold ChatBotService.scheduleResponse. avoids_methods.
Qed.

Lemma generateResponse_dated (text : string) :
  dated h (ChatBotService.generateResponse text).
Proof.
  unfold ChatBotService.generateResponse.
  apply respects_bind; [apply dated_avoids, avoids_perform; reflexivity|].
  intros [|]; [apply respects_ret|].
  apply respects_bind; [apply dated_avoids, avoids_perform; reflexivity|].
  intros _. unfold ChatBotService.generation.
  apply respects_try_finally; [|apply dated_avoids, avoids_perform; reflexivity].
  apply respects_try_catch.
  - apply respects_bind; [apply dated_avoids, resolveResponse_reads; tauto|].
    intros response. apply respects_bind; [|intros; apply respects_ret].
    apply respects_await, sendMessage_dated.
  - intros error. apply respects_bind; [|intros; apply respects_ret].
    apply respects_await, sendMessage_dated.
Qed.

Lemma deleteSession_dated (sessionId : string) :
  dated h (ChatBotService.deleteSession sessionId).
Proof.
  intros Q HQ w i Hw. unfold ChatBotService.deleteSession, perform. simpl.
  destruct (currentSession w) as [s|] eqn:Hs; simpl.
  - destruct (String.eqb (ChatSession.id s) sessionId); simpl; apply HQ.
    + exact I.
    + apply timestamps_ok_tick. exact Hw.
  - apply HQ. apply timestamps_ok_tick. exact Hw.
Qed.

Lemma program_of_dated (a : Action) : builds_sessions a -> dated h (program_of a).
Proof.
  destruct a; simpl; intros Ha; try contradiction; unfold forget.
  - apply respects_bind; [apply createNewSession_dated|intros; apply respects_ret].
  - apply respects_bind; [apply sendMessage_dated|intros; apply respects_ret].
  - apply respects_bind; [|intros; apply respects_ret].
    unfold ChatBotService.getAllSessions.
    apply respects_await, dated_avoids, getChatSessions_reads. tauto.
  - apply deleteSession_dated.
Qed.

Lemma take_turn_dated (g : bool) (p : Prog unit) (w : World) (others : list Task)
  (i : nat) :
  wp h (timestamps_ok h) p (fun _ w' i' => timestamps_ok h w' i') w i ->
  Forall (task_dated h) others ->
  loop_dated h (take_turn h g p w others i).
Proof.
  intros Hp Hd. unfold take_turn, loop_dated.
  pose proof (wp_slice h (timestamps_ok h) p _ w i Hp) as Hs.
  destruct (slice h p w i) as [[[r|pd] w'] i']; simpl in *.
  - split; assumption.
  - destruct Hs as [Hw Hnext]. split; [exact Hw|].
    apply Forall_app. split; [exact Hd|]. constructor; [|constructor].
    exact Hnext.
Qed.

Lemma step_dated (L L' : Loop) :
  loop_dated h L -> step h builds_sessions L L' -> loop_dated h L'.
Proof.
  intros [Hw Hd] Hstep.
  destruct Hstep as [a L Ha|L l1 l2 text Ht|L p1 p2 t Hp].
  - apply take_turn_dated; [|exact Hd].
    apply (program_of_dated a Ha); [auto|exact Hw].
  - apply take_turn_dated; [|exact Hd].
    apply (generateResponse_dated text); [auto|exact Hw].
  - rewrite Hp in Hd. apply Forall_app in Hd. destruct Hd as [Hd1 Hd2].
    inversion Hd2 as [|t' p2' Hdt Hd2']. subst t' p2'.
    apply take_turn_dated; [|apply Forall_app; split; assumption].
    apply Hdt. exact Hw.
Qed.

Lemma reaches_dated (L : Loop) :
  reaches h builds_sessions initial_loop L -> loop_dated h L.
Proof.
  intros Hr. induction Hr as [|L L' Hr IH Hstep].
  - split; [exact I|constructor].
  - apply (step_dated L L'); assumption.
Qed.

End Timestamps.

(** C7, as the code has it.  With a clock that never goes back, in every state the loop
    reaches through [createNewSession] and [sendMessage] (user turns and
    the assistant turns of the generations, ended or failed, in any
    interleaving; [getAllSessions] and [deleteSession] included), the
    [updatedAt] of the active session is not before the timestamp of any
    of its messages. *)
Theorem updatedAt_dominates (h : Host) (L : Loop) :
  clock_monotone h ->
  reaches h builds_sessions initial_loop L ->
  match currentSession (loop_world L) with
  | Some s =>
      Forall (fun m => Message.timestamp m <= ChatSession.updatedAt s)
        (ChatSession.messages s)
  | None => True
  end.
Proof.
  intros Hclock Hr.
  destruct (reaches_dated h Hclock L Hr) as [Hw _].
  unfold timestamps_ok in Hw.
  destruct (currentSession (loop_world L)) as [s|]; [|exact I].
  exact (proj1 Hw).
Qed.

Lemma scenario_clock_monotone (sc : Scenario) : clock_monotone (scenario_host sc).
Proof. intros i j Hij. unfold scenario_host. cbn [host_clock]. lia. Qed.

Lemma updatedAt_dominates_witness :
  let h := scenario_host sc_offline in
  let L := loop_after h second_turn_then_rest in
  clock_monotone h /\
  length (ChatSession.messages (the_session (loop_world L))) = 3%nat /\
  match currentSession (loop_world L) with
  | Some s =>
      Forall (fun m => Message.timestamp m <= ChatSession.updatedAt s)
        (ChatSession.messages s)
  | None => True
  end.
Proof.
  cbv zeta.
  split; [apply scenario_clock_monotone|].
  split; [vm_compute; reflexivity|].
  apply (updatedAt_dominates (scenario_host sc_offline)
           (loop_after (scenario_host sc_offline) second_turn_then_rest)
           (scenario_clock_monotone sc_offline)).
  apply loop_after_reaches.
  unfold second_turn_then_rest, first_generation_running. simpl.
  repeat constructor.
Defined.

(** C7, as the claim has it, fails.  [sendMessage] reads the clock for the
    timestamp of the message and again, later, for [updatedAt]; nothing
    makes the second reading the larger one.  With a clock that steps
    back, the first user turn leaves, in a state the loop reaches through
    [sendMessage] alone, a session whose [updatedAt] (4984) is before the
    timestamp of the message it holds (4988). *)
Lemma updatedAt_behind_after_clock_step_back :
  let L := loop_after backward_host first_turn_appends in
  reaches backward_host builds_sessions initial_loop L /\
  currentSession (loop_world L)
  = Some (ChatSession.mk "session_4999_4fzyo82mv" "Chat 1/1/2025"
            [Message.mk "msg_4990_4fzyo82mv" "hi" true 4988 None] 4997 4984) /\
  ~ Forall (fun m => Message.timestamp m <= ChatSession.updatedAt (the_session (loop_world L)))
      (ChatSession.messages (the_session (loop_world L))).
Proof.
  cbv zeta. split; [|split].
  - apply loop_after_reaches. unfold first_turn_appends. simpl. repeat constructor.
  - vm_compute. reflexivity.
  - intros Hall. vm_compute in Hall. inversion Hall as [|m l Hm Hl]. apply Hm. reflexivity.
Qed.

(* ===================================================================== *)
(** ** Equations of [asks] *)
(* ===================================================================== *)

Section AsksEquations.
Variable h : Host.

Lemma asks_bind {A B : Type} (p : Prog A) (f : A -> Prog B) :
  forall w i,
    asks h (bind p f) w i =
    (asks h p w i ++
     match result (run h p w i) with
     | Ok a => asks h (f a) (world (run h p w i)) (tick (run h p w i))
     | Err _ => []
     end)%list.
Proof.
  induction p as [a|e|R e k IH|R e k IH|k IH]; simpl; intros w i; auto.
  rewrite IH. reflexivity.
Qed.

Lemma asks_try_catch {A : Type} (p : Prog A) (hd : JsError.t -> Prog A) :
  forall w i,
    asks h (try_catch p hd) w i =
    (asks h p w i ++
     match result (run h p w i) with
     | Ok _ => []
     | Err e => asks h (hd e) (world (run h p w i)) (tick (run h p w i))
     end)%list.
Proof.
  induction p as [a|e|R e k IH|R e k IH|k IH]; simpl; intros w i; auto.
  rewrite IH. reflexivity.
Qed.

Lemma asks_try_finally {A : Type} (p : Prog A) (f : Prog unit) :
  forall w i,
    asks h (try_finally p f) w i =
    (asks h p w i ++ asks h f (world (run h p w i)) (tick (run h p w i)))%list.
Proof.
  induction p as [a|e|R e k IH|R e k IH|k IH]; simpl; intros w i; auto.
  - rewrite asks_bind. destruct (result (run h f w i)); simpl;
      rewrite app_nil_r; reflexivity.
  - rewrite asks_bind. destruct (result (run h f w i)); simpl;
      rewrite app_nil_r; reflexivity.
  - rewrite IH. reflexivity.
Qed.

Lemma asks_await {A : Type} (p : Prog A) :
  forall w i, asks h (await p) w i = asks h p w i.
Proof.
  induction p as [a|e|R e k IH|R e k IH|k IH]; simpl; intros w i; auto.
  rewrite IH. reflexivity.
Qed.

(** A program without suspension point asks nothing. *)
Lemma asks_synchronous {A : Type} (p : Prog A) :
  synchronous p -> forall w i, asks h p w i = [].
Proof.
  induction p as [a|e|R e k IH|R e k IH|k IH]; simpl; intros Hp w i; auto;
    contradiction.
Qed.

End AsksEquations.

(* ===================================================================== *)
(** ** The remote stage of the resolver *)
(* ===================================================================== *)

Section RemoteStage.
Variable h : Host.

(** The chat call with the network up: one request, to the configured
    URL with the configured timeout. *)
Lemma getChatbotResponse_connected (w : World) (i : nat) (message : string)
  (context : option (list string)) :
  host_async h NetInfoFetch i = Ok (Some true) ->
  let request :=
    AxiosPostChatbot (baseURL w ++ "/chatbot") message
      (match context with Some c => c | None => [] end)
      (host_clock h (2 + i)) (timeout w) in
  run h (ApiService.getChatbotResponse message context) w i =
  mkOutcome
    (Ok (match host_async h request (4 + i) with
         | Ok d => ApiResponse.mk true d (Some "Response generated successfully") None
         | Err e => ApiService.handleApiError e
         end)) w (5 + i) /\
  asks h (ApiService.getChatbotResponse message context) w i =
  [asked NetInfoFetch; asked request].
Proof.
  intros Hnet request. unfold ApiService.getChatbotResponse,
    ApiService.checkNetworkConnection, wait, perform.
  subst request. simpl. rewrite Hnet. simpl.
  destruct (host_async h _ (S (S (S (S i))))); simpl; split; reflexivity.
Qed.

Lemma resolveResponse_remote (w : World) (i : nat) (text : string) :
  result (run h (DatabaseService.searchCompanyData text) w i) = Ok [] ->
  forall d : Res (option ChatBotResponse.t),
    (forall url message context ts tmo j,
        host_async h (AxiosPostChatbot url message context ts tmo) j = d) ->
    result (run h (ChatBotService.resolveResponse text) w i) =
    Ok (match host_async h NetInfoFetch
                (tick (run h (DatabaseService.searchCompanyData text) w i)), d with
        | Ok (Some true), Ok (Some data) => data
        | _, _ => ApiService.generateMockResponse text
        end).
Proof.
  intros Hs d Hd. unfold ChatBotService.resolveResponse.
  rewrite run_bind, run_await, Hs, run_bind, run_await.
  set (w1 := world (run h (DatabaseService.searchCompanyData text) w i)).
  set (i1 := tick (run h (DatabaseService.searchCompanyData text) w i)).
  destruct (host_async h NetInfoFetch i1) as [[[|]|]|e] eqn:Hnet.
  - destruct (getChatbotResponse_connected w1 i1 text None Hnet) as [Hrun _].
    rewrite Hrun. cbn [result world tick]. rewrite Hd.
    destruct d as [[data|]|e]; simpl; try reflexivity.
    unfold ApiService.handleApiError.
    destruct (JsError.response e); [|destruct (JsError.request e)]; reflexivity.
  - unfold ApiService.getChatbotResponse, ApiService.checkNetworkConnection, wait.
    simpl. rewrite Hnet. reflexivity.
  - unfold ApiService.getChatbotResponse, ApiService.checkNetworkConnection, wait.
    simpl. rewrite Hnet. reflexivity.
  - unfold ApiService.getChatbotResponse, ApiService.checkNetworkConnection, wait.
    simpl. rewrite Hnet. simpl. unfold ApiService.handleApiError.
    destruct (JsError.response e); [|destruct (JsError.request e)]; reflexivity.
Qed.

End RemoteStage.

(** X1.  With no candidate from the local store, the network up and the
    remote service answering with a payload, the reply of the resolver is
    that payload as it is: text, confidence, source and related topics
    are the ones the service supplied. *)
Theorem remote_payload_is_the_reply (h : Host) (w : World) (i : nat) (text : string)
  (data : ChatBotResponse.t) :
  result (run h (DatabaseService.searchCompanyData text) w i) = Ok [] ->
  online h ->
  remote_answers h (Some data) ->
  result (run h (ChatBotService.resolveResponse text) w i) = Ok data.
Proof.
  intros Hs Hon Hd.
  rewrite (resolveResponse_remote h w i text Hs (Ok (Some data)) Hd).
  rewrite Hon. reflexivity.
Qed.

Lemma remote_payload_is_the_reply_witness :
  result (run (scenario_host sc_remote)
            (ChatBotService.resolveResponse "What is your refund policy?")
            initial_world 0)
  = Ok (ChatBotResponse.mk "Refunds are handled by the billing team." (95 # 100)
          api_src None).
Proof.
  apply (remote_payload_is_the_reply (scenario_host sc_remote) initial_world 0
           "What is your refund policy?" remote_answer).
  - reflexivity.
  - intros j. reflexivity.
  - intros url message context ts tmo j. reflexivity.
Defined.

(** X2.  With no candidate from the local store, a remote service that
    gives no payload (it rejects the request, or answers with an empty
    body) leads to the reply of the offline generator, whatever the
    connectivity: a successful answer without data is not used. *)
Theorem remote_without_payload_falls_back (h : Host) (w : World) (i : nat)
  (text : string) :
  result (run h (DatabaseService.searchCompanyData text) w i) = Ok [] ->
  remote_answers h None \/ (exists e, remote_rejects h e) ->
  result (run h (ChatBotService.resolveResponse text) w i) =
  Ok (ApiService.generateMockResponse text).
Proof.
  intros Hs [Hd|[e Hd]].
  - rewrite (resolveResponse_remote h w i text Hs (Ok None) Hd).
    destruct (host_async h NetInfoFetch _) as [[[|]|]|?]; reflexivity.
  - rewrite (resolveResponse_remote h w i text Hs (Err e) Hd).
    destruct (host_async h NetInfoFetch _) as [[[|]|]|?]; reflexivity.
Qed.

Lemma remote_without_payload_falls_back_witness :
  result (run (scenario_host sc_empty_body)
            (ChatBotService.resolveResponse "thank you") initial_world 0)
  = Ok ApiService.thanks.
Proof.
  apply (remote_without_payload_falls_back (scenario_host sc_empty_body)
           initial_world 0 "thank you").
  - reflexivity.
  - left. intros url message context ts tmo j. reflexivity.
Defined.

(* ===================================================================== *)
(** ** The remote calls: what is sent *)
(* ===================================================================== *)


Lemma guarded_asks_offline (h : Host) {D : Type}
  (body : Prog (ApiResponse.t D)) (w : World) (i : nat) :
  offline h ->
  asks h
    (try_catch
       (isConnected <- await ApiService.checkNetworkConnection ;;
        if negb isConnected then Ret ApiService.noConnection else body)
       (fun error => Ret (ApiService.handleApiError error))) w i =
  [asked NetInfoFetch].
Proof.
  intros Hoff. unfold ApiService.checkNetworkConnection, wait. simpl.
  specialize (Hoff i).
  destruct (host_async h NetInfoFetch i) as [[[|]|]|e]; simpl;
    try reflexivity.
  congruence.
Qed.

(** X4.  Without connectivity no remote call sends an HTTP request: the
    only thing each of the five calls asks of the host is the
    connectivity probe. *)
Theorem no_request_without_connectivity (h : Host) (w : World) (i : nat) :
  offline h ->
  (forall query,
      asks h (ApiService.searchCompanyData query) w i = [asked NetInfoFetch]) /\
  (forall message context,
      asks h (ApiService.getChatbotResponse message context) w i =
      [asked NetInfoFetch]) /\
  (forall audioPath,
      asks h (ApiService.uploadAudioFile audioPath) w i = [asked NetInfoFetch]) /\
  asks h ApiService.getCompanyDataCategories w i = [asked NetInfoFetch] /\
  (forall lastSyncTimestamp,
      asks h (ApiService.syncLocalData lastSyncTimestamp) w i =
      [asked NetInfoFetch]).
Proof.
  intros Hoff. repeat split; intros; apply guarded_asks_offline; exact Hoff.
Qed.

Lemma no_request_without_connectivity_witness :
  asks (scenario_host sc_offline) (ApiService.uploadAudioFile "/tmp/rec.wav")
    initial_world 0 = [asked NetInfoFetch].
Proof.
  apply (no_request_without_connectivity (scenario_host sc_offline)
           initial_world 0).
  intros j. simpl. discriminate.
Defined.

(** X5.  With the network up each call sends exactly one request, to the
    endpoint under the base URL set by [setBaseURL].  The search, chat and
    categories requests carry the timeout set by [setTimeout]; the audio
    upload and the synchronisation always use 30000 ms, whatever was set.
    The search asks for at most 10 results. *)
Theorem requests_follow_configuration (h : Host) (w : World) (i : nat)
  (url : string) (tmo : Z) :
  online h ->
  let w' := ApiServiceConfig.setTimeout tmo (ApiServiceConfig.setBaseURL url w) in
  (forall query,
      asks h (ApiService.searchCompanyData query) w' i =
      [asked NetInfoFetch; asked (AxiosGetSearch (url ++ "/search") query 10 tmo)]) /\
  (forall message context,
      asks h (ApiService.getChatbotResponse message context) w' i =
      [asked NetInfoFetch;
       asked (AxiosPostChatbot (url ++ "/chatbot") message
                (match context with Some c => c | None => [] end)
                (host_clock h (2 + i)) tmo)]) /\
  (forall audioPath,
      asks h (ApiService.uploadAudioFile audioPath) w' i =
      [asked NetInfoFetch;
       asked (AxiosPostAudio (url ++ "/audio/upload") audioPath 30000)]) /\
  asks h ApiService.getCompanyDataCategories w' i =
  [asked NetInfoFetch; asked (AxiosGetCategories (url ++ "/categories") tmo)] /\
  (forall lastSyncTimestamp,
      asks h (ApiService.syncLocalData lastSyncTimestamp) w' i =
      [asked NetInfoFetch;
       asked (AxiosGetSync (url ++ "/sync")
                (match lastSyncTimestamp with
                 | Some EmptyString | None => None
                 | Some s => Some s
                 end) 30000)]).
Proof.
  intros Hon w'.
  repeat split; intros;
    unfold ApiService.searchCompanyData, ApiService.getChatbotResponse,
      ApiService.uploadAudioFile, ApiService.getCompanyDataCategories,
      ApiService.syncLocalData, ApiService.checkNetworkConnection, wait, perform;
    simpl; rewrite Hon; simpl;
    match goal with
    | |- context [host_async h ?ev ?j] => destruct (host_async h ev j)
    end; reflexivity.
Qed.

Lemma requests_follow_configuration_witness :
  asks (scenario_host sc_remote) (ApiService.uploadAudioFile "/tmp/rec.wav")
    (ApiServiceConfig.setTimeout 2500
       (ApiServiceConfig.setBaseURL "https://staging.example.com" initial_world)) 0
  = [asked NetInfoFetch;
     asked (AxiosPostAudio "https://staging.example.com/audio/upload"
              "/tmp/rec.wav" 30000)].
Proof.
  apply (requests_follow_configuration (scenario_host sc_remote) initial_world 0
           "https://staging.example.com" 2500).
  intros j. reflexivity.
Defined.

(* ===================================================================== *)
(** ** Persistence: the statements of a turn *)
(* ===================================================================== *)

Lemma requireDatabase_open (h : Host) (w : World) (i : nat) (d : SQLiteDatabase) :
  database w = Some d ->
  run h DatabaseService.requireDatabase w i = mkOutcome (Ok d) w (S i) /\
  asks h DatabaseService.requireDatabase w i = [].
Proof.
  intros Hd. unfold DatabaseService.requireDatabase, perform. simpl.
  rewrite Hd. split; reflexivity.
Qed.

Lemma currentSessionBang_active (h : Host) (w : World) (i : nat) (s : ChatSession.t) :
  currentSession w = Some s ->
  run h ChatBotService.currentSessionBang w i = mkOutcome (Ok s) w (S i) /\
  asks h ChatBotService.currentSessionBang w i = [].
Proof.
  intros Hs. unfold ChatBotService.currentSessionBang, perform. simpl.
  rewrite Hs. split; reflexivity.
Qed.

Section Persistence.
Variable h : Host.
Hypothesis Hins : inserts_succeed h.

Lemma saveMessage_accepted (w : World) (i : nat) (sessionId : string)
  (message : Message.t) :
  database w <> None ->
  run h (DatabaseService.saveMessage sessionId message) w i
  = mkOutcome (Ok tt) w (2 + i) /\
  asks h (DatabaseService.saveMessage sessionId message) w i
  = [insert_of_message sessionId message].
Proof.
  intros Hdb. unfold DatabaseService.saveMessage, DatabaseService.requireDatabase,
    wait, perform, insert_of_message. simpl.
  destruct (database w) as [d|]; [|congruence]. simpl.
  match goal with
  | |- context [host_async h ?ev ?j] =>
      destruct (Hins _ ev j eq_refl) as [[] Hr]; rewrite Hr
  end.
  split; reflexivity.
Qed.

Lemma saveAll_accepted (sessionId : string) (l : list Message.t) :
  forall w i,
    database w <> None ->
    run h (forEach l (fun message =>
                        await (DatabaseService.saveMessage sessionId message))) w i
    = mkOutcome (Ok tt) w (2 * length l + i) /\
    asks h (forEach l (fun message =>
                         await (DatabaseService.saveMessage sessionId message))) w i
    = map (insert_of_message sessionId) l.
Proof.
  induction l as [|m l IH]; intros w i Hdb; [split; reflexivity|].
  cbn [forEach]. rewrite run_bind, asks_bind, run_await, asks_await.
  destruct (saveMessage_accepted w i sessionId m Hdb) as [Hr Ha].
  rewrite Hr, Ha. cbn [result world tick].
  destruct (IH w (2 + i)%nat Hdb) as [Hr' Ha'].
  rewrite Hr', Ha'. split; [|reflexivity].
  f_equal. cbn [length]. lia.
Qed.

Lemma saveChatSession_accepted (w : World) (i : nat) (s : ChatSession.t) :
  database w <> None ->
  run h (DatabaseService.saveChatSession (Some s)) w i
  = mkOutcome (Ok tt) w (2 * length (ChatSession.messages s) + (2 + i)) /\
  asks h (DatabaseService.saveChatSession (Some s)) w i
  = insert_of_session s
    :: map (insert_of_message (ChatSession.id s)) (ChatSession.messages s).
Proof.
  intros Hdb.
  destruct (saveAll_accepted (ChatSession.id s) (ChatSession.messages s) w
              (2 + i)%nat Hdb) as [Hr Ha].
  destruct (database w) as [d|] eqn:Hd; [|congruence].
  destruct (requireDatabase_open h w i d Hd) as [Hr0 Ha0].
  unfold DatabaseService.saveChatSession.
  rewrite run_bind, asks_bind, Hr0, Ha0. cbn [result world tick app].
  rewrite run_bind, asks_bind. unfold wait. cbn [run asks].
  match goal with
  | |- context [host_async h ?ev ?j] =>
      destruct (Hins _ ev j eq_refl) as [[] Hev]; rewrite Hev
  end.
  cbn [run asks result world tick app].
  change (S (S i)) with (2 + i)%nat.
  rewrite Hr, Ha. split; reflexivity.
Qed.

Lemma persistMessage_accepted (w : World) (i : nat) (s : ChatSession.t)
  (message : Message.t) :
  database w <> None ->
  currentSession w = Some s ->
  run h (ChatBotService.persistMessage message) w i
  = mkOutcome (Ok tt) w (2 * length (ChatSession.messages s) + (6 + i)) /\
  asks h (ChatBotService.persistMessage message) w i
  = insert_of_message (ChatSession.id s) message
    :: insert_of_session s
    :: map (insert_of_message (ChatSession.id s)) (ChatSession.messages s).
Proof.
  intros Hdb Hs.
  destruct (saveMessage_accepted w (S i) (ChatSession.id s) message Hdb) as [Hr1 Ha1].
  destruct (saveChatSession_accepted w (4 + i)%nat s Hdb) as [Hr2 Ha2].
  destruct (currentSessionBang_active h w i s Hs) as [Hr0 Ha0].
  unfold ChatBotService.persistMessage.
  rewrite run_bind, asks_bind, Hr0, Ha0. cbn [result world tick app].
  rewrite run_bind, asks_bind, run_await, asks_await, Hr1, Ha1.
  cbn [result world tick app].
  rewrite run_bind, asks_bind. unfold perform. cbn [run asks].
  cbn [do_sync fst snd]. rewrite Hs. cbn [result world tick app].
  rewrite run_await, asks_await.
  change (S (2 + S i)) with (4 + i)%nat.
  rewrite Hr2, Ha2. split; reflexivity.
Qed.

End Persistence.

Lemma appendMessage_synchronous (text : string) (isUser : bool) :
  synchronous (ChatBotService.appendMessage text isUser).
Proof.
  unfold ChatBotService.appendMessage, ChatBotService.freshId,
    ChatBotService.currentSessionBang, perform. simpl.
  intros r1 r2 r3 [s|]; simpl; [|exact I].
  intros [] [s'|]; simpl; [|exact I]. intros r4 []. exact I.
Qed.

Lemma scheduleResponse_synchronous (text : string) (isUser : bool) :
  synchronous (ChatBotService.scheduleResponse text isUser).
Proof.
  unfold ChatBotService.scheduleResponse, perform. simpl.
  intros r. destruct (andb isUser (negb r)); simpl; [intros []|]; exact I.
Qed.

Lemma ensureSession_asks (h : Host) (w : World) (i : nat) (s : ChatSession.t) :
  currentSession w = Some s -> asks h ChatBotService.ensureSession w i = [].
Proof.
  intros Hs. unfold ChatBotService.ensureSession, perform. simpl.
  rewrite Hs. reflexivity.
Qed.

Section Turn.
Variable h : Host.
Hypothesis Hins : inserts_succeed h.

Lemma sendMessage_accepted (w : World) (i : nat) (text : string) (isUser : bool)
  (s : ChatSession.t) :
  database w <> None ->
  currentSession w = Some s ->
  let m := message_at h (S i) text isUser in
  let s' := appended h (S i) text isUser s in
  let o := run h (ChatBotService.sendMessage text isUser) w i in
  result o = Ok m /\
  world o = (if andb isUser (negb (isProcessing w))
             then with_timer (with_session w (Some s')) text
             else with_session w (Some s')) /\
  asks h (ChatBotService.sendMessage text isUser) w i
  = insert_of_message (ChatSession.id s) m
    :: insert_of_session s'
    :: map (insert_of_message (ChatSession.id s)) (ChatSession.messages s ++ [m]).
Proof.
  intros Hdb Hs m s' o. subst o.
  assert (Hdb' : database (with_session w (Some s')) <> None) by exact Hdb.
  destruct (persistMessage_accepted h Hins (with_session w (Some s')) (9 + i) s' m
              Hdb' eq_refl) as [Hr Ha].
  unfold ChatBotService.sendMessage.
  rewrite run_bind, asks_bind, (ensureSession_run h w i s Hs),
    (ensureSession_asks h w i s Hs).
  cbn [result world tick app].
  rewrite run_bind, asks_bind, (appendMessage_run h w (S i) text isUser s Hs),
    (asks_synchronous h _ (appendMessage_synchronous text isUser)).
  cbn [result world tick app].
  fold m s'. change (8 + S i)%nat with (9 + i)%nat.
  rewrite run_bind, asks_bind, Hr, Ha. cbn [result world tick].
  rewrite run_bind, asks_bind, scheduleResponse_run,
    (asks_synchronous h _ (scheduleResponse_synchronous text isUser)).
  change (isProcessing (with_session w (Some s'))) with (isProcessing w).
  destruct (andb isUser (negb (isProcessing w))); cbn [result world tick run asks];
    rewrite !app_nil_r; repeat split; reflexivity.
Qed.

End Turn.

Lemma scenario_inserts_succeed (sc : Scenario) :
  sc_insert sc = Ok tt -> inserts_succeed (scenario_host sc).
Proof.
  intros Hsc R ev j Hev.
  destruct ev; try discriminate Hev; exists tt; exact Hsc.
Qed.

(** X6.  With an active session and a store that accepts the inserts, a
    turn that runs with no other task between its steps sends, in this
    order: the insert of the new message, the insert of the session (with
    the new [updatedAt]), then one insert for every message of the
    session, the new one included.  Such a turn on a session of [n]
    messages sends [n + 3] statements, and the new message is written
    twice.  ([asks] is the trace of a run on its own; nothing is said of
    a turn during whose inserts another task pushes a message on the
    session.) *)
Theorem turn_statements (h : Host) (w : World) (i : nat) (text : string)
  (isUser : bool) (s : ChatSession.t) :
  inserts_succeed h ->
  database w <> None ->
  currentSession w = Some s ->
  let m := message_at h (S i) text isUser in
  let sent := asks h (ChatBotService.sendMessage text isUser) w i in
  sent = insert_of_message (ChatSession.id s) m
         :: insert_of_session (appended h (S i) text isUser s)
         :: map (insert_of_message (ChatSession.id s)) (ChatSession.messages s ++ [m]) /\
  length sent = (length (ChatSession.messages s) + 3)%nat.
Proof.
  intros Hins Hdb Hs m sent.
  destruct (sendMessage_accepted h Hins w i text isUser s Hdb Hs) as (_ & _ & Ha).
  subst sent. rewrite Ha. split; [reflexivity|].
  cbn [length]. rewrite length_map, length_app. cbn [length]. lia.
Qed.

Lemma turn_statements_witness :
  asks (scenario_host sc_offline) (ChatBotService.sendMessage "second" true)
    (session_world one_message_session) 0
  = [asked (SqlInsertMessage "msg_1001_4fzyo82mv" "session_1_abc" "second" 1 None 1003);
     asked (SqlInsertSession "session_1_abc" "Chat 1/1/2025" 1 1007);
     asked (SqlInsertMessage "msg_1_abc" "session_1_abc" "first" 1 None 1);
     asked (SqlInsertMessage "msg_1001_4fzyo82mv" "session_1_abc" "second" 1 None 1003)].
Proof.
  apply (turn_statements (scenario_host sc_offline)
           (session_world one_message_session) 0 "second" true one_message_session).
  - apply scenario_inserts_succeed. reflexivity.
  - discriminate.
  - reflexivity.
Defined.

Lemma createNewSession_outcome (h : Host) (w : World) (i : nat)
  (title : option string) :
  let s := fresh_session h i title in
  let o := run h (ChatBotService.createNewSession title) w i in
  currentSession (world o) = Some s /\
  (result o = Ok (Some s) \/ exists e, result o = Err e) /\
  asks h (ChatBotService.createNewSession title) w i
  = match database w with
    | Some _ => [insert_of_session s]
    | None => []
    end.
Proof.
  intros s o. subst s o.
  unfold ChatBotService.createNewSession, ChatBotService.freshId,
    DatabaseService.saveChatSession, DatabaseService.requireDatabase,
    fresh_session, insert_of_session, wait, perform.
  destruct title as [[|c t]|]; simpl;
    (destruct (database w) as [d|]; simpl;
     [ match goal with
       | |- context [host_async h ?ev ?j] => destruct (host_async h ev j) as [[]|e]
       end; simpl|]);
    repeat split; try reflexivity; try (left; reflexivity);
    try (right; eexists; reflexivity).
Qed.

(** X7.  [createNewSession] makes the new session the active one before
    it saves it.  Whatever the store does (closed, rejecting, accepting),
    the active session after the call is the new one: no message,
    [createdAt = updatedAt], the given title or, for an absent or empty
    title, the default one.  The call either returns that session or
    throws; it sends at most one statement, the insert of the session. *)
Theorem createNewSession_installs (h : Host) (w : World) (i : nat)
  (title : option string) :
  let s := fresh_session h i title in
  let o := run h (ChatBotService.createNewSession title) w i in
  currentSession (world o) = Some s /\
  ChatSession.messages s = [] /\
  ChatSession.createdAt s = ChatSession.updatedAt s /\
  (title = Some "" -> ChatSession.title s = ChatSession.title (fresh_session h i None)) /\
  (result o = Ok (Some s) \/ exists e, result o = Err e) /\
  asks h (ChatBotService.createNewSession title) w i
  = match database w with
    | Some _ => [insert_of_session s]
    | None => []
    end.
Proof.
  intros s o.
  destruct (createNewSession_outcome h w i title) as (Hs & Hr & Ha).
  split; [exact Hs|]. split; [reflexivity|]. split; [reflexivity|].
  split; [intros Ht; subst s; rewrite Ht; reflexivity|].
  split; [exact Hr|exact Ha].
Qed.

(* ===================================================================== *)
(** ** A turn the store rejects *)
(* ===================================================================== *)

(** A [sendMessage] that throws has set no timer: the timer is its last
    statement. *)
Lemma sendMessage_thrown_no_timer (h : Host) (w : World) (i : nat) (text : string)
  (isUser : bool) (e : JsError.t) :
  result (run h (ChatBotService.sendMessage text isUser) w i) = Err e ->
  timers (world (run h (ChatBotService.sendMessage text isUser) w i)) = timers w.
Proof.
  unfold ChatBotService.sendMessage. rewrite run_bind.
  pose proof (run_avoids_timer h ChatBotService.ensureSession ensureSession_no_timer w i) as Ht0.
  set (o0 := run h ChatBotService.ensureSession w i) in *.
  destruct (result o0) as [[]|e0]; cbn [result world tick]; [|intros _; exact Ht0].
  rewrite run_bind.
  pose proof (run_avoids_timer h (ChatBotService.appendMessage text isUser)
                (appendMessage_no_timer text isUser) (world o0) (tick o0)) as Ht1.
  set (o1 := run h (ChatBotService.appendMessage text isUser) (world o0) (tick o0)) in *.
  destruct (result o1) as [m|e1]; cbn [result world tick]; [|intros _; congruence].
  rewrite run_bind.
  pose proof (run_avoids_timer h (ChatBotService.persistMessage m)
                (persistMessage_avoids sets_timer m ltac:(tauto)) (world o1) (tick o1)) as Ht2.
  set (o2 := run h (ChatBotService.persistMessage m) (world o1) (tick o1)) in *.
  destruct (result o2) as [[]|e2]; cbn [result world tick]; [|intros _; congruence].
  rewrite run_bind, scheduleResponse_run.
  destruct (andb isUser (negb (isProcessing (world o2)))); cbn [result world tick run];
    discriminate.
Qed.

(** X8.  A turn the store rejects throws the error of the store, yet
    leaves its mark in memory and schedules no reply.  With an active
    session the message has already been pushed on it (and [updatedAt]
    set); without one, the new empty session has become the active one
    and the message is in no session.  In both cases no timer is set,
    also for a user message with the flag clear. *)
Theorem rejected_turn_state (h : Host) (w : World) (i : nat) (text : string)
  (isUser : bool) (e : JsError.t) :
  storage_down h w e ->
  let o := run h (ChatBotService.sendMessage text isUser) w i in
  result o = Err e /\
  timers (world o) = timers w /\
  currentSession (world o)
  = match currentSession w with
    | Some s => Some (appended h (S i) text isUser s)
    | None => Some (fresh_session h (S i) None)
    end.
Proof.
  intros Hdown o. subst o.
  pose proof (sendMessage_storage_down h w e Hdown text isUser i) as Hr.
  split; [exact Hr|]. split; [exact (sendMessage_thrown_no_timer h w i text isUser e Hr)|].
  destruct (currentSession w) as [s|] eqn:Hs.
  - apply (sendMessage_session h w i text isUser s Hs).
  - unfold ChatBotService.sendMessage. rewrite run_bind.
    unfold ChatBotService.ensureSession. rewrite run_bind.
    simpl (run h (perform ReadCurrentSession) w i). cbn [result world tick].
    rewrite Hs, run_bind, run_await.
    rewrite (createNewSession_storage_down h w e Hdown None (S i)).
    cbn [result world tick].
    apply (createNewSession_outcome h w (S i) None).
Qed.

Lemma rejected_turn_state_witness :
  let o := run (scenario_host sc_store_down) (ChatBotService.sendMessage "second" true)
             (session_world one_message_session) 0 in
  result o = Err (JsError.Error "SQLITE_IOERR") /\
  timers (world o) = [] /\
  map Message.text (ChatSession.messages (the_session (world o))) = ["first"; "second"].
Proof.
  cbv zeta.
  destruct (rejected_turn_state (scenario_host sc_store_down)
              (session_world one_message_session) 0 "second" true
              (JsError.Error "SQLITE_IOERR")) as (Hr & Ht & Hs).
  - right. split; [discriminate|].
    intros R ev j Hev. destruct ev; try discriminate Hev; reflexivity.
  - split; [exact Hr|]. split; [exact Ht|].
    unfold the_session. rewrite Hs. reflexivity.
Defined.

(* ===================================================================== *)
(** ** The assistant turn *)
(* ===================================================================== *)

(** X9.  A generation never schedules another one.  None of the
    synchronous effects of [generateResponse], on any path and whatever
    the host answers, sets a timer: the reply and the apology are sent as
    assistant messages, for which [sendMessage] skips the timer.  Run to
    its end, a generation leaves the pending timers as they were. *)
Theorem generation_schedules_nothing (text : string) :
  avoids sets_timer (ChatBotService.generateResponse text) /\
  (forall reply, avoids sets_timer (ChatBotService.sendMessage reply false)) /\
  forall h w i,
    timers (world (run h (ChatBotService.generateResponse text) w i)) = timers w.
Proof.
  split; [apply generateResponse_no_timer|].
  split; [apply assistant_turn_no_timer|].
  intros h w i. apply run_avoids_timer. apply generateResponse_no_timer.
Qed.

Section Reply.
Variable h : Host.
Hypothesis Hins : inserts_succeed h.

(** The text of the assistant message of a generation: the text of the
    reply the resolver returns, or the apology when it throws. *)
Lemma generation_accepted (w : World) (i : nat) (text : string) (s : ChatSession.t) :
  database w <> None ->
  currentSession w = Some s ->
  let r := run h (ChatBotService.resolveResponse text) w i in
  let reply := match result r with
               | Ok response => ChatBotResponse.text response
               | Err _ => ChatBotService.apology
               end in
  let o := run h (ChatBotService.generation text) w i in
  result o = Ok tt /\
  currentSession (world o) = Some (appended h (S (tick r)) reply false s) /\
  isProcessing (world o) = false.
Proof.
  intros Hdb Hs r reply o.
  assert (Hsr : currentSession (world r) = Some s).
  { unfold r. rewrite run_avoids_session; [exact Hs|].
    apply resolveResponse_reads. tauto. }
  assert (Hdr : database (world r) <> None).
  { unfold r. rewrite run_database. exact Hdb. }
  assert (Hsend : forall t,
             let o' := run h (await (ChatBotService.sendMessage t false) ;;; Ret tt)
                         (world r) (tick r) in
             result o' = Ok tt /\
             currentSession (world o')
             = Some (appended h (S (tick r)) t false s)).
  { intros t.
    destruct (sendMessage_accepted h Hins (world r) (tick r) t false s Hdr Hsr)
      as (Hr1 & Hw1 & _).
    cbv zeta. rewrite run_bind, run_await, Hr1. cbn [run result world tick].
    rewrite Hw1. split; reflexivity. }
  assert (Hbody : let b := run h
                    (try_catch
                       (response <- ChatBotService.resolveResponse text ;;
                        await (ChatBotService.sendMessage
                                 (ChatBotResponse.text response) false) ;;;
                        Ret tt)
                       (fun error =>
                          await (ChatBotService.sendMessage ChatBotService.apology false) ;;;
                          Ret tt)) w i in
                  result b = Ok tt /\
                  currentSession (world b)
                  = Some (appended h (S (tick r)) reply false s)).
  { cbv zeta. rewrite run_try_catch, run_bind. fold r.
    subst reply. destruct (result r) as [response|e]; cbn [result world tick].
    - destruct (Hsend (ChatBotResponse.text response)) as [H1 H2].
      rewrite H1. cbn [result world tick]. split; [reflexivity|exact H2].
    - apply Hsend. }
  cbv zeta in Hbody. destruct Hbody as [Hb1 Hb2].
  subst o. unfold ChatBotService.generation.
  rewrite run_try_finally. cbv zeta. unfold perform. cbn [run bind].
  cbn [do_sync fst snd result world tick currentSession isProcessing].
  split; [exact Hb1|]. split; [exact Hb2|reflexivity].
Qed.

Lemma generateResponse_accepted (w : World) (i : nat) (text : string)
  (s : ChatSession.t) :
  database w <> None ->
  currentSession w = Some s ->
  isProcessing w = false ->
  let r := run h (ChatBotService.resolveResponse text) (with_flag w true) (2 + i) in
  let reply := match result r with
               | Ok response => ChatBotResponse.text response
               | Err _ => ChatBotService.apology
               end in
  let o := run h (ChatBotService.generateResponse text) w i in
  result o = Ok tt /\
  currentSession (world o) = Some (appended h (S (tick r)) reply false s) /\
  isProcessing (world o) = false.
Proof.
  intros Hdb Hs Hf r reply o. subst o.
  rewrite generateResponse_run, Hf.
  apply (generation_accepted (with_flag w true) (2 + i) text s Hdb Hs).
Qed.

End Reply.

(** X10.  With the flag clear, an active session and a store that accepts
    the inserts, a generation appends exactly one message to the active
    session, an assistant message: the text of the reply of the resolver,
    or the apology when the resolver throws.  Identifier, title and
    creation date of the session stay; the call returns, the flag is
    clear and no timer is set. *)
Theorem one_reply_per_generation (h : Host) (w : World) (i : nat) (text : string)
  (s : ChatSession.t) :
  inserts_succeed h ->
  database w <> None ->
  currentSession w = Some s ->
  isProcessing w = false ->
  let r := run h (ChatBotService.resolveResponse text) (with_flag w true) (2 + i) in
  let o := run h (ChatBotService.generateResponse text) w i in
  result o = Ok tt /\
  isProcessing (world o) = false /\
  timers (world o) = timers w /\
  exists s' reply,
    currentSession (world o) = Some s' /\
    ChatSession.messages s' = (ChatSession.messages s ++ [reply])%list /\
    ChatSession.id s' = ChatSession.id s /\
    ChatSession.title s' = ChatSession.title s /\
    ChatSession.createdAt s' = ChatSession.createdAt s /\
    Message.isUser reply = false /\
    Message.text reply = match result r with
                         | Ok response => ChatBotResponse.text response
                         | Err _ => ChatBotService.apology
                         end.
Proof.
  intros Hins Hdb Hs Hf r o.
  destruct (generateResponse_accepted h Hins w i text s Hdb Hs Hf) as (Hr & Hc & Hp).
  split; [exact Hr|]. split; [exact Hp|].
  split; [apply run_avoids_timer; apply generateResponse_no_timer|].
  eexists. eexists. split; [exact Hc|]. repeat split; reflexivity.
Qed.

Lemma one_reply_per_generation_witness :
  let o := run (scenario_host sc_offline) (ChatBotService.generateResponse "hello")
             (session_world one_message_session) 0 in
  result o = Ok tt /\
  map Message.text (ChatSession.messages (the_session (world o)))
  = ["first"; ApiService.greeting_text].
Proof.
  cbv zeta.
  destruct (one_reply_per_generation (scenario_host sc_offline)
              (session_world one_message_session) 0 "hello" one_message_session)
    as (Hr & _ & _ & s' & reply & Hc & Hm & _ & _ & _ & _ & Ht).
  - apply scenario_inserts_succeed. reflexivity.
  - discriminate.
  - reflexivity.
  - reflexivity.
  - split; [exact Hr|]. unfold the_session. rewrite Hc, Hm, map_app.
    cbn [map]. rewrite Ht. reflexivity.
Defined.

(* ===================================================================== *)
(** ** A generation whose reply the store rejects *)
(* ===================================================================== *)

Section RejectedReply.
Variable h : Host.
Variable e : JsError.t.
Hypothesis Hrej : inserts_fail h e.

Lemma saveMessage_rejected (w : World) (i : nat) (sessionId : string)
  (message : Message.t) :
  database w <> None ->
  run h (DatabaseService.saveMessage sessionId message) w i
  = mkOutcome (Err e) w (2 + i).
Proof.
  intros Hdb. unfold DatabaseService.saveMessage, DatabaseService.requireDatabase,
    wait, perform. simpl.
  destruct (database w) as [d|]; [|congruence]. simpl.
  rewrite Hrej by reflexivity. reflexivity.
Qed.

Lemma sendMessage_rejected (w : World) (i : nat) (text : string) (isUser : bool)
  (s : ChatSession.t) :
  database w <> None ->
  currentSession w = Some s ->
  run h (ChatBotService.sendMessage text isUser) w i
  = mkOutcome (Err e) (with_session w (Some (appended h (S i) text isUser s)))
      (12 + i).
Proof.
  intros Hdb Hs. unfold ChatBotService.sendMessage.
  rewrite run_bind, (ensureSession_run h w i s Hs). cbn [result world tick].
  rewrite run_bind, (appendMessage_run h w (S i) text isUser s Hs).
  cbn [result world tick]. rewrite run_bind.
  unfold ChatBotService.persistMessage.
  rewrite run_bind.
  destruct (currentSessionBang_active h
              (with_session w (Some (appended h (S i) text isUser s))) (8 + S i)
              (appended h (S i) text isUser s) eq_refl) as [Hb _].
  rewrite Hb. cbn [result world tick].
  rewrite run_bind, run_await, saveMessage_rejected by exact Hdb.
  reflexivity.
Qed.

Lemma generation_rejected (w : World) (i : nat) (text : string) (s : ChatSession.t)
  (response : ChatBotResponse.t) :
  database w <> None ->
  currentSession w = Some s ->
  let r := run h (ChatBotService.resolveResponse text) w i in
  result r = Ok response ->
  let o := run h (ChatBotService.generation text) w i in
  result o = Err e /\
  currentSession (world o)
  = Some (appended h (13 + tick r) ChatBotService.apology false
            (appended h (S (tick r)) (ChatBotResponse.text response) false s)) /\
  isProcessing (world o) = false.
Proof.
  intros Hdb Hs r Hr o.
  assert (Hsr : currentSession (world r) = Some s).
  { unfold r. rewrite run_avoids_session; [exact Hs|].
    apply resolveResponse_reads. tauto. }
  assert (Hdr : database (world r) <> None).
  { unfold r. rewrite run_database. exact Hdb. }
  subst o. unfold ChatBotService.generation.
  rewrite run_try_finally. cbv zeta.
  rewrite run_try_catch, run_bind. fold r. rewrite Hr.
  rewrite run_bind, run_await,
    (sendMessage_rejected (world r) (tick r) (ChatBotResponse.text response) false s
       Hdr Hsr).
  cbn [result world tick].
  rewrite run_bind, run_await.
  rewrite (sendMessage_rejected
             (with_session (world r)
                (Some (appended h (S (tick r)) (ChatBotResponse.text response) false s)))
             (12 + tick r) ChatBotService.apology false
             (appended h (S (tick r)) (ChatBotResponse.text response) false s)
             Hdr eq_refl).
  unfold perform. cbn [run bind result world tick do_sync fst snd].
  repeat split; reflexivity.
Qed.

End RejectedReply.

(** X11.  When the store rejects the inserts while the resolver still
    produces a reply, one generation leaves two assistant messages in the
    active session: the reply, pushed before its insert was rejected,
    and then the apology of the [catch] block, whose insert is rejected
    as well.  That second error is not caught: [generateResponse] throws
    it, after the [finally] has cleared the flag. *)
Theorem rejected_reply_then_apology (h : Host) (e : JsError.t) (w : World) (i : nat)
  (text : string) (s : ChatSession.t) (response : ChatBotResponse.t) :
  inserts_fail h e ->
  database w <> None ->
  currentSession w = Some s ->
  isProcessing w = false ->
  result (run h (ChatBotService.resolveResponse text) (with_flag w true) (2 + i))
  = Ok response ->
  let o := run h (ChatBotService.generateResponse text) w i in
  result o = Err e /\
  isProcessing (world o) = false /\
  exists s' reply sorry,
    currentSession (world o) = Some s' /\
    ChatSession.messages s' = (ChatSession.messages s ++ [reply; sorry])%list /\
    Message.text reply = ChatBotResponse.text response /\
    Message.isUser reply = false /\
    Message.text sorry = ChatBotService.apology /\
    Message.isUser sorry = false.
Proof.
  intros Hrej Hdb Hs Hf Hr o. subst o.
  rewrite generateResponse_run, Hf.
  destruct (generation_rejected h e Hrej (with_flag w true) (2 + i) text s response
              Hdb Hs Hr) as (H1 & H2 & H3).
  split; [exact H1|]. split; [exact H3|].
  eexists. eexists. eexists. split; [exact H2|].
  split.
  - cbn [appended ChatSession.messages]. rewrite <- app_assoc. reflexivity.
  - repeat split; reflexivity.
Qed.

Lemma rejected_reply_then_apology_witness :
  let o := run (scenario_host sc_inserts_down) (ChatBotService.generateResponse "hello")
             (session_world one_message_session) 0 in
  result o = Err (JsError.Error "SQLITE_FULL") /\
  map Message.text (ChatSession.messages (the_session (world o)))
  = ["first"; ApiService.greeting_text; ChatBotService.apology].
Proof.
  cbv zeta.
  destruct (rejected_reply_then_apology (scenario_host sc_inserts_down)
              (JsError.Error "SQLITE_FULL")
              (session_world one_message_session) 0 "hello" one_message_session
              ApiService.greeting)
    as (Hr & _ & s' & reply & sorry & Hc & Hm & Ht1 & _ & Ht2 & _).
  - intros R ev j Hev. destruct ev; try discriminate Hev; reflexivity.
  - discriminate.
  - reflexivity.
  - reflexivity.
  - reflexivity.
  - split; [exact Hr|]. unfold the_session. rewrite Hc, Hm, map_app.
    cbn [map]. rewrite Ht1, Ht2. reflexivity.
Defined.

(* ===================================================================== *)
(** ** Loading and deleting a session *)
(* ===================================================================== *)

Lemma loadSession_run (h : Host) (w : World) (i : nat) (sessionId : string)
  (sessions : list ChatSession.t) :
  result (run h DatabaseService.getChatSessions w i) = Ok sessions ->
  let o := run h (ChatBotService.loadSession sessionId) w i in
  match find (fun s => String.eqb (ChatSession.id s) sessionId) sessions with
  | Some s => result o = Ok (Some s) /\ currentSession (world o) = Some s
  | None => result o = Ok None /\ currentSession (world o) = currentSession w
  end.
Proof.
  intros Hr o. subst o.
  assert (Hs : currentSession (world (run h DatabaseService.getChatSessions w i))
               = currentSession w).
  { apply run_avoids_session. apply getChatSessions_reads. tauto. }
  unfold ChatBotService.loadSession.
  rewrite run_try_catch, run_bind, run_await, Hr.
  destruct (find _ sessions) as [s|]; unfold perform; cbn [run bind result world tick].
  - split; reflexivity.
  - split; [reflexivity|exact Hs].
Qed.

(** X12.  [loadSession] looks the identifier up among the sessions the
    store returns.  When a session with that identifier is there, it
    becomes the active session and is returned, with the messages the
    store gave for it.  When none is, the call returns [null] and the
    active session stays as it was. *)
Theorem loadSession_by_id (h : Host) (w : World) (i : nat) (sessionId : string)
  (sessions : list ChatSession.t) :
  result (run h DatabaseService.getChatSessions w i) = Ok sessions ->
  let o := run h (ChatBotService.loadSession sessionId) w i in
  ((exists s, In s sessions /\ ChatSession.id s = sessionId) ->
   exists s, In s sessions /\ ChatSession.id s = sessionId /\
             result o = Ok (Some s) /\ currentSession (world o) = Some s) /\
  ((forall s, In s sessions -> ChatSession.id s <> sessionId) ->
   result o = Ok None /\ currentSession (world o) = currentSession w).
Proof.
  intros Hr o. pose proof (loadSession_run h w i sessionId sessions Hr) as Hrun.
  cbv zeta in Hrun. fold o in Hrun.
  destruct (find (fun s => String.eqb (ChatSession.id s) sessionId) sessions)
    as [s|] eqn:Hfind.
  - apply find_some in Hfind. destruct Hfind as [Hin Heq].
    apply String.eqb_eq in Heq. split.
    + intros _. exists s. tauto.
    + intros Hnone. exfalso. exact (Hnone s Hin Heq).
  - split.
    + intros [s [Hin Heq]]. exfalso.
      pose proof (find_none _ _ Hfind s Hin) as Hne. cbv beta in Hne.
      apply String.eqb_neq in Hne. contradiction.
    + intros _. exact Hrun.
Qed.

Lemma loadSession_by_id_witness :
  let o := run (scenario_host sc_stored) (ChatBotService.loadSession "session_1_abc")
             initial_world 0 in
  exists s, In s [stored_session] /\ ChatSession.id s = "session_1_abc" /\
            result o = Ok (Some s) /\ currentSession (world o) = Some s.
Proof.
  cbv zeta.
  apply (proj1 (loadSession_by_id (scenario_host sc_stored) initial_world 0
                  "session_1_abc" [stored_session] eq_refl)).
  exists stored_session. split; [left; reflexivity|reflexivity].
Defined.

(** X13.  [deleteSession] deletes nothing from the store: it has no
    suspension point and sends no statement.  It returns, and only
    forgets the active session when the identifier is the one of the
    active session; any other identifier, and a call without active
    session, leave the service as it was. *)
Theorem deleteSession_only_forgets (h : Host) (w : World) (i : nat)
  (sessionId : string) :
  let o := run h (ChatBotService.deleteSession sessionId) w i in
  synchronous (ChatBotService.deleteSession sessionId) /\
  asks h (ChatBotService.deleteSession sessionId) w i = [] /\
  result o = Ok tt /\
  (forall s, currentSession w = Some s -> ChatSession.id s = sessionId ->
             world o = with_session w None) /\
  (forall s, currentSession w = Some s -> ChatSession.id s <> sessionId ->
             world o = w) /\
  (currentSession w = None -> world o = w).
Proof.
  intros o. subst o.
  assert (Hsync : synchronous (ChatBotService.deleteSession sessionId)).
  { unfold ChatBotService.deleteSession, perform. simpl.
    intros [s|]; [|exact I].
    destruct (String.eqb (ChatSession.id s) sessionId); simpl; [intros []|]; exact I. }
  split; [exact Hsync|]. split; [apply asks_synchronous; exact Hsync|].
  unfold ChatBotService.deleteSession, perform. simpl.
  destruct (currentSession w) as [s|] eqn:Hs.
  - destruct (String.eqb (ChatSession.id s) sessionId) eqn:Heq; simpl.
    + apply String.eqb_eq in Heq. split; [reflexivity|].
      split; [intros; reflexivity|]. split; [|discriminate].
      intros s' Hs' Hne. inversion Hs'; subst. contradiction.
    + apply String.eqb_neq in Heq. split; [reflexivity|].
      split; [|split; [intros; reflexivity|discriminate]].
      intros s' Hs' He. inversion Hs'; subst. contradiction.
  - simpl. split; [reflexivity|]. split; [discriminate|].
    split; [discriminate|reflexivity].
Qed.

(* ===================================================================== *)
(** ** The local search *)
(* ===================================================================== *)

Lemma synchronous_bind {A B : Type} (p : Prog A) (f : A -> Prog B) :
  synchronous p -> (forall a, synchronous (f a)) -> synchronous (bind p f).
Proof.
  induction p as [a|e|R e k IH|R e k IH|k IH]; simpl; intros Hp Hf; auto.
Qed.

Lemma recordsOfRows_synchronous (rows : list CompanyRow.t) :
  synchronous (DatabaseService.recordsOfRows rows).
Proof.
  induction rows as [|row rest IH]; [exact I|].
  cbn [DatabaseService.recordsOfRows]. apply synchronous_bind.
  - unfold DatabaseService.jsonParse, perform. simpl. intros [kw|e]; exact I.
  - intros kw. apply synchronous_bind; [exact IH|intros; exact I].
Qed.

Section LocalSearch.
Variable h : Host.

Lemma recordsOfRows_parsed (rows : list CompanyRow.t) :
  (forall row, In row rows -> exists kw, parsed_keywords h row = Ok kw) ->
  forall w i,
    exists records,
      result (run h (DatabaseService.recordsOfRows rows) w i) = Ok records /\
      Forall2 (mirrors h) records rows.
Proof.
  induction rows as [|row rest IH]; intros Hall w i.
  - exists []. split; [reflexivity|constructor].
  - destruct (Hall row (or_introl eq_refl)) as [kw Hkw].
    cbn [DatabaseService.recordsOfRows].
    unfold DatabaseService.jsonParse, perform.
    cbn [bind run do_sync fst snd]. unfold parsed_keywords in Hkw. rewrite Hkw.
    cbn [bind]. rewrite run_bind.
    destruct (IH (fun r Hr => Hall r (or_intror Hr)) w (S i)) as (records & Hr & Hm).
    rewrite Hr. cbn [run result].
    eexists. split; [reflexivity|]. constructor; [|exact Hm].
    unfold mirrors, parsed_keywords. cbn. rewrite Hkw. repeat split; reflexivity.
Qed.

Lemma recordsOfRows_malformed (rows : list CompanyRow.t) (row : CompanyRow.t)
  (e : JsError.t) :
  In row rows ->
  parsed_keywords h row = Err e ->
  forall w i,
    exists e', result (run h (DatabaseService.recordsOfRows rows) w i) = Err e'.
Proof.
  induction rows as [|first rest IH]; intros Hin Hbad w i; [contradiction|].
  cbn [DatabaseService.recordsOfRows].
  unfold DatabaseService.jsonParse, perform.
  cbn [bind run do_sync fst snd].
  destruct (host_jsonParse h (or_default (CompanyRow.keywords first) "[]"))
    as [kw|e1] eqn:Hkw.
  - cbn [bind]. rewrite run_bind.
    destruct Hin as [Heq|Hin].
    + subst first. unfold parsed_keywords in Hbad. congruence.
    + destruct (IH Hin Hbad w (S i)) as [e' He']. rewrite He'.
      exists e'. reflexivity.
  - exists e1. reflexivity.
Qed.

Lemma searchCompanyData_open (w : World) (i : nat) (query : string) :
  database w <> None ->
  asks h (DatabaseService.searchCompanyData query) w i
  = [asked (SqlSearchCompanyData ("%" ++ query ++ "%"))] /\
  forall rows,
    host_async h (SqlSearchCompanyData ("%" ++ query ++ "%")) (S i) = Ok rows ->
    run h (DatabaseService.searchCompanyData query) w i
    = run h (DatabaseService.recordsOfRows rows) w (2 + i).
Proof.
  intros Hdb. destruct (database w) as [d|] eqn:Hd; [|congruence].
  destruct (requireDatabase_open h w i d Hd) as [Hr0 Ha0].
  unfold DatabaseService.searchCompanyData.
  rewrite run_bind, asks_bind, Hr0, Ha0. cbn [result world tick app].
  rewrite run_bind, asks_bind. unfold wait. cbn [run asks].
  split.
  - destruct (host_async h _ (S i)) as [rows|e]; cbn [run asks result world tick app].
    + rewrite (asks_synchronous h _ (recordsOfRows_synchronous rows)). reflexivity.
    + reflexivity.
  - intros rows Hrows. rewrite Hrows. reflexivity.
Qed.

End LocalSearch.

(** X14.  The local search sends one statement, with the query between
    two [%] signs as the term of all three [LIKE] patterns.  When the
    keywords column of every row it gets is JSON ([null] and the empty
    text count as the empty array), it returns one record for each row,
    in the order of the rows, with the columns of the row and the parsed
    keywords.  When the keywords column of some row, the best match or
    any other, is not JSON, the search throws. *)
Theorem local_search_mirrors_rows (h : Host) (w : World) (i : nat) (query : string)
  (rows : list CompanyRow.t) :
  database w <> None ->
  host_async h (SqlSearchCompanyData ("%" ++ query ++ "%")) (S i) = Ok rows ->
  let o := run h (DatabaseService.searchCompanyData query) w i in
  asks h (DatabaseService.searchCompanyData query) w i
  = [asked (SqlSearchCompanyData ("%" ++ query ++ "%"))] /\
  ((forall row, In row rows -> exists kw, parsed_keywords h row = Ok kw) ->
   exists records, result o = Ok records /\ Forall2 (mirrors h) records rows) /\
  (forall row e, In row rows -> parsed_keywords h row = Err e ->
                 exists e', result o = Err e') /\
  (forall row, CompanyRow.keywords row = None \/ CompanyRow.keywords row = Some "" ->
               parsed_keywords h row = host_jsonParse h "[]").
Proof.
  intros Hdb Hrows o. subst o.
  destruct (searchCompanyData_open h w i query Hdb) as [Ha Hrun].
  rewrite (Hrun rows Hrows).
  split; [exact Ha|]. split; [|split].
  - intros Hall. apply recordsOfRows_parsed. exact Hall.
  - intros row e Hin Hbad. apply (recordsOfRows_malformed h rows row e Hin Hbad).
  - intros row [Hk|Hk]; unfold parsed_keywords; rewrite Hk; reflexivity.
Qed.

Lemma local_search_mirrors_rows_witness :
  exists e',
    result (run (scenario_host sc_broken_row)
              (DatabaseService.searchCompanyData "support") initial_world 0)
    = Err e'.
Proof.
  apply (proj1 (proj2 (proj2
           (local_search_mirrors_rows (scenario_host sc_broken_row) initial_world 0
              "support" [support_row; broken_row] ltac:(discriminate) eq_refl)))
           broken_row (JsError.Error "Unexpected token")).
  - right. left. reflexivity.
  - reflexivity.
Defined.

(** X15.  One row with a keywords column that is not JSON among the rows
    the search statement returns, at any position, and the assistant
    apologises: the search throws while it builds the records, so the
    generation does not answer from the best match nor from the remote
    service, it appends the apology and clears the flag. *)
Theorem malformed_keywords_apologise (h : Host) (w : World) (i : nat) (text : string)
  (rows : list CompanyRow.t) (row : CompanyRow.t) (e : JsError.t)
  (s : ChatSession.t) :
  database w <> None ->
  currentSession w = Some s ->
  isProcessing w = false ->
  host_async h (SqlSearchCompanyData ("%" ++ text ++ "%")) (3 + i) = Ok rows ->
  In row rows ->
  parsed_keywords h row = Err e ->
  let o := run h (ChatBotService.generateResponse text) w i in
  last_text (world o) = Some ChatBotService.apology /\
  isProcessing (world o) = false /\
  exists j, currentSession (world o)
            = Some (appended h j ChatBotService.apology false s).
Proof.
  intros Hdb Hs Hf Hrows Hin Hbad o. subst o.
  rewrite generateResponse_run, Hf.
  assert (Hsearch : exists e',
             result (run h (DatabaseService.searchCompanyData text)
                       (with_flag w true) (2 + i)) = Err e').
  { destruct (searchCompanyData_open h (with_flag w true) (2 + i) text Hdb)
      as [_ Hrun].
    rewrite (Hrun rows Hrows).
    apply (recordsOfRows_malformed h rows row e Hin Hbad). }
  destruct Hsearch as [e' Hsearch].
  destruct (generation_search_fails h (with_flag w true) (2 + i) text e' s Hsearch Hs)
    as (j & Hc & Hflag).
  split; [|split; [exact Hflag|exists j; exact Hc]].
  unfold last_text. rewrite Hc. unfold appended. cbn [ChatSession.messages].
  rewrite map_app. cbn [map]. rewrite last_last. reflexivity.
Qed.

Lemma malformed_keywords_apologise_witness :
  let o := run (scenario_host sc_broken_row) (ChatBotService.generateResponse "support")
             (session_world one_message_session) 0 in
  map Message.text (ChatSession.messages (the_session (world o)))
  = ["first"; ChatBotService.apology] /\
  last_text (world o) = Some ChatBotService.apology.
Proof.
  cbv zeta. split; [reflexivity|].
  apply (malformed_keywords_apologise (scenario_host sc_broken_row)
           (session_world one_message_session) 0 "support"
           [support_row; broken_row] broken_row (JsError.Error "Unexpected token")
           one_message_session).
  - discriminate.
  - reflexivity.
  - reflexivity.
  - reflexivity.
  - right. left. reflexivity.
  - reflexivity.
Defined.

(* ===================================================================== *)
(** ** Reading the sessions back *)
(* ===================================================================== *)

Section ReadBack.
Variable h : Host.

Lemma getSessionMessages_open (w : World) (i : nat) (sessionId : string) :
  database w <> None ->
  run h (DatabaseService.getSessionMessages sessionId) w i
  = mkOutcome
      (match host_async h (SqlSelectMessages sessionId) (S i) with
       | Ok rows => Ok (map DatabaseService.messageOfRow rows)
       | Err e => Err e
       end) w (2 + i) /\
  asks h (DatabaseService.getSessionMessages sessionId) w i
  = [asked (SqlSelectMessages sessionId)].
Proof.
  intros Hdb. unfold DatabaseService.getSessionMessages,
    DatabaseService.requireDatabase, wait, perform. simpl.
  destruct (database w) as [d|]; [|congruence]. simpl.
  destruct (host_async h (SqlSelectMessages sessionId) (S i)); split; reflexivity.
Qed.

Lemma sessionsOfRows_open (messages : string -> list MessageRow.t)
  (rows : list SessionRow.t) :
  (forall sessionId j,
      host_async h (SqlSelectMessages sessionId) j = Ok (messages sessionId)) ->
  forall w i,
    database w <> None ->
    run h (DatabaseService.sessionsOfRows rows) w i
    = mkOutcome (Ok (map (session_of_row messages) rows)) w (2 * length rows + i) /\
    asks h (DatabaseService.sessionsOfRows rows) w i
    = map (fun row => asked (SqlSelectMessages (SessionRow.id row))) rows.
Proof.
  intros Hm. induction rows as [|row rest IH]; intros w i Hdb; [split; reflexivity|].
  cbn [DatabaseService.sessionsOfRows].
  destruct (getSessionMessages_open w i (SessionRow.id row) Hdb) as [Hr Ha].
  rewrite run_bind, asks_bind, run_await, asks_await, Hr, Ha, Hm.
  cbn [result world tick app].
  destruct (IH w (2 + i)%nat Hdb) as [Hr' Ha'].
  rewrite run_bind, asks_bind, Hr', Ha'. cbn [run asks result world tick app map].
  rewrite app_nil_r. split; [|reflexivity].
  f_equal. cbn [length]. lia.
Qed.

Lemma sessionsOfRows_rejected (e : JsError.t) (rows : list SessionRow.t) :
  (forall sessionId j, host_async h (SqlSelectMessages sessionId) j = Err e) ->
  rows <> [] ->
  forall w i,
    database w <> None ->
    result (run h (DatabaseService.sessionsOfRows rows) w i) = Err e /\
    asks h (DatabaseService.sessionsOfRows rows) w i
    = [asked (SqlSelectMessages (SessionRow.id (hd (SessionRow.mk "" "" 0 0) rows)))].
Proof.
  intros Hm Hne w i Hdb. destruct rows as [|row rest]; [congruence|].
  cbn [DatabaseService.sessionsOfRows hd].
  destruct (getSessionMessages_open w i (SessionRow.id row) Hdb) as [Hr Ha].
  rewrite run_bind, asks_bind, run_await, asks_await, Hr, Ha, Hm.
  split; reflexivity.
Qed.

End ReadBack.

(** X16.  [getChatSessions] sends one statement for the sessions and then
    one for the messages of each session row, in the order of the rows.
    When the store answers them, the sessions it returns are the rows in
    that order, each with the messages the store gave for its
    identifier.  When the store rejects the messages statement, the call
    throws after the first of them: no session is returned without its
    messages. *)
Theorem getChatSessions_reads_back (h : Host) (w : World) (i : nat)
  (rows : list SessionRow.t) :
  database w <> None ->
  host_async h SqlSelectSessions (S i) = Ok rows ->
  let o := run h DatabaseService.getChatSessions w i in
  let sent := asks h DatabaseService.getChatSessions w i in
  (forall messages,
      (forall sessionId j,
          host_async h (SqlSelectMessages sessionId) j = Ok (messages sessionId)) ->
      result o = Ok (map (session_of_row messages) rows) /\
      sent = asked SqlSelectSessions
             :: map (fun row => asked (SqlSelectMessages (SessionRow.id row))) rows) /\
  (forall e,
      (forall sessionId j, host_async h (SqlSelectMessages sessionId) j = Err e) ->
      rows <> [] ->
      result o = Err e /\ length sent = 2%nat).
Proof.
  intros Hdb Hrows o sent. subst o sent.
  destruct (database w) as [d|] eqn:Hd; [|congruence].
  destruct (requireDatabase_open h w i d Hd) as [Hr0 Ha0].
  assert (Hdb' : database w <> None) by congruence.
  unfold DatabaseService.getChatSessions.
  rewrite run_bind, asks_bind, Hr0, Ha0. cbn [result world tick app].
  rewrite run_bind, asks_bind. unfold wait. cbn [run asks]. rewrite Hrows.
  cbn [run asks result world tick app].
  split.
  - intros messages Hm.
    destruct (sessionsOfRows_open h messages rows Hm w (S (S i)) Hdb') as [Hr Ha].
    rewrite Hr, Ha. split; reflexivity.
  - intros e Hm Hne.
    destruct (sessionsOfRows_rejected h e rows Hm Hne w (S (S i)) Hdb') as [Hr Ha].
    rewrite Hr, Ha. split; reflexivity.
Qed.

Lemma getChatSessions_reads_back_witness :
  result (run (scenario_host sc_stored) DatabaseService.getChatSessions initial_world 0)
  = Ok [stored_session] /\
  asks (scenario_host sc_stored) DatabaseService.getChatSessions initial_world 0
  = [asked SqlSelectSessions; asked (SqlSelectMessages "session_1_abc")].
Proof.
  apply (proj1 (getChatSessions_reads_back (scenario_host sc_stored) initial_world 0
                  [SessionRow.mk "session_1_abc" "Chat 1/1/2025" 1 7]
                  ltac:(discriminate) eq_refl)
           (fun _ => [MessageRow.mk "msg_1_abc" "first" 1 None 1])).
  intros sessionId j. reflexivity.
Defined.

(** X17.  A message saved and read back is the same message.  When the
    store answers the messages statement with the row the insert of
    [saveMessage] wrote, [getSessionMessages] returns the message with
    its identifier, text, author flag and timestamp; the audio path
    comes back as well, except an empty one, which is stored as [NULL].
    The author flag goes through the column as 1 or 0. *)
Theorem saved_message_reads_back (h : Host) (w : World) (i j : nat)
  (sessionId : string) (message : Message.t) :
  database w <> None ->
  host_async h (SqlSelectMessages sessionId) (S j)
  = Ok (rows_written (asks h (DatabaseService.saveMessage sessionId message) w i)) ->
  let back := result (run h (DatabaseService.getSessionMessages sessionId) w j) in
  back = Ok [Message.mk (Message.id message) (Message.text message)
               (Message.isUser message) (Message.timestamp message)
               (match Message.audioPath message with
                | Some EmptyString | None => None
                | Some p => Some p
                end)] /\
  (Message.audioPath message <> Some "" -> back = Ok [message]).
Proof.
  intros Hdb Hrows back. subst back.
  destruct (getSessionMessages_open h w j sessionId Hdb) as [Hr _].
  rewrite Hr. cbn [result]. rewrite Hrows.
  assert (Ha : asks h (DatabaseService.saveMessage sessionId message) w i
               = [insert_of_message sessionId message]).
  { unfold DatabaseService.saveMessage, DatabaseService.requireDatabase,
      wait, perform, insert_of_message. simpl.
    destruct (database w) as [d|]; [|congruence]. simpl.
    destruct (host_async h _ (S i)); reflexivity. }
  rewrite Ha. destruct message as [id text isUser timestamp audioPath].
  unfold insert_of_message, rows_written, row_of_insert, DatabaseService.messageOfRow.
  cbn. split.
  - destruct isUser; reflexivity.
  - intros Hp. destruct isUser; destruct audioPath as [[|c p]|];
      try reflexivity; congruence.
Qed.

Lemma saved_message_reads_back_witness :
  result (run (scenario_host sc_stored)
            (DatabaseService.getSessionMessages "session_1_abc") initial_world 0)
  = Ok [Message.mk "msg_1_abc" "first" true 1 None].
Proof.
  apply (proj2 (saved_message_reads_back (scenario_host sc_stored) initial_world 0 0
                  "session_1_abc" (Message.mk "msg_1_abc" "first" true 1 None)
                  ltac:(discriminate) eq_refl)).
  discriminate.
Defined.

(* ===================================================================== *)
(** ** The active session only grows *)
(* ===================================================================== *)

Section Growth.
Variable h : Host.
Variable s0 : ChatSession.t.

Lemma grows_tick (w : World) (i : nat) :
  grows_from s0 w i -> grows_from s0 w (S i).
Proof. intros Hw. exact Hw. Qed.

Lemma grows_sync (R : Type) (e : Sync R) (w : World) (i : nat) :
  writes_session R e = false ->
  grows_from s0 w i -> grows_from s0 (snd (do_sync h e w i)) i.
Proof. unfold grows_from. destruct e; simpl; auto; discriminate. Qed.

Lemma grows_avoids {A : Type} (p : Prog A) :
  avoids writes_session p -> respects h (grows_from s0) p.
Proof. apply respects_avoids; [apply grows_tick|apply grows_sync]. Qed.

(** With an active session [sendMessage] creates none. *)
Lemma ensureSession_grows : respects h (grows_from s0) ChatBotService.ensureSession.
Proof.
  intros Q HQ w i Hw. unfold ChatBotService.ensureSession, perform.
  cbn [bind wp do_sync fst snd].
  destruct Hw as (s & Hs & Hext). rewrite Hs. cbn [wp].
  apply HQ. exists s. split; assumption.
Qed.

Lemma appendMessage_grows (text : string) (isUser : bool) :
  respects h (grows_from s0) (ChatBotService.appendMessage text isUser).
Proof.
  intros Q HQ w i Hw. apply wp_synchronous; [apply appendMessage_synchronous|].
  destruct Hw as (s & Hs & Hid & Ht & Hc & more & Hm).
  rewrite (appendMessage_run h w i text isUser s Hs). cbn [result world tick].
  apply HQ. exists (appended h i text isUser s). split; [reflexivity|].
  unfold extension_of, appended. cbn.
  repeat split; try assumption.
  exists (more ++ [message_at h i text isUser])%list.
  rewrite Hm, app_assoc. reflexivity.
Qed.

Lemma sendMessage_grows (text : string) (isUser : bool) :
  respects h (grows_from s0) (ChatBotService.sendMessage text isUser).
Proof.
  unfold ChatBotService.sendMessage.
  apply respects_bind; [apply ensureSession_grows|].
  intros _. apply respects_bind; [apply appendMessage_grows|].
  intros message. apply respects_bind.
  { apply grows_avoids, persistMessage_avoids. tauto. }
  intros _. apply respects_bind; [|intros; apply respects_ret].
  apply grows_avoids. unfold ChatBotService.scheduleResponse. avoids_methods.
Qed.

Lemma generateResponse_grows (text : string) :
  respects h (grows_from s0) (ChatBotService.generateResponse text).
Proof.
  unfold ChatBotService.generateResponse.
  apply respects_bind; [apply grows_avoids, avoids_perform; reflexivity|].
  intros [|]; [apply respects_ret|].
  apply respects_bind; [apply grows_avoids, avoids_perform; reflexivity|].
  intros _. unfold ChatBotService.generation.
  apply respects_try_finally; [|apply grows_avoids, avoids_perform; reflexivity].
  apply respects_try_catch.
  - apply respects_bind; [apply grows_avoids, resolveResponse_reads; tauto|].
    intros response. apply respects_bind; [|intros; apply respects_ret].
    apply respects_await, sendMessage_grows.
  - intros error. apply respects_bind; [|intros; apply respects_ret].
    apply respects_await, sendMessage_grows.
Qed.

Lemma program_of_grows (a : Action) :
  sends_only a -> respects h (grows_from s0) (program_of a).
Proof.
  destruct a; simpl; intros Ha; try contradiction; unfold forget.
  - apply respects_bind; [apply sendMessage_grows|intros; apply respects_ret].
  - apply respects_bind; [|intros; apply respects_ret].
    unfold ChatBotService.getAllSessions.
    apply respects_await, grows_avoids, getChatSessions_reads. tauto.
Qed.

Lemma take_turn_grows (g : bool) (p : Prog unit) (w : World) (others : list Task)
  (i : nat) :
  wp h (grows_from s0) p (fun _ w' i' => grows_from s0 w' i') w i ->
  Forall (task_grows h s0) others ->
  loop_grows h s0 (take_turn h g p w others i).
Proof.
  intros Hp Hd. unfold take_turn, loop_grows.
  pose proof (wp_slice h (grows_from s0) p _ w i Hp) as Hs.
  destruct (slice h p w i) as [[[r|pd] w'] i']; simpl in *.
  - split; assumption.
  - destruct Hs as [Hw Hnext]. split; [exact Hw|].
    apply Forall_app. split; [exact Hd|]. constructor; [|constructor].
    exact Hnext.
Qed.

Lemma step_grows (L L' : Loop) :
  loop_grows h s0 L -> step h sends_only L L' -> loop_grows h s0 L'.
Proof.
  intros [Hw Hd] Hstep.
  destruct Hstep as [a L Ha|L l1 l2 text Ht|L p1 p2 t Hp].
  - apply take_turn_grows; [|exact Hd].
    apply (program_of_grows a Ha); [auto|exact Hw].
  - apply take_turn_grows; [|exact Hd].
    apply (generateResponse_grows text); [auto|exact Hw].
  - rewrite Hp in Hd. apply Forall_app in Hd. destruct Hd as [Hd1 Hd2].
    inversion Hd2 as [|t' p2' Hdt Hd2']. subst t' p2'.
    apply take_turn_grows; [|apply Forall_app; split; assumption].
    apply Hdt. exact Hw.
Qed.

Lemma reaches_grows (L0 L : Loop) :
  loop_grows h s0 L0 -> reaches h sends_only L0 L -> loop_grows h s0 L.
Proof.
  intros H0 Hr. induction Hr as [|L L' Hr IH Hstep]; [exact H0|].
  apply (step_grows L L'); assumption.
Qed.

End Growth.

(** X18.  Once a session is active, user turns, the generations their
    timers start and listings of the sessions only append to it, in
    whatever order they interleave and whatever the host answers: in
    every state the loop reaches, the active session is still that
    session, with its identifier, title and creation date, and its
    messages begin with the messages it had, in the same order. *)
Theorem active_session_only_grows (h : Host) (w0 : World) (i0 : nat)
  (s0 : ChatSession.t) (L : Loop) :
  currentSession w0 = Some s0 ->
  reaches h sends_only (mkLoop w0 [] i0) L ->
  exists s more,
    currentSession (loop_world L) = Some s /\
    ChatSession.id s = ChatSession.id s0 /\
    ChatSession.title s = ChatSession.title s0 /\
    ChatSession.createdAt s = ChatSession.createdAt s0 /\
    ChatSession.messages s = (ChatSession.messages s0 ++ more)%list.
Proof.
  intros Hs Hr.
  assert (H0 : loop_grows h s0 (mkLoop w0 [] i0)).
  { split; [|constructor]. exists s0. split; [exact Hs|].
    repeat split. exists []. rewrite app_nil_r. reflexivity. }
  destruct (reaches_grows h s0 _ L H0 Hr) as [(s & Hc & Hid & Ht & Hcr & more & Hm) _].
  exists s, more. repeat split; assumption.
Qed.

Lemma active_session_only_grows_witness :
  let L := session_loop_after (scenario_host sc_offline) one_message_session
             two_turns_interleaved in
  messages_of L
  = [("first", true); ("second", true); ("third", true);
     (ApiService.echo_text "second", false)] /\
  exists s more,
    currentSession (loop_world L) = Some s /\
    ChatSession.id s = "session_1_abc" /\
    ChatSession.title s = "Chat 1/1/2025" /\
    ChatSession.createdAt s = 1 /\
    ChatSession.messages s
    = ([Message.mk "msg_1_abc" "first" true 1 None] ++ more)%list.
Proof.
  cbv zeta. split; [vm_compute; reflexivity|].
  apply (active_session_only_grows (scenario_host sc_offline)
           (session_world one_message_session) 0 one_message_session
           (session_loop_after (scenario_host sc_offline) one_message_session
              two_turns_interleaved) eq_refl).
  refine (schedule_reaches (scenario_host sc_offline) sends_only
            (session_loop one_message_session) two_turns_interleaved _
            (session_loop one_message_session) _ _ _).
  - unfold calls_allowed, two_turns_interleaved. cbn [repeat app].
    repeat constructor.
  - apply reaches_refl.
  - vm_compute. reflexivity.
Defined.

(* ===================================================================== *)
(** ** Text: trimming, splitting, joining *)
(* ===================================================================== *)

Section Text.
Import helpers.

Lemma length_trimStart (s : string) :
  (String.length (trimStart s) <= String.length s)%nat.
Proof.
  induction s as [|c s IH]; simpl; [lia|].
  destruct (is_space c); simpl; lia.
Qed.

Lemma length_trimEnd (s : string) :
  (String.length (trimEnd s) <= String.length s)%nat.
Proof.
  induction s as [|c s IH]; simpl; [lia|].
  destruct (trimEnd s) as [|d t]; [destruct (is_space c)|]; simpl in *; lia.
Qed.

Lemma length_trim (s : string) :
  (String.length (trim s) <= String.length s)%nat.
Proof.
  unfold trim. pose proof (length_trimEnd (trimStart s)).
  pose proof (length_trimStart s). lia.
Qed.

Lemma trimStart_blank (s : string) :
  trimStart s = "" <-> all_units is_space s = true.
Proof.
  induction s as [|c s IH]; simpl; [tauto|].
  destruct (is_space c); simpl; [exact IH|].
  split; discriminate.
Qed.

Lemma trimEnd_head (c : ascii) (s : string) :
  is_space c = false -> exists t, trimEnd (String c s) = String c t.
Proof.
  intros Hc. simpl. destruct (trimEnd s) as [|d t]; [rewrite Hc|]; eauto.
Qed.

Lemma trimStart_head (s : string) :
  match trimStart s with
  | EmptyString => True
  | String c _ => is_space c = false
  end.
Proof.
  induction s as [|c s IH]; simpl; [exact I|].
  destruct (is_space c) eqn:Hc; [exact IH|exact Hc].
Qed.

Lemma trim_blank (s : string) :
  trim s = "" <-> all_units is_space s = true.
Proof.
  rewrite <- trimStart_blank. unfold trim.
  pose proof (trimStart_head s) as Hh.
  destruct (trimStart s) as [|c t]; [simpl; tauto|].
  destruct (trimEnd_head c t Hh) as [u Hu]. rewrite Hu.
  split; discriminate.
Qed.

Lemma trimEnd_idempotent (s : string) : trimEnd (trimEnd s) = trimEnd s.
Proof.
  induction s as [|c s IH]; simpl; [reflexivity|].
  destruct (trimEnd s) as [|d t] eqn:Ht.
  - destruct (is_space c) eqn:Hc; simpl; [reflexivity|]. rewrite Hc. reflexivity.
  - change (trimEnd (String c (String d t))) with
      (match trimEnd (String d t) with
       | EmptyString => if is_space c then EmptyString else String c EmptyString
       | u => String c u
       end).
    rewrite IH. reflexivity.
Qed.

(** The text [trim] returns has no white space left to trim. *)
Lemma trim_idempotent (s : string) : trim (trim s) = trim s.
Proof.
  unfold trim. pose proof (trimStart_head s) as Hh.
  destruct (trimStart s) as [|c t]; [reflexivity|].
  destruct (trimEnd_head c t Hh) as [u Hu]. rewrite Hu.
  simpl trimStart. rewrite Hh. rewrite <- Hu. apply trimEnd_idempotent.
Qed.

Lemma split_nonempty (sep : ascii) (s : string) : split sep s <> [].
Proof.
  destruct s as [|c s]; simpl; [discriminate|].
  destruct (Ascii.eqb c sep); [discriminate|].
  destruct (split sep s); discriminate.
Qed.

(** [s.split(sep).join(sep)] is [s]. *)
Lemma join_split (sep : ascii) (s : string) :
  String.concat (String sep "") (split sep s) = s.
Proof.
  induction s as [|c s IH]; [reflexivity|].
  simpl split. destruct (Ascii.eqb c sep) eqn:Hc.
  - apply Ascii.eqb_eq in Hc. subst c.
    pose proof (split_nonempty sep s) as Hne.
    destruct (split sep s) as [|word words] eqn:Hs; [congruence|].
    simpl. simpl in IH. rewrite IH. reflexivity.
  - pose proof (split_nonempty sep s) as Hne.
    destruct (split sep s) as [|word words] eqn:Hs; [congruence|].
    simpl in *. destruct words; simpl in *; rewrite <- IH; reflexivity.
Qed.

End Text.

(* ===================================================================== *)
(** ** Validation, and the screen that sends *)
(* ===================================================================== *)

Lemma blank_test (text : string) :
  orb (String.eqb text "") (Nat.eqb (String.length (helpers.trim text)) 0)
  = helpers.all_units helpers.is_space text.
Proof.
  destruct (helpers.all_units helpers.is_space text) eqn:Ha.
  - apply trim_blank in Ha. rewrite Ha. simpl. apply orb_true_r.
  - assert (Hne : helpers.trim text <> "").
    { intros Ht. apply trim_blank in Ht. congruence. }
    destruct text as [|c t]; [discriminate Ha|].
    destruct (helpers.trim (String c t)); [congruence|reflexivity].
Qed.

Lemma validateMessage_valid (text : string) :
  helpers.isValid (helpers.validateMessage text) = true <->
  helpers.all_units helpers.is_space text = false /\
  (String.length text <= 1000)%nat.
Proof.
  unfold helpers.validateMessage. rewrite blank_test.
  destruct (helpers.all_units helpers.is_space text); simpl.
  - split; [discriminate|intros []; discriminate].
  - destruct (Nat.ltb 1000 (String.length text)) eqn:Hl; simpl.
    + apply Nat.ltb_lt in Hl. split; [discriminate|intros []; lia].
    + apply Nat.ltb_ge in Hl. tauto.
Qed.

(** X19.  [validateMessage] accepts a text exactly when it has a code
    unit that is not white space and at most 1000 code units, white
    space around it included.  A blank text is reported as empty, also
    when it is longer than 1000; any other text longer than 1000 is
    reported as too long, also when it would fit once trimmed. *)
Theorem validateMessage_accepts (text : string) :
  let v := helpers.validateMessage text in
  let blank := helpers.all_units helpers.is_space text in
  (helpers.isValid v = true <->
   blank = false /\ (String.length text <= 1000)%nat) /\
  (helpers.isValid v = true -> helpers.error v = None) /\
  (blank = true ->
   helpers.isValid v = false /\ helpers.error v = Some "Message cannot be empty") /\
  (blank = false -> (1000 < String.length text)%nat ->
   helpers.isValid v = false /\
   helpers.error v = Some "Message is too long (max 1000 characters)").
Proof.
  intros v blank. split; [apply validateMessage_valid|].
  subst v blank. unfold helpers.validateMessage. rewrite blank_test.
  destruct (helpers.all_units helpers.is_space text); simpl.
  - split; [discriminate|]. split; [intros _; split; reflexivity|discriminate].
  - destruct (Nat.ltb 1000 (String.length text)) eqn:Hl; simpl.
    + split; [discriminate|]. split; [discriminate|]. intros _ _. split; reflexivity.
    + apply Nat.ltb_ge in Hl. split; [reflexivity|]. split; [discriminate|].
      intros _ Hlt. lia.
Qed.

Section Screen.
Variable h : Host.

Lemma awaitCall_run {A : Type} (p : Prog A) (st : ChatScreen.State) (w : World)
  (i : nat) :
  run h (ChatScreen.awaitCall p st) w i
  = mkOutcome (Ok (result (run h p w i), st)) (world (run h p w i))
      (tick (run h p w i)) /\
  asks h (ChatScreen.awaitCall p st) w i = asks h p w i.
Proof.
  unfold ChatScreen.awaitCall.
  rewrite run_try_catch, asks_try_catch, run_bind, asks_bind, run_await, asks_await.
  destruct (result (run h p w i)) as [a|e]; cbn [run asks result world tick];
    rewrite !app_nil_r; split; reflexivity.
Qed.

Lemma andThen_run {A B : Type} (m : ChatScreen.Handler A)
  (f : A -> ChatScreen.Handler B) (st : ChatScreen.State) (w : World) (i : nat) :
  let o := run h (m st) w i in
  run h (ChatScreen.andThen m f st) w i
  = match result o with
    | Ok (Ok a, st') => run h (f a st') (world o) (tick o)
    | Ok (Err e, st') => mkOutcome (Ok (Err e, st')) (world o) (tick o)
    | Err e => mkOutcome (Err e) (world o) (tick o)
    end /\
  asks h (ChatScreen.andThen m f st) w i
  = (asks h (m st) w i ++
     match result o with
     | Ok (Ok a, st') => asks h (f a st') (world o) (tick o)
     | _ => []
     end)%list.
Proof.
  intros o. unfold ChatScreen.andThen. rewrite run_bind, asks_bind. fold o.
  destruct (result o) as [[[a|e] st']|e]; split; reflexivity.
Qed.

Lemma tryCatch_run {A : Type} (m : ChatScreen.Handler A)
  (hd : JsError.t -> ChatScreen.Handler A) (st : ChatScreen.State) (w : World)
  (i : nat) :
  let o := run h (m st) w i in
  run h (ChatScreen.tryCatch m hd st) w i
  = match result o with
    | Ok (Ok a, st') => mkOutcome (Ok (Ok a, st')) (world o) (tick o)
    | Ok (Err e, st') => run h (hd e st') (world o) (tick o)
    | Err e => mkOutcome (Err e) (world o) (tick o)
    end /\
  asks h (ChatScreen.tryCatch m hd st) w i
  = (asks h (m st) w i ++
     match result o with
     | Ok (Err e, st') => asks h (hd e st') (world o) (tick o)
     | _ => []
     end)%list.
Proof.
  intros o. unfold ChatScreen.tryCatch. rewrite run_bind, asks_bind. fold o.
  destruct (result o) as [[[a|e] st']|e]; split; reflexivity.
Qed.

Lemma tryFinally_setIsLoading_run {A : Type} (m : ChatScreen.Handler A) (b : bool)
  (st : ChatScreen.State) (w : World) (i : nat) :
  let o := run h (m st) w i in
  run h (ChatScreen.tryFinally m (ChatScreen.setIsLoading b) st) w i
  = match result o with
    | Ok (r, st') =>
        mkOutcome
          (Ok (r, ChatScreen.mkState (ChatScreen.messages st') (ChatScreen.inputText st')
                    b (ChatScreen.currentSession st') (ChatScreen.alerts st')))
          (world o) (tick o)
    | Err e => mkOutcome (Err e) (world o) (tick o)
    end /\
  asks h (ChatScreen.tryFinally m (ChatScreen.setIsLoading b) st) w i
  = asks h (m st) w i.
Proof.
  intros o. unfold ChatScreen.tryFinally. rewrite run_bind, asks_bind. fold o.
  destruct (result o) as [[r st']|e]; cbn [run asks bind ChatScreen.setIsLoading fst snd];
    rewrite app_nil_r; split; reflexivity.
Qed.

Lemma screen_tail_run (st : ChatScreen.State) (w : World) (i : nat) :
  run h (ChatScreen.andThen (ChatScreen.setInputText "")
           (fun _ => ChatScreen.updateMessages) st) w i
  = mkOutcome
      (Ok (Ok tt,
           match currentSession w with
           | Some s =>
               ChatScreen.mkState (ChatScreen.Own (ChatSession.messages s)) ""
                 (ChatScreen.isLoading st) (Some ChatScreen.Active) (ChatScreen.alerts st)
           | None =>
               ChatScreen.mkState (ChatScreen.messages st) "" (ChatScreen.isLoading st)
                 (ChatScreen.currentSession st) (ChatScreen.alerts st)
           end)) w (S i) /\
  asks h (ChatScreen.andThen (ChatScreen.setInputText "")
            (fun _ => ChatScreen.updateMessages) st) w i = [].
Proof.
  unfold ChatScreen.andThen, ChatScreen.setInputText, ChatScreen.updateMessages,
    ChatBotService.getCurrentSession, perform.
  cbn [bind run asks do_sync fst snd].
  destruct (currentSession w) as [s|]; split; reflexivity.
Qed.

Lemma screen_sendMessage_run (st : ChatScreen.State) (w : World) (i : nat) :
  helpers.isValid (helpers.validateMessage (ChatScreen.inputText st)) = true ->
  let text := helpers.trim (ChatScreen.inputText st) in
  let sent := run h (ChatBotService.sendMessage text true) w i in
  run h (ChatScreen.sendMessage st) w i
  = match result sent with
    | Ok _ => mkOutcome (Ok (Ok tt, sent_state st (currentSession (world sent))))
                (world sent) (S (tick sent))
    | Err _ => mkOutcome (Ok (Ok tt, failed_state st)) (world sent) (tick sent)
    end /\
  asks h (ChatScreen.sendMessage st) w i
  = asks h (ChatBotService.sendMessage text true) w i.
Proof.
  intros Hv text sent. unfold ChatScreen.sendMessage. rewrite Hv. cbn [negb].
  fold text.
  set (loading := ChatScreen.mkState (ChatScreen.messages st) (ChatScreen.inputText st)
                    true (ChatScreen.currentSession st) (ChatScreen.alerts st)).
  set (rest := fun _ : unit =>
                 ChatScreen.andThen
                   (ChatScreen.awaitCall (ChatBotService.sendMessage text true))
                   (fun _ : Message.t =>
                      ChatScreen.andThen (ChatScreen.setInputText "")
                        (fun _ : unit => ChatScreen.updateMessages))).
  set (body := ChatScreen.andThen (ChatScreen.setIsLoading true) rest).
  set (hd := fun _ : JsError.t =>
               ChatScreen.alert "Error"
                 (Some "Failed to send message. Please try again.")).
  destruct (awaitCall_run (ChatBotService.sendMessage text true) loading w i)
    as [Hr Ha]. fold sent in Hr.
  assert (Hbody :
    run h (body st) w i
    = match result sent with
      | Ok _ => mkOutcome
                  (Ok (Ok tt,
                       match currentSession (world sent) with
                       | Some s => ChatScreen.mkState
                                     (ChatScreen.Own (ChatSession.messages s)) "" true
                                     (Some ChatScreen.Active) (ChatScreen.alerts st)
                       | None => ChatScreen.mkState (ChatScreen.messages st) "" true
                                   (ChatScreen.currentSession st) (ChatScreen.alerts st)
                       end)) (world sent) (S (tick sent))
      | Err e => mkOutcome (Ok (Err e, loading)) (world sent) (tick sent)
      end /\
    asks h (body st) w i = asks h (ChatBotService.sendMessage text true) w i).
  { destruct (andThen_run (ChatScreen.setIsLoading true) rest st w i) as [H1 H2].
    cbv zeta in H1, H2. unfold body. rewrite H1, H2.
    cbn [ChatScreen.setIsLoading run asks result world tick app]. fold loading.
    unfold rest.
    destruct (andThen_run (ChatScreen.awaitCall (ChatBotService.sendMessage text true))
                (fun _ : Message.t =>
                   ChatScreen.andThen (ChatScreen.setInputText "")
                     (fun _ : unit => ChatScreen.updateMessages)) loading w i)
      as [H3 H4].
    cbv zeta in H3, H4. rewrite H3, H4, Hr, Ha. cbn [result world tick].
    destruct (result sent) as [m|e].
    - destruct (screen_tail_run loading (world sent) (tick sent)) as [Ht Hta].
      rewrite Ht, Hta, app_nil_r. split; reflexivity.
    - rewrite app_nil_r. split; reflexivity. }
  destruct Hbody as [Hb1 Hb2].
  destruct (tryCatch_run body hd st w i) as [Hc1 Hc2]. cbv zeta in Hc1, Hc2.
  destruct (tryFinally_setIsLoading_run (ChatScreen.tryCatch body hd) false st w i)
    as [Hf1 Hf2]. cbv zeta in Hf1, Hf2.
  rewrite Hf1, Hf2, Hc1, Hc2, Hb1, Hb2.
  destruct (result sent) as [m|e]; cbn [result world tick].
  - rewrite app_nil_r. split; [|reflexivity].
    unfold sent_state. destruct (currentSession (world sent)); reflexivity.
  - unfold hd, ChatScreen.alert. cbn [run asks result world tick].
    rewrite app_nil_r. split; reflexivity.
Qed.

End Screen.

(** X20.  The screen sends nothing the validation refuses.  For a text
    that [validateMessage] refuses, [sendMessage] of the screen shows the
    alert with the reason and does nothing else: the service is not
    called, no statement is sent, input and list stay.  For a text it
    accepts, the service is called once, as for a user message, with the
    trimmed text, which is not empty, has no white space around it and
    at most 1000 code units. *)
Theorem screen_sends_valid_text (h : Host) (w : World) (i : nat)
  (st : ChatScreen.State) :
  let text := helpers.trim (ChatScreen.inputText st) in
  let o := run h (ChatScreen.sendMessage st) w i in
  if helpers.isValid (helpers.validateMessage (ChatScreen.inputText st))
  then text <> "" /\
       (String.length text <= 1000)%nat /\
       helpers.trim text = text /\
       world o = world (run h (ChatBotService.sendMessage text true) w i) /\
       asks h (ChatScreen.sendMessage st) w i
       = asks h (ChatBotService.sendMessage text true) w i
  else o = mkOutcome (Ok (Ok tt, refused_state st)) w i /\
       asks h (ChatScreen.sendMessage st) w i = [].
Proof.
  intros text o.
  destruct (helpers.isValid (helpers.validateMessage (ChatScreen.inputText st)))
    eqn:Hv.
  - pose proof (proj1 (validateMessage_valid _) Hv) as [Hblank Hlen].
    destruct (screen_sendMessage_run h st w i Hv) as [Hr Ha].
    split; [|split; [|split; [|split]]].
    + intros Ht. apply trim_blank in Ht. congruence.
    + pose proof (length_trim (ChatScreen.inputText st)). unfold text. lia.
    + apply trim_idempotent.
    + unfold o. rewrite Hr. fold text.
      destruct (result (run h (ChatBotService.sendMessage text true) w i));
        reflexivity.
    + exact Ha.
  - unfold o, ChatScreen.sendMessage. rewrite Hv. split; reflexivity.
Qed.

Lemma openSession_stored :
  let o := run (scenario_host sc_stored)
             (ChatScreen.openSession "session_1_abc" (typing "")) initial_world 0 in
  result o = Ok (Ok tt, opened "") /\
  currentSession (world o) = Some stored_session.
Proof. cbv zeta. split; vm_compute; reflexivity. Qed.

(** X21.  [sendMessage] of the screen, run with no other task between its
    steps, never throws and always ends with the loading flag off.  When
    the service accepts the message, the input field is emptied, the
    session state refers to the active session and the list is a copy of
    its messages, the last of which is the user message with the trimmed
    text; the reply of the assistant is not among them, its timer has
    only been set.  When the service throws, the screen shows the error
    alert and keeps the input and the references it held, while the
    active session of the service, if there was one, already holds the
    message: a list of the component's own shows what it showed, but a
    list that is the array of the active session, as after opening a
    stored session, shows the message that was not sent. *)
Theorem screen_send_settles (h : Host) (w : World) (i : nat) (st : ChatScreen.State) :
  helpers.isValid (helpers.validateMessage (ChatScreen.inputText st)) = true ->
  let text := helpers.trim (ChatScreen.inputText st) in
  let sent := run h (ChatBotService.sendMessage text true) w i in
  let o := run h (ChatScreen.sendMessage st) w i in
  exists st',
    result o = Ok (Ok tt, st') /\
    ChatScreen.isLoading st' = false /\
    (forall m, result sent = Ok m ->
       ChatScreen.inputText st' = "" /\
       ChatScreen.alerts st' = ChatScreen.alerts st /\
       timers (world o) = (if isProcessing w then timers w else timers w ++ [text])%list /\
       exists s old,
         currentSession (world o) = Some s /\
         ChatSession.messages s = (old ++ [m])%list /\
         ChatScreen.currentSession st' = Some ChatScreen.Active /\
         ChatScreen.messages st' = ChatScreen.Own (old ++ [m])%list /\
         shown st' (world o) = (old ++ [m])%list /\
         Message.text m = text /\ Message.isUser m = true) /\
    (forall e, result sent = Err e ->
       st' = failed_state st /\
       (forall l, ChatScreen.messages st = ChatScreen.Own l -> shown st' (world o) = l) /\
       forall s, currentSession w = Some s ->
         currentSession (world o) = Some (appended h (S i) text true s) /\
         (ChatScreen.messages st = ChatScreen.Active ->
          shown st' (world o)
          = (ChatSession.messages s ++ [message_at h (S i) text true])%list)).
Proof.
  intros Hv text sent o.
  destruct (screen_sendMessage_run h st w i Hv) as [Hr _].
  fold text in Hr. fold sent in Hr. fold o in Hr.
  destruct (result sent) as [m|e] eqn:Hsent.
  - exists (sent_state st (currentSession (world sent))).
    rewrite Hr. cbn [result world].
    pose proof (sendMessage_ok h w i text true m) as Hok. cbv zeta in Hok.
    fold sent in Hok. destruct (Hok Hsent) as (Ht & Hu & (s & old & Hs & Hm) & _ & Htm).
    rewrite Hs. cbn [sent_state].
    split; [reflexivity|]. split; [reflexivity|]. split; [|intros e He; discriminate].
    intros m' Hm'. inversion Hm'; subst m'.
    split; [reflexivity|]. split; [reflexivity|]. split.
    { rewrite Htm. cbn [andb]. destruct (isProcessing w); reflexivity. }
    exists s, old. unfold shown. cbn [ChatScreen.messages ChatScreen.currentSession].
    rewrite Hm. repeat split; assumption.
  - exists (failed_state st). rewrite Hr. cbn [result world].
    split; [reflexivity|]. split; [reflexivity|]. split; [intros m Hm; discriminate|].
    intros e' _. split; [reflexivity|]. split.
    + intros l Hl. unfold shown, failed_state. cbn [ChatScreen.messages].
      rewrite Hl. reflexivity.
    + intros s Hs.
      pose proof (sendMessage_session h w i text true s Hs) as Hsess.
      cbv zeta in Hsess. destruct Hsess as [Hsess _]. fold sent in Hsess.
      split; [exact Hsess|].
      intros Hl. unfold shown, failed_state. cbn [ChatScreen.messages].
      rewrite Hl, Hsess. reflexivity.
Qed.

Lemma screen_send_settles_witness :
  let st := opened "  second " in
  let o := run (scenario_host sc_store_down) (ChatScreen.sendMessage st)
             (session_world stored_session) 0 in
  result o = Ok (Ok tt, failed_state st) /\
  map Message.text (shown st (session_world stored_session)) = ["first"] /\
  map Message.text (shown (failed_state st) (world o)) = ["first"; "second"].
Proof.
  cbv zeta.
  destruct (screen_send_settles (scenario_host sc_store_down)
              (session_world stored_session) 0 (opened "  second ") eq_refl)
    as (st' & Hr & _ & _ & Hfail).
  destruct (Hfail (JsError.Error "SQLITE_IOERR") eq_refl) as (Hst & _ & Hs).
  destruct (Hs stored_session eq_refl) as [_ Hshown].
  split; [rewrite Hr, Hst; reflexivity|]. split; [reflexivity|].
  rewrite <- Hst, (Hshown eq_refl). reflexivity.
Defined.

(* ===================================================================== *)
(** ** Cutting text: [sanitizeInput], [truncateText] *)
(* ===================================================================== *)

Lemma length_substring_le (m : nat) (s : string) :
  (String.length (String.substring 0 m s) <= m)%nat.
Proof.
  revert s. induction m as [|m IH]; intros [|c s]; simpl; try lia.
  specialize (IH s). lia.
Qed.

Lemma length_substring_exact (m : nat) (s : string) :
  (m <= String.length s)%nat -> String.length (String.substring 0 m s) = m.
Proof.
  revert s. induction m as [|m IH]; intros [|c s]; simpl; intros Hm; try lia.
  rewrite IH by lia. reflexivity.
Qed.

Lemma substring_prefix (m : nat) (s : string) :
  exists rest, s = String.substring 0 m s ++ rest.
Proof.
  revert s. induction m as [|m IH]; intros [|c s]; simpl.
  - exists "". reflexivity.
  - exists (String c s). reflexivity.
  - exists "". reflexivity.
  - destruct (IH s) as [rest Hr]. exists rest. rewrite <- Hr. reflexivity.
Qed.

Lemma length_append (a b : string) :
  String.length (a ++ b) = (String.length a + String.length b)%nat.
Proof. induction a as [|c a IH]; simpl; [reflexivity|]. rewrite IH. reflexivity. Qed.

Lemma all_units_substring (p : ascii -> bool) (m : nat) (s : string) :
  helpers.all_units p s = true ->
  helpers.all_units p (String.substring 0 m s) = true.
Proof.
  revert s. induction m as [|m IH]; intros [|c s]; simpl; auto.
  intros Hs. apply andb_true_iff in Hs. destruct Hs as [Hc Hs].
  rewrite Hc, (IH s Hs). reflexivity.
Qed.

Lemma all_units_remove (class : ascii -> bool) (s : string) :
  helpers.all_units (fun c => negb (class c)) (helpers.remove class s) = true.
Proof.
  induction s as [|c s IH]; simpl; [reflexivity|].
  destruct (class c) eqn:Hc; simpl; [exact IH|]. rewrite Hc, IH. reflexivity.
Qed.

Lemma length_remove (class : ascii -> bool) (s : string) :
  (String.length (helpers.remove class s) <= String.length s)%nat.
Proof.
  induction s as [|c s IH]; simpl; [lia|]. destruct (class c); simpl; lia.
Qed.

(** X22.  What [sanitizeInput] returns has at most 1000 code units, is
    not longer than the input, and contains none of the four characters
    [<], [>], the double quote and the single quote.  [validateMessage]
    never reports it as too long. *)
Theorem sanitizeInput_bounds (input : string) :
  let out := helpers.sanitizeInput input in
  (String.length out <= 1000)%nat /\
  (String.length out <= String.length input)%nat /\
  helpers.all_units
    (fun c => negb (existsb (Ascii.eqb c)
                      ["<"%char; ">"%char; ascii_of_nat 34; "'"%char])) out = true /\
  helpers.error (helpers.validateMessage out)
  <> Some "Message is too long (max 1000 characters)".
Proof.
  intros out. subst out. unfold helpers.sanitizeInput.
  set (class := fun c => existsb (Ascii.eqb c)
                           ["<"%char; ">"%char; ascii_of_nat 34; "'"%char]).
  set (clean := helpers.remove class (helpers.trim input)).
  assert (Hlen : (String.length (String.substring 0 1000 clean) <= 1000)%nat)
    by apply length_substring_le.
  split; [exact Hlen|]. split; [|split].
  - destruct (substring_prefix 1000 clean) as [rest Hrest].
    pose proof (length_remove class (helpers.trim input)) as H1. fold clean in H1.
    pose proof (length_trim input) as H2.
    assert (H3 : (String.length (String.substring 0 1000 clean)
                  <= String.length clean)%nat).
    { rewrite Hrest at 2. rewrite length_append. lia. }
    lia.
  - apply all_units_substring. apply all_units_remove.
  - unfold helpers.validateMessage.
    destruct (orb _ _); [discriminate|].
    destruct (Nat.ltb 1000 _) eqn:Hl; [|discriminate].
    apply Nat.ltb_lt in Hl. lia.
Qed.

(** X23.  [truncateText] returns the text itself when it has at most
    [maxLength] code units.  A longer text is cut to its first
    [maxLength - 3] code units followed by three dots, so the result has
    exactly [maxLength] code units when [maxLength] is at least 3; for a
    smaller [maxLength], negative included, the result is the three
    dots alone, longer than [maxLength]. *)
Theorem truncateText_length (text : string) (maxLength : Z) :
  let out := helpers.truncateText text maxLength in
  (Z.of_nat (String.length text) <= maxLength -> out = text) /\
  (maxLength < Z.of_nat (String.length text) ->
   (exists rest, text = String.substring 0 (Z.to_nat (maxLength - 3)) text ++ rest) /\
   out = String.substring 0 (Z.to_nat (maxLength - 3)) text ++ "..." /\
   Z.of_nat (String.length out) = Z.max maxLength 3 /\
   (maxLength <= 3 -> out = "...")).
Proof.
  intros out. subst out. unfold helpers.truncateText.
  destruct (Z.leb_spec (Z.of_nat (String.length text)) maxLength) as [Hle|Hgt].
  - split; [reflexivity|lia].
  - split; [lia|]. intros _.
    split; [apply substring_prefix|]. split; [reflexivity|]. split.
    + rewrite length_append, length_substring_exact by lia. simpl. lia.
    + intros Hsmall. replace (Z.to_nat (maxLength - 3)) with 0%nat by lia.
      destruct text; reflexivity.
Qed.

Lemma truncateText_length_witness :
  helpers.truncateText "hello world" 8 = "hello..." /\
  helpers.truncateText "hello world" 2 = "...".
Proof.
  split.
  - apply (proj2 (truncateText_length "hello world" 8)). reflexivity.
  - apply (proj2 (truncateText_length "hello world" 2)); [reflexivity|lia].
Defined.

(* ===================================================================== *)
(** ** The title of a session *)
(* ===================================================================== *)

Lemma append_assoc (a b c : string) : ((a ++ b) ++ c = a ++ (b ++ c))%string.
Proof. induction a as [|x a IH]; simpl; [reflexivity|]. rewrite IH. reflexivity. Qed.

Lemma append_empty_r (a : string) : (a ++ "" = a)%string.
Proof. induction a as [|x a IH]; simpl; [reflexivity|]. rewrite IH. reflexivity. Qed.

Lemma join_app (sep : string) (l1 l2 : list string) :
  l1 <> [] -> l2 <> [] ->
  String.concat sep (l1 ++ l2)
  = (String.concat sep l1 ++ sep ++ String.concat sep l2)%string.
Proof.
  intros H1 H2. induction l1 as [|x l1 IH]; [congruence|].
  destruct l1 as [|y l1].
  - destruct l2 as [|z l2]; [congruence|]. reflexivity.
  - change (String.concat sep ((x :: y :: l1) ++ l2))
      with (x ++ sep ++ String.concat sep ((y :: l1) ++ l2))%string.
    rewrite IH by discriminate.
    change (String.concat sep (x :: y :: l1))
      with (x ++ sep ++ String.concat sep (y :: l1))%string.
    rewrite !append_assoc. reflexivity.
Qed.

(** The first [k] pieces of a text, joined, are the beginning of the
    text; when there are more pieces, a separator and more follow. *)
Lemma join_firstn (sep : ascii) (k : nat) (s : string) :
  (0 < k < length (helpers.split sep s))%nat ->
  s = (String.concat (String sep "") (firstn k (helpers.split sep s))
       ++ String sep (String.concat (String sep "") (skipn k (helpers.split sep s))))%string.
Proof.
  intros Hk.
  pose proof (join_split sep s) as Hj.
  rewrite <- (firstn_skipn k (helpers.split sep s)) in Hj at 1.
  rewrite join_app in Hj.
  - symmetry. exact Hj.
  - intros H0. apply (f_equal (@length string)) in H0.
    rewrite length_firstn in H0. simpl in H0. lia.
  - intros H0. apply (f_equal (@length string)) in H0.
    rewrite length_skipn in H0. simpl in H0. lia.
Qed.

(** X24.  The title [generateSessionTitle] gives.  Without messages it
    is "New Chat".  Otherwise the first user message decides: when its
    text has at most five pieces between single spaces the title is the
    text itself, unchanged; when it has more, the title is the beginning
    of the text up to the fifth space, followed by three dots.  Runs of
    spaces count as empty pieces.  With messages but none of the user,
    the title is "Chat " and the current date. *)
Theorem generateSessionTitle_cases (h : Host) (w : World) (i : nat)
  (messages : list Message.t) :
  let title := result (run h (helpers.generateSessionTitle messages) w i) in
  (messages = [] -> title = Ok "New Chat") /\
  (forall m, find Message.isUser messages = Some m ->
     let pieces := helpers.split " " (Message.text m) in
     ((length pieces <= 5)%nat -> title = Ok (Message.text m)) /\
     ((5 < length pieces)%nat ->
      exists head rest,
        Message.text m = (head ++ " " ++ rest)%string /\
        head = String.concat " " (firstn 5 pieces) /\
        title = Ok (head ++ "..."))) /\
  (messages <> [] -> find Message.isUser messages = None ->
   title = Ok ("Chat " ++ host_localeDate h (host_clock h i))).
Proof.
  intros title. subst title. unfold helpers.generateSessionTitle.
  split; [intros ->; reflexivity|]. split.
  - intros m Hm. set (pieces := helpers.split " " (Message.text m)).
    assert (Hne : Nat.eqb (length messages) 0 = false).
    { destruct messages; [discriminate Hm|reflexivity]. }
    rewrite Hne, Hm. fold pieces. split.
    + intros Hle. replace (Nat.ltb 5 (length pieces)) with false
        by (symmetry; apply Nat.ltb_ge; exact Hle).
      rewrite firstn_all2 by exact Hle. unfold pieces.
      rewrite (join_split " " (Message.text m)), append_empty_r. reflexivity.
    + intros Hgt. replace (Nat.ltb 5 (length pieces)) with true
        by (symmetry; apply Nat.ltb_lt; exact Hgt).
      exists (String.concat " " (firstn 5 pieces)),
        (String.concat " " (skipn 5 pieces)).
      split; [|split; reflexivity].
      apply (join_firstn " " 5 (Message.text m)). fold pieces. lia.
  - intros Hne Hnone. destruct messages as [|m0 rest]; [congruence|].
    cbn [length Nat.eqb]. rewrite Hnone. reflexivity.
Qed.

(* ===================================================================== *)
(** ** Searching the messages *)
(* ===================================================================== *)

Lemma is_space_lower (c : ascii) :
  helpers.is_space (lower_ascii c) = helpers.is_space c.
Proof. destruct c as [[] [] [] [] [] [] [] []]; reflexivity. Qed.

Lemma lower_ascii_idempotent (c : ascii) :
  lower_ascii (lower_ascii c) = lower_ascii c.
Proof. destruct c as [[] [] [] [] [] [] [] []]; reflexivity. Qed.

Lemma toLowerCase_idempotent (s : string) :
  toLowerCase (toLowerCase s) = toLowerCase s.
Proof.
  induction s as [|c s IH]; simpl; [reflexivity|].
  rewrite lower_ascii_idempotent, IH. reflexivity.
Qed.

Lemma blank_lower (s : string) :
  helpers.all_units helpers.is_space (toLowerCase s)
  = helpers.all_units helpers.is_space s.
Proof.
  induction s as [|c s IH]; simpl; [reflexivity|].
  rewrite is_space_lower, IH. reflexivity.
Qed.

Lemma trim_empty_test (s : string) :
  String.eqb (helpers.trim s) "" = helpers.all_units helpers.is_space s.
Proof.
  destruct (helpers.all_units helpers.is_space s) eqn:Ha.
  - apply trim_blank in Ha. rewrite Ha. reflexivity.
  - apply String.eqb_neq. intros Ht. apply trim_blank in Ht. congruence.
Qed.

Lemma lower_ascii_latin1 :
  map lower_ascii (map ascii_of_nat [65; 90; 192; 201; 214; 215; 216; 222; 223; 255]%nat)
  = map ascii_of_nat [97; 122; 224; 233; 246; 215; 248; 254; 223; 255]%nat.
Proof. reflexivity. Qed.

(** X25.  [searchMessages] returns every message for a query that is
    blank.  For any other query it keeps, in their order, exactly the
    messages whose text contains the query, letters compared without
    case (the capitals A-Z and those of Latin-1 as their small letters):
    the query in lower case gives the same result, and searching the
    result again changes nothing.  The query is matched as typed, with
    the white space around it. *)
Theorem searchMessages_query (messages : list Message.t) (query : string) :
  let found := helpers.searchMessages messages query in
  let blank := helpers.all_units helpers.is_space query in
  (blank = true -> found = messages) /\
  (blank = false ->
   found = filter (fun m => includes (toLowerCase (Message.text m))
                              (toLowerCase query)) messages) /\
  helpers.searchMessages messages (toLowerCase query) = found /\
  helpers.searchMessages found query = found /\
  (forall m, In m found -> In m messages).
Proof.
  intros found blank. subst found blank. unfold helpers.searchMessages.
  rewrite !trim_empty_test, blank_lower, toLowerCase_idempotent.
  destruct (helpers.all_units helpers.is_space query).
  - repeat split; try reflexivity; try discriminate. intros m Hm. exact Hm.
  - split; [discriminate|]. split; [reflexivity|]. split; [reflexivity|].
    split.
    + induction messages as [|m ms IH]; [reflexivity|]. cbn [filter].
      destruct (includes _ _) eqn:Hi; [|exact IH].
      cbn [filter]. rewrite Hi, IH. reflexivity.
    + intros m Hm. apply filter_In in Hm. tauto.
Qed.

(* ===================================================================== *)
(** ** Keywords *)
(* ===================================================================== *)

Lemma existsb_eqb_In (word : string) (l : list string) :
  existsb (String.eqb word) l = true <-> In word l.
Proof.
  rewrite existsb_exists. split.
  - intros (x & Hx & He). apply String.eqb_eq in He. subst x. exact Hx.
  - intros Hin. exists word. split; [exact Hin|apply String.eqb_refl].
Qed.

Lemma unique_spec (words : list string) :
  forall seen,
    NoDup (helpers.unique seen words) /\
    forall word, In word (helpers.unique seen words) <->
                 In word words /\ ~ In word seen.
Proof.
  induction words as [|x rest IH]; intros seen; simpl.
  - split; [constructor|]. intros word. tauto.
  - destruct (existsb (String.eqb x) seen) eqn:Hx.
    + apply existsb_eqb_In in Hx. destruct (IH seen) as [Hnd Hin].
      split; [exact Hnd|]. intros word. rewrite Hin. split.
      * tauto.
      * intros [[Heq|Hr] Hs]; [subst; contradiction|tauto].
    + assert (Hnx : ~ In x seen).
      { intros Hin. apply existsb_eqb_In in Hin. congruence. }
      destruct (IH (x :: seen)) as [Hnd Hin]. split.
      * constructor; [|exact Hnd]. rewrite Hin. simpl. tauto.
      * intros word. simpl. rewrite Hin. simpl. split.
        -- intros [Heq|[Hr Hs]]; [subst; tauto|tauto].
        -- intros [[Heq|Hr] Hs]; [tauto|].
           destruct (String.eqb_spec x word) as [Heq|Hne]; [tauto|tauto].
Qed.

Lemma splitSpaces_pieces (p : ascii -> bool) (s : string) :
  helpers.all_units p s = true ->
  forall afterSpace piece,
    In piece (helpers.splitSpaces afterSpace s) ->
    helpers.all_units (fun c => andb (p c) (negb (helpers.is_space c))) piece = true.
Proof.
  induction s as [|c s IH]; simpl; intros Hs afterSpace piece Hin.
  - destruct Hin as [<-|[]]. reflexivity.
  - apply andb_true_iff in Hs. destruct Hs as [Hc Hs].
    destruct (helpers.is_space c) eqn:Hsp.
    + destruct afterSpace.
      * apply (IH Hs true piece Hin).
      * destruct Hin as [<-|Hin]; [reflexivity|apply (IH Hs true piece Hin)].
    + pose proof (IH Hs false) as IHf.
      destruct (helpers.splitSpaces false s) as [|word words].
      * destruct Hin as [<-|[]]. simpl. rewrite Hc, Hsp. reflexivity.
      * destruct Hin as [<-|Hin].
        -- simpl. rewrite Hc, Hsp. simpl. apply IHf. left. reflexivity.
        -- apply IHf. right. exact Hin.
Qed.

Lemma all_units_remove_keeps (p class : ascii -> bool) (s : string) :
  helpers.all_units p s = true ->
  helpers.all_units p (helpers.remove class s) = true.
Proof.
  induction s as [|c s IH]; simpl; [reflexivity|].
  intros Hs. apply andb_true_iff in Hs. destruct Hs as [Hc Hs].
  destruct (class c); simpl; [auto|]. rewrite Hc. auto.
Qed.

Lemma all_units_and (p q : ascii -> bool) (s : string) :
  helpers.all_units p s = true -> helpers.all_units q s = true ->
  helpers.all_units (fun c => andb (p c) (q c)) s = true.
Proof.
  induction s as [|c s IH]; simpl; [reflexivity|].
  intros Hp Hq. apply andb_true_iff in Hp. apply andb_true_iff in Hq.
  destruct Hp as [Hp1 Hp2]. destruct Hq as [Hq1 Hq2].
  rewrite Hp1, Hq1. simpl. auto.
Qed.

Lemma all_units_impl (p q : ascii -> bool) (s : string) :
  (forall c, p c = true -> q c = true) ->
  helpers.all_units p s = true -> helpers.all_units q s = true.
Proof.
  intros Hpq. induction s as [|c s IH]; simpl; [reflexivity|].
  intros Hs. apply andb_true_iff in Hs. destruct Hs as [Hc Hs].
  rewrite (Hpq c Hc). simpl. auto.
Qed.

Lemma toLowerCase_lowered (s : string) :
  helpers.all_units (fun c => Ascii.eqb (lower_ascii c) c) (toLowerCase s) = true.
Proof.
  induction s as [|c s IH]; simpl; [reflexivity|].
  rewrite lower_ascii_idempotent, Ascii.eqb_refl. exact IH.
Qed.

Lemma keyword_char (c : ascii) :
  andb (andb (Ascii.eqb (lower_ascii c) c)
          (negb (negb (orb (helpers.is_word_char c) (helpers.is_space c)))))
    (negb (helpers.is_space c)) = true ->
  helpers.is_keyword_char c = true.
Proof. destruct c as [[] [] [] [] [] [] [] []]; simpl; auto. Qed.

(** X26.  The keywords [extractKeywords] returns are pairwise distinct;
    each has more than two code units, is none of the common words, and
    consists of lower-case letters, digits and underscores only: no
    upper case, no punctuation, no white space.  Upper and lower case in
    the text give the same keywords. *)
Theorem extractKeywords_clean (text : string) :
  let keywords := helpers.extractKeywords text in
  NoDup keywords /\
  (forall keyword, In keyword keywords ->
     (2 < String.length keyword)%nat /\
     ~ In keyword helpers.commonWords /\
     helpers.all_units helpers.is_keyword_char keyword = true) /\
  helpers.extractKeywords (toLowerCase text) = keywords.
Proof.
  intros keywords. subst keywords. unfold helpers.extractKeywords.
  rewrite toLowerCase_idempotent.
  set (class := fun c => negb (orb (helpers.is_word_char c) (helpers.is_space c))).
  set (cleaned := helpers.remove class (toLowerCase text)).
  set (keep := fun word => andb (Nat.ltb 2 (String.length word))
                             (negb (existsb (String.eqb word) helpers.commonWords))).
  destruct (unique_spec (filter keep (helpers.splitSpaces false cleaned)) [])
    as [Hnd Hin].
  split; [exact Hnd|]. split; [|reflexivity].
  intros keyword Hk. apply Hin in Hk. destruct Hk as [Hk _].
  apply filter_In in Hk. destruct Hk as [Hpiece Hkeep].
  unfold keep in Hkeep. apply andb_true_iff in Hkeep. destruct Hkeep as [Hlen Hcommon].
  apply Nat.ltb_lt in Hlen. split; [exact Hlen|]. split.
  - intros Hc. apply existsb_eqb_In in Hc. rewrite Hc in Hcommon. discriminate.
  - assert (Hclean : helpers.all_units
                       (fun c => andb (Ascii.eqb (lower_ascii c) c) (negb (class c)))
                       cleaned = true).
    { apply all_units_and.
      - apply all_units_remove_keeps. apply toLowerCase_lowered.
      - apply all_units_remove. }
    pose proof (splitSpaces_pieces _ cleaned Hclean false keyword Hpiece) as Hp.
    revert Hp. apply all_units_impl. intros c. unfold class. apply keyword_char.
Qed.

(* ===================================================================== *)
(** ** Relative time *)
(* ===================================================================== *)

Lemma formatTimestamp_run (h : Host) (w : World) (i : nat) (date : Z) :
  let diff := host_clock h i - date in
  result (run h (helpers.formatTimestamp date) w i)
  = Ok (if diff / 60000 <? 1 then "Just now"
        else if diff / 60000 <? 60 then string_of_Z (diff / 60000) ++ "m ago"
        else if diff / 3600000 <? 24 then string_of_Z (diff / 3600000) ++ "h ago"
        else if diff / 86400000 =? 1 then "Yesterday"
        else if diff / 86400000 <? 7 then string_of_Z (diff / 86400000) ++ " days ago"
        else host_localeDate h date).
Proof.
  intros diff. unfold helpers.formatTimestamp, perform.
  cbn [bind run do_sync fst snd]. fold diff.
  change (1000 * 60 * 60 * 24) with 86400000.
  change (1000 * 60 * 60) with 3600000. change (1000 * 60) with 60000.
  destruct (diff / 60000 <? 1); [reflexivity|].
  destruct (diff / 60000 <? 60); [reflexivity|].
  destruct (diff / 3600000 <? 24); [reflexivity|].
  destruct (diff / 86400000 =? 1); [reflexivity|].
  destruct (diff / 86400000 <? 7); reflexivity.
Qed.

(** X27.  [formatTimestamp] sorts a date by the milliseconds elapsed
    since it, whatever the calendar says.  Less than a minute, a date in
    the future included, is "Just now"; up to an hour it gives the whole
    minutes, 1 to 59; up to 24 hours the whole hours, 1 to 23; from 24
    to 48 hours "Yesterday"; up to seven days the whole days, 2 to 6;
    from seven days on the date in the format of the locale. *)
Theorem formatTimestamp_ranges (h : Host) (w : World) (i : nat) (date : Z) :
  let elapsed := host_clock h i - date in
  let label := result (run h (helpers.formatTimestamp date) w i) in
  (elapsed < 60000 -> label = Ok "Just now") /\
  (60000 <= elapsed < 3600000 ->
   label = Ok (string_of_Z (elapsed / 60000) ++ "m ago") /\
   1 <= elapsed / 60000 <= 59) /\
  (3600000 <= elapsed < 86400000 ->
   label = Ok (string_of_Z (elapsed / 3600000) ++ "h ago") /\
   1 <= elapsed / 3600000 <= 23) /\
  (86400000 <= elapsed < 172800000 -> label = Ok "Yesterday") /\
  (172800000 <= elapsed < 604800000 ->
   label = Ok (string_of_Z (elapsed / 86400000) ++ " days ago") /\
   2 <= elapsed / 86400000 <= 6) /\
  (604800000 <= elapsed -> label = Ok (host_localeDate h date)).
Proof.
  intros elapsed label. subst label. rewrite formatTimestamp_run. fold elapsed.
  assert (Hm : elapsed / 60000 < 1 <-> elapsed < 60000)
    by (Z.div_mod_to_equations; lia).
  assert (Hm60 : elapsed / 60000 < 60 <-> elapsed < 3600000)
    by (Z.div_mod_to_equations; lia).
  assert (Hh : elapsed / 3600000 < 24 <-> elapsed < 86400000)
    by (Z.div_mod_to_equations; lia).
  assert (Hd1 : elapsed / 86400000 = 1 <-> 86400000 <= elapsed < 172800000)
    by (Z.div_mod_to_equations; lia).
  assert (Hd7 : elapsed / 86400000 < 7 <-> elapsed < 604800000)
    by (Z.div_mod_to_equations; lia).
  destruct (Z.ltb_spec (elapsed / 60000) 1) as [H1|H1].
  { split; [reflexivity|]. repeat split; intros; exfalso; lia. }
  destruct (Z.ltb_spec (elapsed / 60000) 60) as [H2|H2].
  { split; [intros; exfalso; lia|]. split; [intros; split; [reflexivity|lia]|].
    repeat split; intros; exfalso; lia. }
  destruct (Z.ltb_spec (elapsed / 3600000) 24) as [H3|H3].
  { split; [intros; exfalso; lia|]. split; [intros; exfalso; lia|].
    split; [intros; split; [reflexivity|Z.div_mod_to_equations; lia]|].
    repeat split; intros; exfalso; lia. }
  destruct (Z.eqb_spec (elapsed / 86400000) 1) as [H4|H4].
  { split; [intros; exfalso; lia|]. split; [intros; exfalso; lia|].
    split; [intros; exfalso; lia|]. split; [reflexivity|].
    split; intros; exfalso; lia. }
  destruct (Z.ltb_spec (elapsed / 86400000) 7) as [H5|H5].
  { split; [intros; exfalso; lia|]. split; [intros; exfalso; lia|].
    split; [intros; exfalso; lia|]. split; [intros; exfalso; lia|].
    split; [intros; split; [reflexivity|Z.div_mod_to_equations; lia]|].
    intros; exfalso; lia. }
  split; [intros; exfalso; lia|]. split; [intros; exfalso; lia|].
  split; [intros; exfalso; lia|]. split; [intros; exfalso; lia|].
  split; [intros; exfalso; lia|]. reflexivity.
Qed.

(* ===================================================================== *)
(** ** Throttling *)
(* ===================================================================== *)

Lemma throttle_run_spec (delay : Z) (nows : list Z) :
  forall lastCall,
    spaced delay lastCall (helpers.throttle_run delay lastCall nows) /\
    (forall t, In t (helpers.throttle_run delay lastCall nows) -> In t nows) /\
    (spaced delay lastCall nows -> helpers.throttle_run delay lastCall nows = nows).
Proof.
  induction nows as [|now rest IH]; intros lastCall; simpl.
  - split; [exact I|]. split; [intros t []|reflexivity].
  - unfold helpers.throttled.
    destruct (Z.leb_spec delay (now - lastCall)) as [Hle|Hgt].
    + destruct (IH now) as (Hs & Hin & Hall). split; [|split].
      * simpl. split; [exact Hle|exact Hs].
      * intros t [Ht|Ht]; [left; exact Ht|right; apply Hin; exact Ht].
      * intros [_ Hsp]. rewrite (Hall Hsp). reflexivity.
    + destruct (IH lastCall) as (Hs & Hin & Hall). split; [exact Hs|]. split.
      * intros t Ht. right. apply Hin. exact Ht.
      * intros [Hle _]. lia.
Qed.

(** X28.  A throttled function runs at readings of the clock that are at
    least [delay] milliseconds apart, the first one at least [delay]
    after 0, however often and at whatever readings it is called; a call
    in between is dropped, not postponed.  When the calls themselves are
    that far apart, every one of them runs. *)
Theorem throttle_spacing (delay : Z) (nows : list Z) :
  let ran := helpers.throttle delay nows in
  spaced delay 0 ran /\
  (forall t, In t ran -> In t nows) /\
  (spaced delay 0 nows -> ran = nows).
Proof. intros ran. apply throttle_run_spec. Qed.

(* ===================================================================== *)
(** ** Grouping by date *)
(* ===================================================================== *)

Lemma lookup_push (dateKey key : string) (message : Message.t)
  (grouped : list (string * list Message.t)) :
  helpers.lookup key (helpers.push dateKey message grouped)
  = if String.eqb dateKey key
    then Some (match helpers.lookup key grouped with
               | Some group => group ++ [message]
               | None => [message]
               end)%list
    else helpers.lookup key grouped.
Proof.
  induction grouped as [|[k group] rest IH]; simpl.
  - rewrite String.eqb_sym. destruct (String.eqb key dateKey); reflexivity.
  - destruct (String.eqb_spec k dateKey) as [Hk|Hk]; simpl.
    + subst k. destruct (String.eqb_spec dateKey key) as [Hd|Hd]; reflexivity.
    + destruct (String.eqb_spec k key) as [Hkk|Hkk].
      * subst k. destruct (String.eqb_spec dateKey key) as [Hd|Hd];
          [congruence|reflexivity].
      * exact IH.
Qed.

Lemma keys_push (dateKey : string) (message : Message.t)
  (grouped : list (string * list Message.t)) :
  NoDup (map fst grouped) ->
  NoDup (map fst (helpers.push dateKey message grouped)) /\
  (forall key, In key (map fst (helpers.push dateKey message grouped)) <->
               key = dateKey \/ In key (map fst grouped)).
Proof.
  induction grouped as [|[k group] rest IH]; simpl; intros Hnd.
  - split; [constructor; [intros []|constructor]|]. intros key. split.
    + intros [H|[]]. left. congruence.
    + intros [H|[]]. left. congruence.
  - inversion Hnd as [|k' rest' Hnotin Hrest]. subst k' rest'.
    destruct (String.eqb_spec k dateKey) as [Hk|Hk]; simpl.
    + split; [exact Hnd|]. intros key. subst k. intuition congruence.
    + destruct (IH Hrest) as [Hnd' Hin']. split.
      * constructor; [|exact Hnd']. rewrite Hin'. intros [H|H]; [congruence|tauto].
      * intros key. rewrite Hin'. intuition congruence.
Qed.

Lemma grouped_fold (toDateString : Z -> string) (key : string)
  (messages : list Message.t) :
  forall grouped,
    NoDup (map fst grouped) ->
    let step := fun g message =>
                  helpers.push (toDateString (Message.timestamp message)) message g in
    let same := filter (fun m => String.eqb (toDateString (Message.timestamp m)) key)
                  messages in
    NoDup (map fst (fold_left step messages grouped)) /\
    helpers.lookup key (fold_left step messages grouped)
    = match same, helpers.lookup key grouped with
      | [], found => found
      | _, Some group => Some (group ++ same)%list
      | _, None => Some same
      end.
Proof.
  induction messages as [|m rest IH]; intros grouped Hnd; cbv zeta.
  - simpl. split; [exact Hnd|reflexivity].
  - cbn [fold_left filter].
    destruct (keys_push (toDateString (Message.timestamp m)) m grouped Hnd)
      as [Hnd' _].
    destruct (IH _ Hnd') as [Hn Hl]. cbv zeta in Hn, Hl.
    split; [exact Hn|]. rewrite Hl, lookup_push.
    destruct (String.eqb (toDateString (Message.timestamp m)) key).
    + destruct (filter _ rest) as [|m' same'];
        destruct (helpers.lookup key grouped) as [group|]; try reflexivity.
      * rewrite <- app_assoc. reflexivity.
    + reflexivity.
Qed.

(** X29.  In what [groupMessagesByDate] returns, the group under a date
    key holds exactly the messages with that date, in the order they
    have in the list; a date no message has is no key, so no group is
    empty; and no key occurs twice. *)
Theorem groupMessagesByDate_groups (toDateString : Z -> string)
  (messages : list Message.t) :
  let grouped := helpers.groupMessagesByDate toDateString messages in
  NoDup (map fst grouped) /\
  forall dateKey,
    helpers.lookup dateKey grouped
    = match filter (fun m => String.eqb (toDateString (Message.timestamp m)) dateKey)
              messages with
      | [] => None
      | same => Some same
      end.
Proof.
  intros grouped. subst grouped. unfold helpers.groupMessagesByDate.
  split.
  - apply (grouped_fold toDateString "" messages []). constructor.
  - intros dateKey.
    destruct (grouped_fold toDateString dateKey messages [] (NoDup_nil _)) as [_ Hl].
    cbv zeta in Hl. rewrite Hl. simpl.
    destruct (filter _ messages); reflexivity.
Qed.

(* ===================================================================== *)
(** ** Regular expressions: the matcher is right *)
(* ===================================================================== *)

Lemma matches_seq_inv (r1 r2 : RegExp) (s : string) :
  matches (Seq r1 r2) s ->
  exists s1 s2, s = (s1 ++ s2)%string /\ matches r1 s1 /\ matches r2 s2.
Proof. intros H. inversion H; subst. eauto. Qed.

Lemma matches_alt_inv (r1 r2 : RegExp) (s : string) :
  matches (Alt r1 r2) s -> matches r1 s \/ matches r2 s.
Proof. intros H. inversion H; subst; tauto. Qed.

Lemma append_empty_inv (a b : string) : (a ++ b)%string = "" -> a = "" /\ b = "".
Proof. destruct a; simpl; [tauto|discriminate]. Qed.

Lemma nullable_matches (r : RegExp) : nullable r = true <-> matches r "".
Proof.
  induction r as [| |p|r1 IH1 r2 IH2|r1 IH1 r2 IH2|r IH]; simpl.
  - split; [discriminate|intros H; inversion H].
  - split; [intros _; constructor|reflexivity].
  - split; [discriminate|intros H; inversion H].
  - rewrite andb_true_iff, IH1, IH2. split.
    + intros [H1 H2]. apply (matches_seq r1 r2 "" "" H1 H2).
    + intros H. apply matches_seq_inv in H. destruct H as (s1 & s2 & Heq & H1 & H2).
      symmetry in Heq. apply append_empty_inv in Heq. destruct Heq; subst. tauto.
  - rewrite orb_true_iff, IH1, IH2. split.
    + intros [H|H]; [apply matches_left|apply matches_right]; exact H.
    + apply matches_alt_inv.
  - split; [intros _; constructor|reflexivity].
Qed.

(** A repetition that matches a text beginning with [c] starts with a
    round that matches a text beginning with [c]. *)
Lemma star_first_round (r : RegExp) (t : string) :
  matches (Star r) t ->
  forall c s, t = String c s ->
    exists s1 s2, s = (s1 ++ s2)%string /\
                  matches r (String c s1) /\ matches (Star r) s2.
Proof.
  intros H. remember (Star r) as rs eqn:Hrs.
  induction H as [|p c0 Hp|r1 r2 s1 s2 H1 _ H2 _|r1 r2 s H _|r1 r2 s H _
                  |r0|r0 s1 s2 H1 _ H2 IH2]; try discriminate Hrs.
  - intros c s Heq. discriminate Heq.
  - inversion Hrs. subst r0. intros c s Heq.
    destruct s1 as [|c1 s1'].
    + simpl in Heq. apply (IH2 eq_refl c s Heq).
    + simpl in Heq. inversion Heq. subst c1 s.
      exists s1', s2. repeat split; assumption.
Qed.

Lemma derive_matches (r : RegExp) :
  forall c s, matches (derive c r) s <-> matches r (String c s).
Proof.
  induction r as [| |p|r1 IH1 r2 IH2|r1 IH1 r2 IH2|r IH]; intros c s; simpl.
  - split; intros H; inversion H.
  - split; intros H; inversion H.
  - destruct (p c) eqn:Hp.
    + split; intros H.
      * inversion H. subst. constructor. exact Hp.
      * inversion H. subst. constructor.
    + split; intros H; inversion H. congruence.
  - assert (Hfirst : matches (Seq (derive c r1) r2) s ->
                     matches (Seq r1 r2) (String c s)).
    { intros H. apply matches_seq_inv in H. destruct H as (s1 & s2 & Heq & H1 & H2).
      subst s. apply IH1 in H1. apply (matches_seq r1 r2 (String c s1) s2 H1 H2). }
    assert (Hback : matches (Seq r1 r2) (String c s) ->
                    matches (Seq (derive c r1) r2) s \/
                    (matches r1 "" /\ matches (derive c r2) s)).
    { intros H. apply matches_seq_inv in H. destruct H as (s1 & s2 & Heq & H1 & H2).
      destruct s1 as [|c1 s1'].
      - simpl in Heq. subst s2. right. split; [exact H1|]. apply IH2. exact H2.
      - simpl in Heq. inversion Heq. subst c1 s. left.
        apply matches_seq; [apply IH1; exact H1|exact H2]. }
    destruct (nullable r1) eqn:Hn.
    + split.
      * intros H. apply matches_alt_inv in H. destruct H as [H|H];
          [apply Hfirst; exact H|].
        apply nullable_matches in Hn.
        apply (matches_seq r1 r2 "" (String c s) Hn). apply IH2. exact H.
      * intros H. destruct (Hback H) as [H1|[_ H2]];
          [apply matches_left|apply matches_right]; assumption.
    + split; [exact Hfirst|].
      intros H. destruct (Hback H) as [H1|[H1 _]]; [exact H1|].
      apply nullable_matches in H1. congruence.
  - split; intros H.
    + apply matches_alt_inv in H. destruct H as [H|H];
        [apply matches_left; apply IH1|apply matches_right; apply IH2]; exact H.
    + apply matches_alt_inv in H. destruct H as [H|H];
        [apply matches_left; apply IH1|apply matches_right; apply IH2]; exact H.
  - split; intros H.
    + apply matches_seq_inv in H. destruct H as (s1 & s2 & Heq & H1 & H2).
      subst s. apply IH in H1. apply (matches_more r (String c s1) s2 H1 H2).
    + destruct (star_first_round r (String c s) H c s eq_refl)
        as (s1 & s2 & Heq & H1 & H2).
      subst s. apply matches_seq; [apply IH; exact H1|exact H2].
Qed.

Lemma test_matches (s : string) : forall r, test r s = true <-> matches r s.
Proof.
  induction s as [|c s IH]; intros r; simpl.
  - apply nullable_matches.
  - rewrite IH. apply derive_matches.
Qed.

Lemma star_class (p : ascii -> bool) (s : string) :
  matches (Star (Class p)) s <-> helpers.all_units p s = true.
Proof.
  split.
  - intros H. remember (Star (Class p)) as rs eqn:Hrs.
    induction H as [|q c0 Hq|r1 r2 s1 s2 H1 _ H2 _|r1 r2 s H _|r1 r2 s H _
                    |r0|r0 s1 s2 H1 _ H2 IH2]; try discriminate Hrs.
    + reflexivity.
    + inversion Hrs. subst r0. inversion H1. subst. simpl.
      rewrite (IH2 eq_refl). rewrite andb_true_r. assumption.
  - induction s as [|c s IH]; simpl; intros Hs; [constructor|].
    apply andb_true_iff in Hs. destruct Hs as [Hc Hs].
    apply (matches_more (Class p) (String c "") s).
    + constructor. exact Hc.
    + apply IH. exact Hs.
Qed.

Lemma plus_class (p : ascii -> bool) (s : string) :
  matches (Plus (Class p)) s <-> s <> "" /\ helpers.all_units p s = true.
Proof.
  unfold Plus. split.
  - intros H. apply matches_seq_inv in H. destruct H as (s1 & s2 & Heq & H1 & H2).
    inversion H1. subst. apply star_class in H2. simpl.
    split; [discriminate|]. rewrite H2. rewrite andb_true_r. assumption.
  - intros [Hne Hs]. destruct s as [|c s]; [congruence|].
    simpl in Hs. apply andb_true_iff in Hs. destruct Hs as [Hc Hs].
    apply (matches_seq (Class p) (Star (Class p)) (String c "") s).
    + constructor. exact Hc.
    + apply star_class. exact Hs.
Qed.

Lemma class_one (c : ascii) (s : string) :
  matches (Class (Ascii.eqb c)) s <-> s = String c "".
Proof.
  split.
  - intros H. inversion H as [|p c' Hc| | | | |]. subst.
    apply Ascii.eqb_eq in Hc. subst. reflexivity.
  - intros ->. constructor. apply Ascii.eqb_refl.
Qed.

(** X30.  [isValidEmail] accepts exactly the texts of the form
    [local@domain.tld] in which each of the three parts is not empty and
    has no white space and no at sign; the domain part may itself have
    dots.  So an accepted text has no white space at all, one at sign,
    and a dot after it that is neither the first nor the last code unit
    of what follows the at sign. *)
Theorem isValidEmail_shape (email : string) :
  helpers.isValidEmail email = true <->
  exists localPart domain tld,
    email = (localPart ++ "@" ++ domain ++ "." ++ tld)%string /\
    localPart <> "" /\ domain <> "" /\ tld <> "" /\
    helpers.all_units helpers.notSpaceNorAt localPart = true /\
    helpers.all_units helpers.notSpaceNorAt domain = true /\
    helpers.all_units helpers.notSpaceNorAt tld = true.
Proof.
  unfold helpers.isValidEmail. rewrite test_matches. unfold helpers.emailRegex.
  split.
  - intros H.
    apply matches_seq_inv in H. destruct H as (a & r1 & -> & Ha & H).
    apply matches_seq_inv in H. destruct H as (at' & r2 & -> & Hat & H).
    apply matches_seq_inv in H. destruct H as (b & r3 & -> & Hb & H).
    apply matches_seq_inv in H. destruct H as (dot & c & -> & Hdot & Hc).
    apply class_one in Hat. apply class_one in Hdot. subst at' dot.
    apply plus_class in Ha. apply plus_class in Hb. apply plus_class in Hc.
    exists a, b, c. tauto.
  - intros (a & b & c & -> & Ha & Hb & Hc & Haa & Hbb & Hcc).
    apply matches_seq; [apply plus_class; tauto|].
    apply (matches_seq _ _ "@"); [apply class_one; reflexivity|].
    apply matches_seq; [apply plus_class; tauto|].
    apply (matches_seq _ _ "."); [apply class_one; reflexivity|].
    apply plus_class; tauto.
Qed.
